(** * The supply phase of the ruby-freetds buildpack

    A shallow embedding of [src/ruby/supply/supply.go].  The Go code drives
    a file system, the process environment, a logger and a handful of
    collaborators that it only knows through interfaces ([Stager],
    [Manifest], [Installer], [Versions], [Command], [TempDir]).  Here the
    file system and the environment are finite maps inside an explicit
    [World], every method of [Supplier] is a function in a state-and-error
    monad over that world, and the interfaces are type classes whose
    instances play the role of the Go implementations. *)

From Stdlib Require Import ZArith Ascii String.
From stdpp Require Import base decidable option list strings gmap fin_maps sorting.

Open Scope string_scope.
Open Scope list_scope.

(** ** Errors and results *)

(** A Go [error] value.  [ENOENT] is the one kind of error the code tells
    apart (through [os.IsNotExist]); every other error is its message. *)
Inductive error :=
| ENOENT (what : string)
| EMsg (msg : string).

Definition Error (e : error) : string :=
  match e with
  | ENOENT what => what +:+ ": no such file or directory"
  | EMsg m => m
  end.

Definition IsNotExist (e : error) : bool :=
  match e with ENOENT _ => true | EMsg _ => false end.

Global Instance error_eq_dec : EqDecision error.
Proof. solve_decision. Defined.

(** [fmt.Errorf(prefix + "%v", err)] *)
Definition Errorf (prefix : string) (e : error) : error := EMsg (prefix +:+ Error e).

(** A Go result pair [(a, err)]: either the value or a non-nil error. *)
Inductive Res (A : Type) :=
| Ok (a : A)
| Err (e : error).
Arguments Ok {A} a.
Arguments Err {A} e.

Definition is_ok {A} (r : Res A) : bool :=
  match r with Ok _ => true | Err _ => false end.

(** ** Byte strings and their order *)

(** The bytes of a Go string. *)
Definition bytes (s : string) : list N := N_of_ascii <$> list_ascii_of_string s.

(** The lexicographic order on lists: a proper prefix comes first, and the
    first place where two lists differ decides. *)
Fixpoint lex {A} (R : relation A) (l1 l2 : list A) : Prop :=
  match l1, l2 with
  | [], _ => True
  | _ :: _, [] => False
  | x :: l1', y :: l2' => (R x y ∧ x ≠ y) ∨ (x = y ∧ lex R l1' l2')
  end.

Global Instance lex_dec {A} `{EqDecision A} (R : relation A)
  `{∀ x y, Decision (R x y)} : ∀ l1 l2, Decision (lex R l1 l2).
Proof.
  induction l1 as [|x l1 IH]; intros [|y l2]; simpl; apply _.
Defined.

(** Go compares strings byte by byte; [sort.Strings] sorts file names
    that way. *)
Definition name_le (a b : string) : Prop := lex N.le (bytes a) (bytes b).

Global Instance name_le_dec a b : Decision (name_le a b).
Proof. unfold name_le. apply _. Defined.

(** ** Paths *)

(** An absolute, cleaned path, kept as the list of its components:
    [/tmp/app/x] is ["tmp"; "app"; "x"], the root is []. *)
Abbreviation path := (list string).

(** [filepath.Join(p, names...)] for names that are plain file names
    (neither empty nor "." nor ".." and without a separator): on a cleaned
    path it appends the components. *)
Definition Join (p : path) (names : list string) : path := p ++ names.

(** [filepath.Clean] on a component list: "." and the empty component are
    dropped and ".." eats the component before it (nothing above the root). *)
Fixpoint clean_rev (done : list string) (todo : list string) : list string :=
  match todo with
  | [] => done
  | c :: todo' =>
      if decide (c = "" ∨ c = ".") then clean_rev done todo'
      else if decide (c = "..") then clean_rev (tail done) todo'
      else clean_rev (c :: done) todo'
  end.

Definition Clean (p : list string) : path := rev (clean_rev [] p).

(** [filepath.Join] when the joined part may hold ".." components. *)
Definition JoinClean (p : path) (rel : list string) : path := Clean (p ++ rel).

Fixpoint strip_common (base target : path) : path * path :=
  match base, target with
  | b :: base', t :: target' =>
      if decide (b = t) then strip_common base' target' else (base, target)
  | _, _ => (base, target)
  end.

(** One ".." for each component of [base] below the common prefix, then
    the rest of [target]. *)
Definition relative_to (base target : path) : list string :=
  let '(b, t) := strip_common base target in
  replicate (length b) ".." ++ t.

(** [filepath.Base] *)
Definition Base (p : path) : string := List.last p "/".

(** [filepath.Dir] *)
Definition Parent (p : path) : path := removelast p.

(** [fmt.Sprintf("%s" + suffix, p)]: the suffix lands on the last component. *)
Definition path_suffix (p : path) (suffix : string) : path :=
  match p with
  | [] => [suffix]
  | _ => removelast p ++ [List.last p "" +:+ suffix]
  end.

(** The path as the string Go sees. *)
Definition path_string (p : path) : string := "/" +:+ String.concat "/" p.

(** A relative path as a string: [filepath.Rel]'s result. *)
Definition rel_string (p : list string) : string :=
  match p with [] => "." | _ => String.concat "/" p end.

(** A path as a Go string that need not be absolute.  The directories of
    the stager, and every path made from them, are absolute; what
    [Versions.Gemfile()] returns and what a variable holds are strings,
    which the system reads from the working directory of the process when
    they do not begin with a separator.  [Relative first rest] is the
    string "first/rest...", as it is given. *)
Inductive location :=
| Absolute (p : path)
| Relative (first : string) (rest : list string).

(** Where the system finds a location. *)
Definition resolve (cwd : path) (l : location) : path :=
  match l with
  | Absolute p => p
  | Relative first rest => Clean (cwd ++ first :: rest)
  end.

(** The location as the string Go sees. *)
Definition location_string (l : location) : string :=
  match l with
  | Absolute p => path_string p
  | Relative first rest => String.concat "/" (first :: rest)
  end.

(** [fmt.Sprintf("%s" + suffix, l)] *)
Definition location_suffix (l : location) (suffix : string) : location :=
  match l with
  | Absolute p => Absolute (path_suffix p suffix)
  | Relative first rest =>
      match rest with
      | [] => Relative (first +:+ suffix) []
      | _ => Relative first (removelast rest ++ [List.last rest "" +:+ suffix])
      end
  end.

(** [filepath.Rel(base, target)] for an absolute base: an absolute target
    is reached by [relative_to]; a relative target cannot be made
    relative to an absolute base, and that is an error. *)
Definition Rel (base : path) (target : location) : Res (list string) :=
  match target with
  | Absolute t => Ok (relative_to base t)
  | Relative _ _ =>
      Err (EMsg ("Rel: can't make " +:+ location_string target +:+ " relative to "
                 +:+ path_string base))
  end.

(** ** The file system *)

Inductive node :=
| File (data : string)
| Dir.

Global Instance node_eq_dec : EqDecision node.
Proof. solve_decision. Defined.

(** Every existing path maps to its node.  There are no permissions, no
    quotas and no devices: an operation fails only for the reasons the map
    itself shows (a missing path, a file where a directory is needed). *)
Abbreviation FS := (gmap path node).

Definition Exists (p : path) (fs : FS) : bool := bool_decide (is_Some (fs !! p)).

Definition is_dir (p : path) (fs : FS) : bool :=
  match fs !! p with Some Dir => true | _ => false end.

(** A regular file stands on the way to [p], where a directory is needed.
    The system answers "not a directory" then, which is not "does not
    exist". *)
Definition blocked (p : path) (fs : FS) : bool :=
  existsb (λ k, match fs !! take k p with Some (File _) => true | _ => false end)
          (seq 0 (length p)).

(** [q] is [p] or lies below it. *)
Definition under (p q : path) : Prop := p `prefix_of` q.

Global Instance under_dec p q : Decision (under p q).
Proof. unfold under. apply _. Defined.

(** [os.RemoveAll(p)]: [p] and all it contains go; a missing [p] is no
    error. *)
Definition RemoveAll (p : path) (fs : FS) : FS :=
  filter (λ kv, ¬ under p kv.1) fs.

(** The names directly inside [dir], as [ioutil.ReadDir] sorts them. *)
Definition child_name (dir : path) (q : path) : option string :=
  match drop (length dir) q with
  | [name] => if decide (take (length dir) q = dir) then Some name else None
  | _ => None
  end.

Definition children (dir : path) (fs : FS) : list string :=
  merge_sort name_le (omap (λ kv, child_name dir kv.1) (map_to_list fs)).

(** [ioutil.ReadDir(dir)] *)
Definition ReadDir (dir : path) (fs : FS) : Res (list string) :=
  if blocked dir fs then Err (EMsg ("open " +:+ path_string dir +:+ ": not a directory"))
  else match fs !! dir with
       | Some Dir => Ok (children dir fs)
       | Some (File _) => Err (EMsg ("open " +:+ path_string dir +:+ ": not a directory"))
       | None => Err (ENOENT ("open " +:+ path_string dir))
       end.

(** [os.Remove(p)]: a file, or an empty directory. *)
Definition Remove (p : path) (fs : FS) : Res FS :=
  match fs !! p with
  | None => Err (ENOENT ("remove " +:+ path_string p))
  | Some (File _) => Ok (delete p fs)
  | Some Dir =>
      match children p fs with
      | [] => Ok (delete p fs)
      | _ => Err (EMsg ("remove " +:+ path_string p +:+ ": directory not empty"))
      end
  end.

(** [os.MkdirAll(p)]: [p] and every missing ancestor become directories; a
    file on the way is an error. *)
Fixpoint mkdirs (done : path) (todo : list string) (fs : FS) : Res FS :=
  match todo with
  | [] => Ok fs
  | c :: todo' =>
      let d := done ++ [c] in
      match fs !! d with
      | Some (File _) => Err (EMsg ("mkdir " +:+ path_string d +:+ ": not a directory"))
      | Some Dir => mkdirs d todo' fs
      | None => mkdirs d todo' (<[d := Dir]> fs)
      end
  end.

Definition MkdirAll (p : path) (fs : FS) : Res FS := mkdirs [] p fs.

(** Writing a regular file once its directory exists
    ([os.OpenFile] with [O_CREATE|O_TRUNC]). *)
Definition create (p : path) (data : string) (fs : FS) : Res FS :=
  match fs !! p with
  | Some Dir => Err (EMsg ("open " +:+ path_string p +:+ ": is a directory"))
  | _ => Ok (<[p := File data]> fs)
  end.

(** [libbuildpack.CopyFile(src, dst)]: reads the source file, makes the
    directory of the destination and writes the destination. *)
Definition CopyFile (src dst : path) (fs : FS) : Res FS :=
  match fs !! src with
  | Some (File data) =>
      match MkdirAll (Parent dst) fs with
      | Ok fs1 => create dst data fs1
      | Err e => Err e
      end
  | Some Dir => Err (EMsg ("read " +:+ path_string src +:+ ": is a directory"))
  | None => Err (ENOENT ("open " +:+ path_string src))
  end.

(** The entries strictly below [src], re-rooted at [dst]. *)
Definition subtree (src : path) (fs : FS) : list (path * node) :=
  omap (λ kv, if decide (under src kv.1 ∧ kv.1 ≠ src)
              then Some (drop (length src) kv.1, kv.2) else None)
       (map_to_list fs).

Definition graft (dst : path) (entries : list (path * node)) (fs : FS) : FS :=
  foldr (λ kv acc, <[dst ++ kv.1 := kv.2]> acc) fs entries.

(** [libbuildpack.CopyDirectory(src, dst)]: the destination must exist;
    everything inside [src] is copied into it, over what is there. *)
Definition CopyDirectory (src dst : path) (fs : FS) : Res FS :=
  if negb (Exists dst fs) then Err (EMsg "destination dir must exist")
  else match fs !! src with
       | Some Dir => Ok (graft dst (subtree src fs) fs)
       | Some (File _) => Err (EMsg ("open " +:+ path_string src +:+ ": not a directory"))
       | None => Err (ENOENT ("open " +:+ path_string src))
       end.

(** [os.Rename(old, new)]: the node and all below it move. *)
Definition Rename (old new : path) (fs : FS) : Res FS :=
  match fs !! old with
  | None => Err (ENOENT ("rename " +:+ path_string old))
  | Some n =>
      if is_dir (Parent new) fs || bool_decide (Parent new = [])
      then Ok (graft new (([], n) :: subtree old fs) (RemoveAll old fs))
      else Err (ENOENT ("rename " +:+ path_string new))
  end.

(** [ioutil.ReadFile(p)] *)
Definition ReadFile (p : path) (fs : FS) : Res string :=
  match fs !! p with
  | Some (File data) => Ok data
  | Some Dir => Err (EMsg ("read " +:+ path_string p +:+ ": is a directory"))
  | None => Err (ENOENT ("open " +:+ path_string p))
  end.

(** ** The world the supplier runs in *)

Module libbuildpack.
Record Dependency := { Name : string; Version : string }.
End libbuildpack.
Import libbuildpack (Dependency).

Global Instance Dependency_eq_dec : EqDecision Dependency.
Proof. solve_decision. Defined.

(** [exec.Cmd]: program, arguments, working directory and environment (an
    empty [Env] stands for Go's nil, the environment of the process). *)
Record Cmd := {
  Path : string;
  Args : list string;
  cmdDir : path;
  Env : list string
}.

(** The levels of [libbuildpack.Logger]. *)
Inductive Level := BeginStep | Info | Debug | Warning | ErrorLevel.

Global Instance Level_eq_dec : EqDecision Level.
Proof. solve_decision. Defined.

(** Every call that leaves the supplier through one of its interfaces is
    written down, so that "this was never attempted" can be said. *)
Inductive Event :=
| EvFindMatchingVersion (constraint : string)
| EvInstallDependency (dep : Dependency) (dir : path)
| EvLinkDirectoryInDepDir (dir : path) (sub : string)
| EvSetBundlerVersion (version : string)
| EvCheckBundler2Compatibility
| EvEngine
| EvVersion
| EvJrubyVersion
| EvRubyEngineVersion
| EvHasGemVersion (gem : string) (constraints : list string)
| EvHasWindowsGemfileLock
| EvDefaultVersion (name : string)
| EvOutput (dir : path) (program : string) (args : list string)
| EvRun (cmd : Cmd)
| EvCopyDirToTemp (dir : path)
| EvWriteEnvFile (name value : string)
| EvStep (name : string).

Record World := {
  fs : FS;                          (* the file system *)
  environ : gmap string string;     (* the process environment *)
  cwd : path;                       (* the working directory of the process *)
  envFiles : gmap string string;    (* the stager's per-variable env files *)
  bundlerVersion : string;          (* the version [Versions] holds *)
  log : list (Level * string);      (* what the logger received, oldest first *)
  trace : list Event;               (* the interface calls, oldest first *)
  (* the private fields of [Supplier] *)
  cachedNeedsNode : bool;
  needsNode : bool;
  appHasGemfile : bool;
  appHasGemfileLock : bool
}.

Definition set_fs (x : FS) (w : World) : World :=
  {| fs := x; environ := environ w; cwd := cwd w; envFiles := envFiles w;
     bundlerVersion := bundlerVersion w; log := log w; trace := trace w;
     cachedNeedsNode := cachedNeedsNode w; needsNode := needsNode w;
     appHasGemfile := appHasGemfile w; appHasGemfileLock := appHasGemfileLock w |}.

Definition set_environ (x : gmap string string) (w : World) : World :=
  {| fs := fs w; environ := x; cwd := cwd w; envFiles := envFiles w;
     bundlerVersion := bundlerVersion w; log := log w; trace := trace w;
     cachedNeedsNode := cachedNeedsNode w; needsNode := needsNode w;
     appHasGemfile := appHasGemfile w; appHasGemfileLock := appHasGemfileLock w |}.

Definition set_envFiles (x : gmap string string) (w : World) : World :=
  {| fs := fs w; environ := environ w; cwd := cwd w; envFiles := x;
     bundlerVersion := bundlerVersion w; log := log w; trace := trace w;
     cachedNeedsNode := cachedNeedsNode w; needsNode := needsNode w;
     appHasGemfile := appHasGemfile w; appHasGemfileLock := appHasGemfileLock w |}.

Definition set_bundlerVersion (x : string) (w : World) : World :=
  {| fs := fs w; environ := environ w; cwd := cwd w; envFiles := envFiles w;
     bundlerVersion := x; log := log w; trace := trace w;
     cachedNeedsNode := cachedNeedsNode w; needsNode := needsNode w;
     appHasGemfile := appHasGemfile w; appHasGemfileLock := appHasGemfileLock w |}.

Definition set_log (x : list (Level * string)) (w : World) : World :=
  {| fs := fs w; environ := environ w; cwd := cwd w; envFiles := envFiles w;
     bundlerVersion := bundlerVersion w; log := x; trace := trace w;
     cachedNeedsNode := cachedNeedsNode w; needsNode := needsNode w;
     appHasGemfile := appHasGemfile w; appHasGemfileLock := appHasGemfileLock w |}.

Definition set_trace (x : list Event) (w : World) : World :=
  {| fs := fs w; environ := environ w; cwd := cwd w; envFiles := envFiles w;
     bundlerVersion := bundlerVersion w; log := log w; trace := x;
     cachedNeedsNode := cachedNeedsNode w; needsNode := needsNode w;
     appHasGemfile := appHasGemfile w; appHasGemfileLock := appHasGemfileLock w |}.

Definition set_cachedNeedsNode (x : bool) (w : World) : World :=
  {| fs := fs w; environ := environ w; cwd := cwd w; envFiles := envFiles w;
     bundlerVersion := bundlerVersion w; log := log w; trace := trace w;
     cachedNeedsNode := x; needsNode := needsNode w;
     appHasGemfile := appHasGemfile w; appHasGemfileLock := appHasGemfileLock w |}.

Definition set_needsNode (x : bool) (w : World) : World :=
  {| fs := fs w; environ := environ w; cwd := cwd w; envFiles := envFiles w;
     bundlerVersion := bundlerVersion w; log := log w; trace := trace w;
     cachedNeedsNode := cachedNeedsNode w; needsNode := x;
     appHasGemfile := appHasGemfile w; appHasGemfileLock := appHasGemfileLock w |}.

Definition set_appHasGemfile (x : bool) (w : World) : World :=
  {| fs := fs w; environ := environ w; cwd := cwd w; envFiles := envFiles w;
     bundlerVersion := bundlerVersion w; log := log w; trace := trace w;
     cachedNeedsNode := cachedNeedsNode w; needsNode := needsNode w;
     appHasGemfile := x; appHasGemfileLock := appHasGemfileLock w |}.

Definition set_appHasGemfileLock (x : bool) (w : World) : World :=
  {| fs := fs w; environ := environ w; cwd := cwd w; envFiles := envFiles w;
     bundlerVersion := bundlerVersion w; log := log w; trace := trace w;
     cachedNeedsNode := cachedNeedsNode w; needsNode := needsNode w;
     appHasGemfile := appHasGemfile w; appHasGemfileLock := x |}.

(** ** The monad of supplier methods *)

(** A method takes the world, and hands back its Go result together with
    the world it leaves behind: effects made before an error stay. *)
Definition M (A : Type) : Type := World → Res A * World.

Definition ret {A} (a : A) : M A := λ w, (Ok a, w).

(** [return err] *)
Definition fail {A} (e : error) : M A := λ w, (Err e, w).

(** Sequencing with Go's [if err != nil { return err }] in between. *)
Definition bind {A B} (m : M A) (k : A → M B) : M B :=
  λ w, match m w with
       | (Ok a, w') => k a w'
       | (Err e, w') => (Err e, w')
       end.

Declare Scope go_scope.
Delimit Scope go_scope with go.
Notation "'let*' x ':=' m 'in' k" := (bind m (λ x, k))
  (at level 10, x name, m at level 100, k at level 200) : go_scope.
Notation "m '>>' k" := (bind m (λ _, k))
  (at level 100, k at level 200, right associativity) : go_scope.
Open Scope go_scope.

(** The call with its error in hand instead of returned: [x, err := f()]. *)
Definition try {A} (m : M A) : M (Res A) :=
  λ w, let '(r, w') := m w in (Ok r, w').

(** A call whose result is dropped: [f()] as a statement, or [_ = f()]. *)
Definition ignore {A} (m : M A) : M unit :=
  λ w, let '(_, w') := m w in (Ok tt, w').

(** [if err != nil { return fmt.Errorf(prefix + "%v", err) }] *)
Definition wrap {A} (prefix : string) (m : M A) : M A :=
  λ w, match m w with
       | (Ok a, w') => (Ok a, w')
       | (Err e, w') => (Err (Errorf prefix e), w')
       end.

(** [defer cleanup()]: the clean-up runs when the body is left, whichever
    way, and the body's result is the result. *)
Definition defer {A} (cleanup : M unit) (body : M A) : M A :=
  λ w, let '(r, w') := body w in
       let '(_, w'') := cleanup w' in (r, w'').

Definition gets {A} (f : World → A) : M A := λ w, (Ok (f w), w).

Definition modify (f : World → World) : M unit := λ w, (Ok tt, f w).

Definition when (b : bool) (m : M unit) : M unit := if b then m else ret tt.

(** [for _, x := range l { ... }], leaving at the first error. *)
Fixpoint forEach {A} (l : list A) (body : A → M unit) : M unit :=
  match l with
  | [] => ret tt
  | x :: l' => body x >> forEach l' body
  end.

Definition record (ev : Event) : M unit := modify (λ w, set_trace (trace w ++ [ev]) w).

(** A file-system operation that can fail and changes nothing if it does. *)
Definition onFS (f : FS → Res FS) : M unit :=
  λ w, match f (fs w) with
       | Ok fs' => (Ok tt, set_fs fs' w)
       | Err e => (Err e, w)
       end.

(** ** The logger *)

(** The logger keeps what it is told: the level, and the text, which is
    the format with its operands put in.  Where the code hands over a
    text from outside as the format itself ([Error(string(output))],
    [Debug(filesChanged)]) the text is kept as it is, which is what [fmt]
    makes of a format without '%'. *)
Definition Log (l : Level) (msg : string) : M unit :=
  modify (λ w, set_log (log w ++ [(l, msg)]) w).

(** ** The operating system, as the supplier calls it *)

Definition os_RemoveAll (p : path) : M unit := onFS (λ x, Ok (RemoveAll p x)).
Definition os_Remove (p : path) : M unit := onFS (Remove p).
Definition os_MkdirAll (p : path) : M unit := onFS (MkdirAll p).
Definition os_Rename (old new : path) : M unit := onFS (Rename old new).
Definition ioutil_ReadDir (p : path) : M (list string) := λ w, (ReadDir p (fs w), w).
Definition ioutil_ReadFile (p : path) : M string := λ w, (ReadFile p (fs w), w).

(** [libbuildpack.FileExists]: when [os.Stat] fails with "does not exist"
    the answer is [false]; another failure is returned. *)
Definition FileExists (l : location) : M bool :=
  λ w, let p := resolve (cwd w) l in
       if blocked p (fs w)
       then (Err (EMsg ("stat " +:+ location_string l +:+ ": not a directory")), w)
       else (Ok (Exists p (fs w)), w).
Definition libbuildpack_CopyFile (src dst : path) : M unit := onFS (CopyFile src dst).
Definition libbuildpack_CopyDirectory (src dst : path) : M unit := onFS (CopyDirectory src dst).

(** [os.Getenv]: the empty string for a variable that is not set. *)
Definition Getenv (name : string) (w : World) : string := default "" (environ w !! name).
Definition os_Getenv (name : string) : M string := gets (Getenv name).

(** [os.Setenv] *)
Definition os_Setenv (name value : string) : M unit :=
  modify (λ w, set_environ (<[name := value]> (environ w)) w).

(** [os.Environ]: the "name=value" strings. *)
Definition os_Environ : M (list string) :=
  gets (λ w, (λ kv, kv.1 +:+ "=" +:+ kv.2) <$> map_to_list (environ w)).

(** ** The interfaces of [supply.go] *)

(** [Manifest]: the catalogue of the buildpack, fixed for the whole run. *)
Class Manifest := {
  AllDependencyVersions : string → list string;
  DefaultVersion : string → Res Dependency
}.

(** [libbuildpack.FindMatchingVersion], the version resolver the buildpack
    library brings. *)
Class Resolver := {
  FindMatchingVersion : string → list string → Res string
}.

(** [Installer]: unpacks a dependency into a directory. *)
Class Installer := {
  InstallDependency : Dependency → path → FS → Res unit * FS;
  InstallOnlyVersion : string → path → FS → Res unit * FS
}.

(** [Versions]: what the Gemfile and the installed ruby say.  The bundler
    version it is told ([SetBundlerVersion]) lives in the world. *)
Class Versions := {
  Gemfile : location;
  CheckBundler2Compatibility : FS → Res bool;
  Engine : FS → Res string;
  Version : FS → Res string;
  JrubyVersion : FS → Res string;
  RubyEngineVersion : FS → Res string;
  HasGemVersion : FS → string → list string → Res bool;
  HasWindowsGemfileLock : FS → Res bool
}.

(** [Stager]: the directories of the staging run and the files it keeps
    for later stages. *)
Class Stager := {
  BuildDir : path;
  DepDir : path;
  DepsIdx : string;
  LinkDirectoryInDepDir : path → string → FS → Res unit * FS;
  (* the error [WriteEnvFile] comes back with, if any *)
  WriteEnvFile_err : string → string → option error
}.

(** [Command]: running programs. *)
Class Command := {
  Output : path → string → list string → FS → Res string;
  Run' : Cmd → FS → Res unit * FS
}.

(** [TempDir]: the scratch copy of a directory; an implementation may log. *)
Class TempDir := {
  CopyDirToTemp : path → M path
}.

Section Calls.
Context {MF : Manifest} {RS : Resolver} {IN : Installer} {VS : Versions}
        {ST : Stager} {CM : Command} {TD : TempDir}.

Definition query {A} (ev : Event) (f : FS → Res A) : M A :=
  record ev >> λ w, (f (fs w), w).

Definition act {A} (ev : Event) (f : FS → Res A * FS) : M A :=
  record ev >> λ w, let '(r, fs') := f (fs w) in (r, set_fs fs' w).

Definition Manifest_DefaultVersion (name : string) : M Dependency :=
  query (EvDefaultVersion name) (λ _, DefaultVersion name).

Definition libbuildpack_FindMatchingVersion (constraint : string) (versions : list string)
  : M string :=
  query (EvFindMatchingVersion constraint) (λ _, FindMatchingVersion constraint versions).

Definition Installer_InstallDependency (dep : Dependency) (dir : path) : M unit :=
  act (EvInstallDependency dep dir) (InstallDependency dep dir).

Definition Stager_LinkDirectoryInDepDir (dir : path) (sub : string) : M unit :=
  act (EvLinkDirectoryInDepDir dir sub) (LinkDirectoryInDepDir dir sub).

(** Modelled from the spec: [Stager.WriteEnvFile] persists the value to
    the environment file of that variable, one file per variable (§4.4,
    §6); a write that fails leaves the file as it was. *)
Definition Stager_WriteEnvFile (name value : string) : M unit :=
  record (EvWriteEnvFile name value) >>
  match WriteEnvFile_err name value with
  | Some e => fail e
  | None => modify (λ w, set_envFiles (<[name := value]> (envFiles w)) w)
  end.

(** Modelled from the spec: [Versions.SetBundlerVersion] and
    [GetBundlerVersion] write and read the one active package-manager
    version (§3, Package-Manager Installation State). *)
Definition Versions_SetBundlerVersion (version : string) : M unit :=
  record (EvSetBundlerVersion version) >>
  modify (set_bundlerVersion version).

Definition Versions_GetBundlerVersion : M string := gets bundlerVersion.

Definition Versions_CheckBundler2Compatibility : M bool :=
  query EvCheckBundler2Compatibility CheckBundler2Compatibility.
Definition Versions_Engine : M string := query EvEngine Engine.
Definition Versions_Version : M string := query EvVersion Version.
Definition Versions_JrubyVersion : M string := query EvJrubyVersion JrubyVersion.
Definition Versions_RubyEngineVersion : M string :=
  query EvRubyEngineVersion RubyEngineVersion.
Definition Versions_HasGemVersion (gem : string) (constraints : list string) : M bool :=
  query (EvHasGemVersion gem constraints) (λ x, HasGemVersion x gem constraints).
Definition Versions_HasWindowsGemfileLock : M bool :=
  query EvHasWindowsGemfileLock HasWindowsGemfileLock.

Definition Command_Output (dir : path) (program : string) (args : list string) : M string :=
  query (EvOutput dir program args) (Output dir program args).
Definition Command_Run (cmd : Cmd) : M unit := act (EvRun cmd) (Run' cmd).

Definition TempDir_CopyDirToTemp (dir : path) : M path :=
  record (EvCopyDirToTemp dir) >> CopyDirToTemp dir.
End Calls.

(** ** The methods of [Supplier] *)

Definition nl : string := String "010" EmptyString.
Definition dq : string := String "034" EmptyString.
Definition crlf : string := String "013" (String "010" EmptyString).

(** [bytes.Contains] *)
Definition Contains (s sub : string) : bool := bool_decide (is_Some (index 0 sub s)).

(** [strings.Join] *)
Definition strings_Join (l : list string) (sep : string) : string := String.concat sep l.

Section Supplier.
Context {MF : Manifest} {RS : Resolver} {IN : Installer} {VS : Versions}
        {ST : Stager} {CM : Command} {TD : TempDir}.

Definition Setup : M unit :=
  let* found := wrap "unable to determine if Gemfile exists: " (FileExists Gemfile) in
  modify (set_appHasGemfile found) >>
  let* found := wrap "Unable to determine if Gemfile.lock exists: "
                      (FileExists (location_suffix Gemfile ".lock")) in
  modify (set_appHasGemfileLock found).

Definition DetermineRuby : M (string * string) :=
  let* hasGemfile := gets appHasGemfile in
  if negb hasGemfile then
    let* dep := wrap "unable to determine default ruby version: "
                     (Manifest_DefaultVersion "ruby") in
    ret ("ruby", libbuildpack.Version dep)
  else
    let* engine := wrap "unable to determine ruby engine: " Versions_Engine in
    if decide (engine = "ruby") then
      let* rubyVersion := wrap "Unable to determine ruby version: " Versions_Version in
      if decide (rubyVersion = "") then
        let* dep := wrap "Unable to determine ruby version: "
                         (Manifest_DefaultVersion "ruby") in
        let rubyVersion := libbuildpack.Version dep in
        Log Warning ("You have not declared a Ruby version in your Gemfile." +:+ nl +:+
                     "Defaulting to " +:+ rubyVersion +:+ nl +:+
                     "See http://docs.cloudfoundry.org/buildpacks/ruby/index.html#runtime for more information.") >>
        ret (engine, rubyVersion)
      else ret (engine, rubyVersion)
    else if decide (engine = "jruby") then
      let* rubyVersion := wrap "Unable to determine jruby version: " Versions_JrubyVersion in
      ret (engine, rubyVersion)
    else
      fail (EMsg ("Sorry, we do not support engine: " +:+ engine)).

Definition installBundlerOne : M string :=
  let* version := wrap "failure to install Bundler matching constraint, 1.X.X: "
                    (libbuildpack_FindMatchingVersion "1.X.X" (AllDependencyVersions "bundler")) in
  Installer_InstallDependency {| libbuildpack.Name := "bundler"; libbuildpack.Version := version |}
                              (Join DepDir ["bundler"]) >>
  Stager_LinkDirectoryInDepDir (Join DepDir ["bundler"; "bin"]) "bin" >>
  ret version.

Definition installBundlerTwo : M string :=
  let* version := wrap "failure to install Bundler matching constraint, 2.X.X: "
                    (libbuildpack_FindMatchingVersion "2.X.X" (AllDependencyVersions "bundler")) in
  let installDir := Join DepDir ["bundler2"] in
  Installer_InstallDependency {| libbuildpack.Name := "bundler"; libbuildpack.Version := version |}
                              installDir >>
  defer (ignore (os_RemoveAll installDir)) (
    let gemName := "bundler-" +:+ version in
    let destDir := Join DepDir ["bundler"; "gems"; gemName] in
    os_MkdirAll destDir >>
    libbuildpack_CopyDirectory (Join installDir ["gems"; gemName]) destDir >>
    libbuildpack_CopyFile (Join installDir ["specifications"; gemName +:+ ".gemspec"])
                          (Join DepDir ["bundler"; "specifications"; gemName +:+ ".gemspec"]) >>
    ret version).

Definition uninstallBundlerTwo : M unit :=
  let* version := wrap "failure to install Bundler matching constraint, 2.X.X: "
                    (libbuildpack_FindMatchingVersion "2.X.X" (AllDependencyVersions "bundler")) in
  let gemName := "bundler-" +:+ version in
  os_RemoveAll (Join DepDir ["bundler"; "gems"; gemName]) >>
  os_RemoveAll (Join DepDir ["bundler"; "specifications"; gemName +:+ ".gemspec"]) >>
  ret tt.

Definition InstallBundler : M unit :=
  let* bundlerOneVersion := installBundlerOne in
  Versions_SetBundlerVersion bundlerOneVersion >>
  let* hasGemfile := gets appHasGemfile in
  if negb hasGemfile then ret tt
  else
    let* bundlerTwoVersion := installBundlerTwo in
    Versions_SetBundlerVersion bundlerTwoVersion >>
    let* ok := Versions_CheckBundler2Compatibility in
    if ok then ret tt
    else
      Log Warning "Ruby version not compatible with Bundler 2" >>
      Versions_SetBundlerVersion bundlerOneVersion >>
      uninstallBundlerTwo.

Definition isNodeInstalled : M bool :=
  let* r := try (Command_Output BuildDir "node" ["--version"]) in
  ret (is_ok r).

(** The loop of [NeedsNode] over the gem names, with its [break]. *)
Fixpoint probeGems (names : list string) : M unit :=
  match names with
  | [] => ret tt
  | name :: rest =>
      Log Debug ("Test " +:+ name +:+ " in gemfile") >>
      let* r := try (Versions_HasGemVersion name [">=0.0.0"]) in
      match r with
      | Ok true =>
          Log Debug ("Found " +:+ name +:+ " in gemfile") >>
          modify (set_needsNode true)
      | _ => probeGems rest
      end
  end.

Definition NeedsNode : M bool :=
  let* cached := gets cachedNeedsNode in
  if cached then gets needsNode
  else
    modify (set_cachedNeedsNode true) >>
    modify (set_needsNode false) >>
    let* installed := isNodeInstalled in
    (if installed
     then Log BeginStep "Skipping install of nodejs since it has been supplied"
     else probeGems ["webpacker"; "execjs"]) >>
    gets needsNode.

Definition warnWindowsGemfile : M unit :=
  let* gemfile := gets (λ w, resolve (cwd w) Gemfile) in
  let* r := try (ioutil_ReadFile gemfile) in
  match r with
  | Ok body =>
      when (Contains body crlf)
        (Log Warning "Windows line endings detected in Gemfile. Your app may fail to stage. Please use UNIX line endings.")
  | Err _ => ret tt
  end.

Definition warnBundleConfig : M unit :=
  let* r := try (FileExists (Absolute (Join BuildDir [".bundle"; "config"]))) in
  match r with
  | Ok true =>
      Log Warning ("You have the `.bundle/config` file checked into your repository" +:+ nl +:+
                   "It contains local state like the location of the installed bundle" +:+ nl +:+
                   "as well as configured git local gems, and other settings that should" +:+ nl +:+
                   "not be shared between multiple checkouts of a single repo. Please" +:+ nl +:+
                   "remove the `.bundle/` folder from your repo and add it to your `.gitignore` file.")
  | _ => ret tt
  end.

Definition regenerateBundlerBinStub (appDir : path) : M unit :=
  Log BeginStep "Regenerating bundler binstubs..." >>
  Command_Run {| Path := "bundle";
                 Args := ["binstubs"; "bundler"; "--force"; "--path";
                          path_string (Join DepDir ["binstubs"])];
                 cmdDir := appDir; Env := [] |} >>
  libbuildpack_CopyFile (Join DepDir ["binstubs"; "bundle"]) (Join DepDir ["bin"; "bundle"]).

(** [strings.Split] on one character. *)
Fixpoint split_on (sep : ascii) (s : string) : list string :=
  match s with
  | EmptyString => [EmptyString]
  | String c s' =>
      if decide (c = sep) then EmptyString :: split_on sep s'
      else match split_on sep s' with
           | [] => [String c EmptyString]
           | x :: l => String c x :: l
           end
  end.

(** A location read from a string (here the value of a variable); the
    empty string names nothing. *)
Definition location_of_string (s : string) : option location :=
  match split_on "/" s with
  | first :: rest =>
      if decide (s = "") then None
      else if decide (first = "") then Some (Absolute (Clean rest))
      else Some (Relative first rest)
  | [] => None
  end.

Definition InstallGems : M unit :=
  let* hasGemfile := gets appHasGemfile in
  if negb hasGemfile then ret tt
  else
    warnBundleConfig >>
    warnWindowsGemfile >>
    let* r := try (TempDir_CopyDirToTemp BuildDir) in
    match r with
    | Err _ => ret tt                       (* if err != nil { return nil } *)
    | Ok tempDir =>
    match Rel BuildDir Gemfile with
    | Err _ => ret tt                       (* if err != nil { return nil } *)
    | Ok gemfileRel =>
    let gemfileLock := path_suffix (JoinClean tempDir gemfileRel) ".lock" in
    let* hasFile := Versions_HasWindowsGemfileLock in
    when hasFile (
      Log Debug ("Remove " +:+ path_string gemfileLock) >>
      Log Warning ("Removing `Gemfile.lock` because it was generated on Windows." +:+ nl +:+
                   "Bundler will do a full resolve so native gems are handled properly." +:+ nl +:+
                   "This may result in unexpected gem versions being used in your app." +:+ nl +:+
                   "If you are using multi buildpacks, subsequent buildpacks may fail." +:+ nl +:+
                   "In rare occasions Bundler may not be able to resolve your dependencies at all." +:+ nl +:+
                   "https://docs.cloudfoundry.org/buildpacks/ruby/windows.html") >>
      wrap "Remove Gemfile.lock: " (os_Remove gemfileLock)) >>
    (* Remove .bundle/config && copy if exists *)
    let* found := FileExists (Absolute (Join tempDir [".bundle"; "config"])) in
    when found (
      ignore (os_Remove (Join tempDir [".bundle"; "config"])) >>
      ignore (libbuildpack_CopyFile (Join BuildDir [".bundle"; "config"])
                                    (Join tempDir [".bundle"; "config"]))) >>
    let* without := os_Getenv "BUNDLE_WITHOUT" in
    let args := ["install"; "--without"; without; "--jobs=4"; "--retry=4";
                 "--path"; path_string (Join DepDir ["vendor_bundle"]);
                 "--binstubs"; path_string (Join DepDir ["binstubs"])] in
    let* found := FileExists (Absolute gemfileLock) in
    let args := if found then args ++ ["--deployment"] else args in
    let* bundlerVersion := Versions_GetBundlerVersion in
    Log BeginStep ("Installing dependencies using bundler " +:+ bundlerVersion) >>
    Log Info ("Running: bundle " +:+ strings_Join args " ") >>
    let* env := os_Environ in
    let env := env ++ ["NOKOGIRI_USE_SYSTEM_LIBRARIES=true"] in
    let freeTDSInstallDir := Join DepDir ["freetds"] in
    let env := env ++ ["FREETDS_DIR=" +:+ path_string freeTDSInstallDir] in
    Command_Run {| Path := "bundle"; Args := args; cmdDir := tempDir; Env := env |} >>
    regenerateBundlerBinStub tempDir >>
    Log Info "Cleaning up the bundler cache." >>
    Command_Run {| Path := "bundle"; Args := ["clean"]; cmdDir := tempDir; Env := env |} >>
    (* Copy binstubs to bin *)
    let* r := try (ioutil_ReadDir (Join DepDir ["binstubs"])) in
    match r with
    | Err e =>
        if negb (IsNotExist e)
        then fail (Errorf "Could not read dep/binstubs directory: " e)
        else ret tt
    | Ok files =>
        forEach files (λ name,
          let target := Join DepDir ["bin"; name] in
          let* found := wrap "Checking existence: " (FileExists (Absolute target)) in
          when (negb found) (
            let source := Join DepDir ["binstubs"; name] in
            wrap "CopyFile: " (libbuildpack_CopyFile source target)))
    end >>
    (* Save .bundle/config to global config *)
    let* r := try (FileExists (Absolute (Join tempDir [".bundle"; "config"]))) in
    match r with
    | Ok true =>
        let* bundleConfig := os_Getenv "BUNDLE_CONFIG" in
        Log Debug ("SaveBundleConfig; " +:+ path_string (Join tempDir [".bundle"; "config"])
                   +:+ " -> " +:+ bundleConfig) >>
        match location_of_string bundleConfig with
        | Some target =>
            let* new := gets (λ w, resolve (cwd w) target) in
            os_Rename (Join tempDir [".bundle"; "config"]) new
        | None =>                           (* the empty string: nothing to rename to *)
            fail (ENOENT ("rename " +:+ path_string (Join tempDir [".bundle"; "config"])
                          +:+ " "))
        end
    | _ => ret tt
    end >>
    (* Save Gemfile.lock for finalize *)
    let gemfileLockTarget := Join DepDir ["Gemfile.lock"] in
    let* r := try (FileExists (Absolute gemfileLock)) in
    match r with
    | Ok true =>
        Log Debug ("SaveGemfileLock; " +:+ path_string gemfileLock +:+ " -> "
                   +:+ path_string gemfileLockTarget) >>
        libbuildpack_CopyFile gemfileLock gemfileLockTarget
    | Ok false => ret tt
    | Err _ => ret tt       (* fmt.Printf: standard output is not part of the world *)
    end >>
    os_RemoveAll tempDir
    end end.

(** The Go map is given by its entries in the order in which [range]
    visits them; Go leaves that order open, and no name occurs twice. *)
Definition writeEnvFiles (environment : list (string * string)) (clobber : bool) : M unit :=
  forEach environment (λ entry,
    let envVar := entry.1 in
    let envDefault := entry.2 in
    let* current := os_Getenv envVar in
    when (bool_decide (current = "") || clobber) (
      ignore (os_Setenv envVar envDefault) >>
      Stager_WriteEnvFile envVar envDefault)).

Definition CreateDefaultEnv : M unit :=
  let environmentDefaults :=
    [ ("RAILS_ENV", "production");
      ("RACK_ENV", "production");
      ("RAILS_GROUPS", "assets");
      ("BUNDLE_WITHOUT", "development:test");
      ("BUNDLE_GEMFILE", "Gemfile");
      ("BUNDLE_BIN", path_string (Join DepDir ["binstubs"]));
      ("BUNDLE_CONFIG", path_string (Join DepDir ["bundle_config"]));
      ("GEM_HOME", path_string (Join DepDir ["gem_home"]));
      ("GEM_PATH", strings_Join [ path_string (Join DepDir ["bundler"]);
                                  path_string (Join DepDir ["gem_home"]) ] ":") ] in
  writeEnvFiles environmentDefaults false.

Definition AddPostRubyInstallDefaultEnv (engine : string) : M unit :=
  let* r := try Versions_RubyEngineVersion in
  match r with
  | Err e => Log ErrorLevel ("Unable to determine ruby engine: " +:+ Error e) >> fail e
  | Ok rubyEngineVersion =>
      let environmentDefaults :=
        [ ("BUNDLE_PATH", path_string (Join DepDir ["vendor_bundle"; engine; rubyEngineVersion]));
          ("GEM_PATH", strings_Join
                         [ path_string (Join DepDir ["bundler"]);
                           path_string (Join DepDir ["vendor_bundle"; engine; rubyEngineVersion]);
                           path_string (Join DepDir ["gem_home"]) ] ":") ] in
      (* %v prints the map with its keys in order *)
      Log Debug ("Setting post ruby install env: map[BUNDLE_PATH:"
                 +:+ path_string (Join DepDir ["vendor_bundle"; engine; rubyEngineVersion])
                 +:+ " GEM_PATH:"
                 +:+ strings_Join
                       [ path_string (Join DepDir ["bundler"]);
                         path_string (Join DepDir ["vendor_bundle"; engine; rubyEngineVersion]);
                         path_string (Join DepDir ["gem_home"]) ] ":"
                 +:+ "]") >>
      writeEnvFiles environmentDefaults true
  end.
End Supplier.

(** ** [LinuxTempDir] *)

(** [ioutil.TempDir("", prefix)]: a new directory in [/tmp] whose name is
    the prefix and a random suffix; [rnd] is the suffix drawn. *)
Definition ioutil_TempDir (prefix rnd : string) : M path :=
  λ w, let p := ["tmp"; prefix +:+ rnd] in
       if negb (is_dir ["tmp"] (fs w)) then (Err (ENOENT "stat /tmp"), w)
       else if Exists p (fs w) then (Err (EMsg ("mkdir " +:+ path_string p +:+ ": file exists")), w)
       else (Ok p, set_fs (<[p := Dir]> (fs w)) w).

(** [exec.Command("cp", "-al", src, dst).CombinedOutput()]: the tree at
    [src] appears in the directory [dst] under its own name.  The result
    is what the program printed, when it ended well, or how it ended. *)
Definition cp_al (src dst : path) : M string :=
  λ w, match fs w !! src with
       | None =>
           (Err (EMsg "exit status 1"), w)
       | Some n =>
           if is_dir dst (fs w)
           then (Ok "", set_fs (graft (dst ++ [Base src]) (([], n) :: subtree src (fs w)) (fs w)) w)
           else (Err (EMsg "exit status 1"), w)
       end.

(** [rnd] is the suffix [ioutil.TempDir] draws, and [output] what [cp]
    prints when it fails: the text is the program's own, and differs with
    its version and the locale.  It is handed to the logger as the
    format. *)
Definition LinuxTempDir_CopyDirToTemp (rnd output : string) (dir : path) : M path :=
  let* tempDir := ioutil_TempDir "app" rnd in
  let* r := try (cp_al dir tempDir) in
  match r with
  | Err e =>
      Log ErrorLevel output >>
      fail (Errorf "Could not copy build dir to temp: " e)
  | Ok _ =>
      let tempDir := Join tempDir [Base dir] in
      ret tempDir
  end.

Definition LinuxTempDir (rnd output : string) : TempDir :=
  {| CopyDirToTemp := LinuxTempDir_CopyDirToTemp rnd output |}.

(** ** A staging run to try the methods on

    The catalogue is the one of [manifest.yml]; the other collaborators are
    doubles in the manner of the mocks the Go tests use. *)
Module Staging.

(** [manifest.yml]: the versions on offer and the defaults. *)
Definition manifest_yml : Manifest :=
  {| AllDependencyVersions name :=
       if decide (name = "freetds") then ["1.1.6"]
       else if decide (name = "bundler") then ["1.17.3"; "2.0.1"]
       else if decide (name = "node") then ["10.16.0"]
       else if decide (name = "openjdk1.8-latest") then ["1.8.0"]
       else if decide (name = "ruby") then ["2.5.5"; "2.6.3"]
       else if decide (name = "rubygems") then ["3.0.3"]
       else if decide (name = "yarn") then ["1.16.0"]
       else [];
     DefaultVersion name :=
       if decide (name = "ruby")
       then Ok {| libbuildpack.Name := "ruby"; libbuildpack.Version := "2.6.3" |}
       else if decide (name = "freetds")
       then Ok {| libbuildpack.Name := "freetds"; libbuildpack.Version := "1.1.6" |}
       else Err (EMsg ("no default version for " +:+ name)) |}.

(** A resolver for the constraints the supplier uses: "N.X.X" takes the
    last version on offer whose first character is N, "x" the last one. *)
Definition first_char (s : string) : string :=
  match s with EmptyString => "" | String c _ => String c EmptyString end.

Definition resolver : Resolver :=
  {| FindMatchingVersion constraint versions :=
       let fits v := bool_decide (constraint = "x" ∨ first_char v = first_char constraint) in
       match reverse (List.filter fits versions) with
       | v :: _ => Ok v
       | [] => Err (EMsg ("no match found for " +:+ constraint))
       end |}.

(** What the archive of a dependency holds, or nothing if it cannot be
    fetched. *)
Definition archive (dep : Dependency) : option (list (path * node)) :=
  if decide (libbuildpack.Name dep = "bundler") then
    let gem := "bundler-" +:+ libbuildpack.Version dep in
    Some [ (["bin"], Dir);
           (["bin"; "bundle"], File "#!/usr/bin/env ruby");
           (["gems"], Dir);
           (["gems"; gem], Dir);
           (["gems"; gem; "lib"], Dir);
           (["gems"; gem; "lib"; "bundler.rb"], File "module Bundler; end");
           (["specifications"], Dir);
           (["specifications"; gem +:+ ".gemspec"], File "Gem::Specification.new") ]
  else None.

(** An installer that unpacks [archive] below the directory. *)
Definition unpack (contents : Dependency → option (list (path * node)))
  (dep : Dependency) (dir : path) (x : FS) : Res unit * FS :=
  match contents dep with
  | Some entries =>
      match MkdirAll dir x with
      | Ok x' => (Ok tt, graft dir entries x')
      | Err e => (Err e, x)
      end
  | None => (Err (EMsg ("could not install " +:+ libbuildpack.Name dep)), x)
  end.

Definition installer : Installer :=
  {| InstallDependency := unpack archive;
     InstallOnlyVersion name dir x := (Err (EMsg ("could not install " +:+ name)), x) |}.

(** A stager with the usual directories; linking leaves the tree alone
    and env files can always be written. *)
Definition stager : Stager :=
  {| BuildDir := ["home"; "vcap"; "app"];
     DepDir := ["home"; "vcap"; "deps"; "0"];
     DepsIdx := "0";
     LinkDirectoryInDepDir dir sub x := (Ok tt, x);
     WriteEnvFile_err name value := None |}.

(** A stager on which no env file can be written. *)
Definition read_only_stager : Stager :=
  {| BuildDir := ["home"; "vcap"; "app"];
     DepDir := ["home"; "vcap"; "deps"; "0"];
     DepsIdx := "0";
     LinkDirectoryInDepDir dir sub x := (Ok tt, x);
     WriteEnvFile_err name value := Some (EMsg "read-only file system") |}.

(** What the Gemfile says: an engine, a ruby version, and whether
    bundler 2 suits. *)
Definition versions (engine version : string) (bundler2 : Res bool) : Versions :=
  {| Gemfile := Absolute ["home"; "vcap"; "app"; "Gemfile"];
     CheckBundler2Compatibility x := bundler2;
     Engine x := Ok engine;
     Version x := Ok version;
     JrubyVersion x := Ok "9.2.0.0";
     RubyEngineVersion x := Ok "2.6.0";
     HasGemVersion x gem constraints := Ok false;
     HasWindowsGemfileLock x := Ok false |}.

(** A [Versions] whose every look into the Gemfile fails. *)
Definition broken_versions : Versions :=
  {| Gemfile := Absolute ["home"; "vcap"; "app"; "Gemfile"];
     CheckBundler2Compatibility x := Err (EMsg "exit status 1");
     Engine x := Err (EMsg "exit status 1");
     Version x := Err (EMsg "exit status 1");
     JrubyVersion x := Err (EMsg "exit status 1");
     RubyEngineVersion x := Err (EMsg "exit status 1");
     HasGemVersion x gem constraints := Err (EMsg "exit status 1");
     HasWindowsGemfileLock x := Err (EMsg "exit status 1") |}.

(** Programs: [node] is not there; [bundle] succeeds or fails as told
    and touches nothing. *)
Definition command (bundle : Res unit) : Command :=
  {| Output dir program args x := Err (EMsg "executable file not found in $PATH");
     Run' cmd x := (bundle, x) |}.

(** An application with a Gemfile, in an otherwise empty machine. *)
Definition app_fs : FS :=
  list_to_map [ (["tmp"], Dir);
                (["home"], Dir);
                (["home"; "vcap"], Dir);
                (["home"; "vcap"; "app"], Dir);
                (["home"; "vcap"; "app"; "Gemfile"], File "source 'https://rubygems.org'");
                (["home"; "vcap"; "deps"], Dir);
                (["home"; "vcap"; "deps"; "0"], Dir) ].

Definition world (x : FS) (hasGemfile : bool) : World :=
  {| fs := x; environ := ∅; cwd := ["home"; "vcap"; "app"]; envFiles := ∅;
     bundlerVersion := "";
     log := []; trace := [];
     cachedNeedsNode := false; needsNode := false;
     appHasGemfile := hasGemfile; appHasGemfileLock := false |}.

End Staging.

(** ** [crypto/md5]

    The digest of RFC 1321 on byte strings, with 32-bit words as [N] and
    their wrap-around written out. *)
Module md5.

Definition mask : N := 4294967295.

Definition add32 (x y : N) : N := N.land (x + y) mask.
Definition not32 (x : N) : N := N.lxor x mask.
Definition rotl (x c : N) : N :=
  N.land (N.lor (N.shiftl x c) (N.shiftr x (32 - c))) mask.

Definition K : list N :=
  [ 3614090360; 3905402710; 606105819; 3250441966;
    4118548399; 1200080426; 2821735955; 4249261313;
    1770035416; 2336552879; 4294925233; 2304563134;
    1804603682; 4254626195; 2792965006; 1236535329;
    4129170786; 3225465664; 643717713; 3921069994;
    3593408605; 38016083; 3634488961; 3889429448;
    568446438; 3275163606; 4107603335; 1163531501;
    2850285829; 4243563512; 1735328473; 2368359562;
    4294588738; 2272392833; 1839030562; 4259657740;
    2763975236; 1272893353; 4139469664; 3200236656;
    681279174; 3936430074; 3572445317; 76029189;
    3654602809; 3873151461; 530742520; 3299628645;
    4096336452; 1126891415; 2878612391; 4237533241;
    1700485571; 2399980690; 4293915773; 2240044497;
    1873313359; 4264355552; 2734768916; 1309151649;
    4149444226; 3174756917; 718787259; 3951481745 ]%N.

Definition shifts : list N :=
  [ 7; 12; 17; 22; 7; 12; 17; 22; 7; 12; 17; 22; 7; 12; 17; 22;
    5; 9; 14; 20; 5; 9; 14; 20; 5; 9; 14; 20; 5; 9; 14; 20;
    4; 11; 16; 23; 4; 11; 16; 23; 4; 11; 16; 23; 4; 11; 16; 23;
    6; 10; 15; 21; 6; 10; 15; 21; 6; 10; 15; 21; 6; 10; 15; 21 ]%N.

(** Little-endian bytes of a number, [k] of them. *)
Fixpoint le_bytes (k : nat) (n : N) : list N :=
  match k with
  | O => []
  | S k' => (n mod 256)%N :: le_bytes k' (n / 256)%N
  end.

Definition le_word (bytes : list N) : N := foldr (λ b acc, (b + 256 * acc)%N) 0%N bytes.

Fixpoint chunks (size fuel : nat) (l : list N) : list (list N) :=
  match fuel with
  | O => []
  | S fuel' =>
      match l with
      | [] => []
      | _ => take size l :: chunks size fuel' (drop size l)
      end
  end.

Definition pad (msg : list N) : list N :=
  let len := length msg in
  let zeros := ((64 + 55 - len mod 64) mod 64)%nat in
  msg ++ [128%N] ++ replicate zeros 0%N ++ le_bytes 8 (8 * N.of_nat len).

Definition state : Type := N * N * N * N.

Definition round (M : list N) (st : state) (i : nat) : state :=
  let '(a, b, c, d) := st in
  let '(f, g) :=
    if (i <? 16)%nat then (N.lor (N.land b c) (N.land (not32 b) d), i)
    else if (i <? 32)%nat then (N.lor (N.land d b) (N.land (not32 d) c), ((5 * i + 1) mod 16)%nat)
    else if (i <? 48)%nat then (N.lxor (N.lxor b c) d, ((3 * i + 5) mod 16)%nat)
    else (N.lxor c (N.lor b (not32 d)), ((7 * i) mod 16)%nat) in
  let f' := add32 (add32 (add32 f a) (nth i K 0%N)) (nth g M 0%N) in
  (d, add32 b (rotl f' (nth i shifts 0%N)), b, c).

Definition block (st : state) (bytes : list N) : state :=
  let M := le_word <$> chunks 4 16 bytes in
  let '(a0, b0, c0, d0) := st in
  let '(a, b, c, d) := foldl (round M) st (seq 0 64) in
  (add32 a0 a, add32 b0 b, add32 c0 c, add32 d0 d).

Definition init : state := (1732584193, 4023233417, 2562383102, 271733878)%N.

(** [md5.Sum]: the 16 bytes of the digest. *)
Definition Sum (msg : string) : list N :=
  let padded := pad (bytes msg) in
  let '(a, b, c, d) := foldl block init (chunks 64 (length padded) padded) in
  le_bytes 4 a ++ le_bytes 4 b ++ le_bytes 4 c ++ le_bytes 4 d.

Definition hex_digit (n : N) : string :=
  String (nth (N.to_nat n) (list_ascii_of_string "0123456789abcdef") "0"%char) EmptyString.

(** [fmt.Sprintf("%x", bytes)] *)
Definition hex (bytes : list N) : string :=
  String.concat "" ((λ b, hex_digit (b / 16) +:+ hex_digit (b mod 16)) <$> bytes).

End md5.

(** ** The fingerprint of the build directory *)

(** [filepath.Walk] meets the paths in lexical order: the names of each
    directory sorted, every directory before what it holds. *)
Definition path_le (p q : path) : Prop := lex name_le p q.

Global Instance path_le_dec p q : Decision (path_le p q).
Proof. unfold path_le. apply _. Defined.

(** The paths [filepath.Walk(root, ...)] visits, in its order. *)
Definition Walk (root : path) (x : FS) : list path :=
  merge_sort path_le (filter (under root) (map_to_list x).*1).

(** [strings.HasPrefix] *)
Definition HasPrefix (s pre : string) : bool := String.prefix pre s.

(** The panic of a method call on a nil interface value. *)
Definition nil_pointer_panic : error :=
  EMsg "panic: runtime error: invalid memory address or nil pointer dereference".

Section Checksum.
Context {ST : Stager}.

(** The function handed to [filepath.Walk]; [h] is what the hash has
    been fed so far. *)
Definition walkFn (basepath : path) (x : FS) (h : string) (p : path) : Res string :=
  match x !! p with
  | Some (File data) =>                     (* info.Mode().IsRegular() *)
      let r := Rel basepath (Absolute p) in
      let relpath := match r with Ok rel => rel_string rel | Err _ => "" end in
      if HasPrefix relpath ".cloudfoundry/" then Ok h
      else match r with
           | Err e => Err e
           | Ok _ => Ok (h +:+ relpath +:+ data)   (* io.WriteString; io.Copy *)
           end
  | _ => Ok h
  end.

Fixpoint walkAll (f : string → path → Res string) (h : string) (paths : list path)
  : Res string :=
  match paths with
  | [] => Ok h
  | p :: rest =>
      match f h p with
      | Ok h' => walkAll f h' rest
      | Err e => Err e
      end
  end.

(** Without the base directory [filepath.Walk] hands the function a nil
    [info], and [info.Mode()] panics; the panic is shown as an error. *)
Definition CalcChecksum : M string :=
  λ w, let basepath := BuildDir in
       if negb (Exists basepath (fs w))
       then (Err nil_pointer_panic, w)
       else match walkAll (walkFn basepath (fs w)) "" (Walk basepath (fs w)) with
            | Ok h => (Ok (md5.hex (md5.Sum h)), w)
            | Err e => (Err e, w)
            end.

(** What one file adds to the hash. *)
Definition contribution (x : FS) (p : path) : string :=
  match x !! p with
  | Some (File data) =>
      match Rel BuildDir (Absolute p) with
      | Ok rel => if HasPrefix (rel_string rel) ".cloudfoundry/" then ""
                  else rel_string rel +:+ data
      | Err _ => ""
      end
  | _ => ""
  end.

(** The bytes the walk feeds into the hash. *)
Definition hashed (x : FS) : string :=
  String.concat "" (contribution x <$> Walk BuildDir x).

(** The excluded subtree: what lies below [.cloudfoundry] in the build
    directory. *)
Definition hidden (p : path) : Prop :=
  ∃ name rest, p = BuildDir ++ ".cloudfoundry" :: name :: rest.

(** The test by which the walk function skips a file. *)
Definition skipped (p : path) : bool :=
  match Rel BuildDir (Absolute p) with
  | Ok rel => HasPrefix (rel_string rel) ".cloudfoundry/"
  | Err _ => false
  end.
End Checksum.

(** ** [IndentedWriter] *)

(** An [io.Writer] is known by what has been written to it. *)
Record IndentedWriter := {
  w : string;        (* the wrapped writer *)
  pad : string
}.

(** [strings.Split(s, "\n")] *)
Definition Split_lines (s : string) : list string := split_on "010" s.

(** The body of [Write] up to its last line: every line gets the pad. *)
Definition padded (iw : IndentedWriter) (p : string) : string :=
  let lines := Split_lines p in
  let lines := (λ line, pad iw +:+ line) <$> lines in
  strings_Join lines nl.

(** [Write] with a bound on the depth of calls.  Its last line is
    [return w.Write(p)] on the indented writer itself, so a call has a
    result only if the call inside has one; [None] is a call still open
    when the bound is reached.  The result would be the writer after the
    call and the pair [(n, err)]. *)
Fixpoint Write (depth : nat) (iw : IndentedWriter) (p : string)
  : option (IndentedWriter * (nat * option error)) :=
  match depth with
  | O => None
  | S depth' =>
      let p := padded iw p in
      Write depth' iw p
  end.

(** The argument of the call at a given depth. *)
Fixpoint argument (depth : nat) (iw : IndentedWriter) (p : string) : string :=
  match depth with
  | O => p
  | S depth' => argument depth' iw (padded iw p)
  end.

(** ** [Run] *)

(** [Cache], and the calls of [Run] whose bodies this development does
    not look into: what they do to the world is left open. *)
Class Cache := {
  Restore : M unit;
  Save : M unit
}.

Class Steps := {
  Stager_WriteProfileD : string → string → M unit;
  Stager_SetStagingEnvironment : M unit;
  Command_Execute : path → string → list string → M unit;
  EnableLDLibraryPathEnv : M unit;
  InstallJVM : M unit;
  InstallRuby : string → string → M unit;
  UpdateRubygems : M unit;
  InstallNode : M unit;
  InstallYarn : M unit;
  RewriteShebangs : M unit;
  SymlinkBundlerIntoRubygems : M unit;
  WriteProfileD : string → M unit
}.

(** [if err := step(); err != nil { s.Log.Error(msg, err); return err }] *)
Definition orLog {A} (msg : string) (step : M A) : M A :=
  let* r := try step in
  match r with
  | Ok a => ret a
  | Err e => Log ErrorLevel (msg +:+ Error e) >> fail e
  end.

Section Run.
Context {MF : Manifest} {RS : Resolver} {IN : Installer} {VS : Versions}
        {ST : Stager} {CM : Command} {TD : TempDir} {CA : Cache} {SS : Steps}.

Definition finalize_freetds_sh : string :=
  "#!/bin/bash" +:+ nl +:+
  "# https://github.com/rails-sqlserver/tiny_tds/blob/master/ext/tiny_tds/extconf.rb#L38" +:+ nl +:+
  "export FREETDS_DIR=" +:+ dq +:+ "$( cd /home/vcap/deps/*/freetds && pwd )" +:+ dq +:+ nl +:+
  nl +:+
  "# https://www.freetds.org/faq.html#SYBASE" +:+ nl +:+
  "export SYBASE=$FREETDS_DIR" +:+ nl +:+
  nl +:+
  "# https://github.com/rails-sqlserver/heroku-buildpack-freetds/blob/master/bin/compile#L90" +:+ nl +:+
  "export LD_LIBRARY_PATH=" +:+ dq +:+
    "${FREETDS_DIR}/lib:${LD_LIBRARY_PATH:-/usr/local/lib}" +:+ dq +:+ nl +:+
  "export LD_RUN_PATH=" +:+ dq +:+
    "${FREETDS_DIR}/lib:${LD_RUN_PATH:-/usr/local/lib}" +:+ dq +:+ nl +:+
  "export LIBRARY_PATH=" +:+ dq +:+
    "${FREETDS_DIR}/lib:${LIBRARY_PATH:-/usr/local/lib}" +:+ dq +:+ nl.

(** [if checksum, err := s.CalcChecksum(); err == nil { s.Log.Debug(...) }].
    When [CalcChecksum] panics there is no [err] to look at: the panic
    ends the run, which is shown as the run returning it. *)
Definition logChecksum (msg : string) : M unit :=
  let* r := try CalcChecksum in
  match r with
  | Ok checksum => Log Debug (msg +:+ checksum)
  | Err e => if decide (e = nil_pointer_panic) then fail e else ret tt
  end.

(** [Run] up to the installation of bundler. *)
Definition prepare : M unit :=
  Log BeginStep "Supplying FreeTDS" >>
  let* freetds := Manifest_DefaultVersion "freetds" in
  let freeTDSInstallDir := Join DepDir ["freetds"] in
  Installer_InstallDependency freetds freeTDSInstallDir >>
  orLog "Unable to write profile.d: "
        (Stager_WriteProfileD "finalize_freetds.sh" finalize_freetds_sh) >>
  Log BeginStep "Supplying Ruby" >>
  ignore (Command_Execute BuildDir "touch" ["/tmp/checkpoint"]) >>
  logChecksum "BuildDir Checksum Before Supply: " >>
  orLog "Error during setup: " Setup >>
  orLog "Unable to restore cache: " Restore.

(** [Run] from the default environment up to the node toolchain. *)
Definition runtime : M string :=
  orLog "Unable to setup default environment: " CreateDefaultEnv >>
  orLog "Unable to enable ld_library_path env: " EnableLDLibraryPathEnv >>
  let* selection := orLog "Unable to determine ruby: " DetermineRuby in
  let engine := selection.1 in
  let rubyVersion := selection.2 in
  when (bool_decide (engine = "jruby")) (orLog "Unable to install JVM: " InstallJVM) >>
  orLog "Unable to install ruby: " (InstallRuby engine rubyVersion) >>
  orLog "Unable to add bundler and gem path to default environment: "
        (AddPostRubyInstallDefaultEnv engine) >>
  orLog "Unable to update rubygems: " UpdateRubygems >>
  let* node := NeedsNode in
  when node (
    orLog "Unable to install node: " InstallNode >>
    orLog "Unable to install yarn: " InstallYarn) >>
  ret engine.

(** [Run] after the gems. *)
Definition finish (engine : string) : M unit :=
  orLog "Unable to rewrite shebangs: " RewriteShebangs >>
  orLog "Unable to symlink bundler into rubygems: " SymlinkBundlerIntoRubygems >>
  orLog "Unable to write profile.d: " (WriteProfileD engine) >>
  orLog "Unable to save cache: " Save >>
  orLog "Unable to setup environment variables: " Stager_SetStagingEnvironment >>
  logChecksum "BuildDir Checksum After Supply: " >>
  let* r := try (Command_Output BuildDir "find"
                   ["."; "-newer"; "/tmp/checkpoint"; "-not"; "-path"; "./.cloudfoundry/*";
                    "-not"; "-path"; "./.cloudfoundry"]) in
  match r with
  | Ok filesChanged =>
      when (negb (bool_decide (filesChanged = ""))) (
        Log Debug "Below files changed:" >> Log Debug filesChanged)
  | Err _ => ret tt
  end.

Definition Run : M unit :=
  prepare >>
  orLog "Unable to install bundler: " InstallBundler >>
  let* engine := runtime in
  orLog "Unable to install gems: " InstallGems >>
  finish engine.
End Run.

(** ** Reading the trace *)

Section Attempts.
Context {ST : Stager}.

(** The calls that belong to the secondary (2.X.X) bundler: resolving
    it, unpacking it, and asking whether it suits. *)
Definition secondary_attempt (ev : Event) : Prop :=
  match ev with
  | EvCheckBundler2Compatibility => True
  | EvFindMatchingVersion constraint => constraint = "2.X.X"
  | EvInstallDependency _ dir => dir = Join DepDir ["bundler2"]
  | _ => False
  end.

Global Instance secondary_attempt_dec ev : Decision (secondary_attempt ev).
Proof. destruct ev; simpl; apply _. Defined.
End Attempts.

(** A gem probe. *)
Definition gem_probe (ev : Event) : Prop :=
  match ev with EvHasGemVersion _ _ => True | _ => False end.

Global Instance gem_probe_dec ev : Decision (gem_probe ev).
Proof. destruct ev; simpl; apply _. Defined.

(** A program run through [Command.Run]. *)
Definition program_run (ev : Event) : Prop :=
  match ev with EvRun _ => True | _ => False end.

Global Instance program_run_dec ev : Decision (program_run ev).
Proof. destruct ev; simpl; apply _. Defined.

(** An installer keeps what exists outside the directory it unpacks into. *)
Definition keeps_outside (IN : Installer) : Prop :=
  ∀ dep dir x q, ¬ under dir q → is_Some (x !! q) →
                 is_Some ((InstallDependency dep dir x).2 !! q).

Section Places.
Context {ST : Stager}.

(** Where the secondary bundler is unpacked, and what of it is copied
    into the primary one. *)
Definition bundler2_dir : path := Join DepDir ["bundler2"].
Definition bundler2_gem (version : string) : path :=
  Join DepDir ["bundler"; "gems"; "bundler-" +:+ version].
Definition bundler2_gemspec (version : string) : path :=
  Join DepDir ["bundler"; "specifications"; ("bundler-" +:+ version) +:+ ".gemspec"].
End Places.

(** The warning of [DetermineRuby] for a Gemfile without a ruby version. *)
Definition no_version_warning (version : string) : Level * string :=
  (Warning,
   "You have not declared a Ruby version in your Gemfile." +:+ nl +:+
   "Defaulting to " +:+ version +:+ nl +:+
   "See http://docs.cloudfoundry.org/buildpacks/ruby/index.html#runtime for more information.").

(** The world after one variable has been set and its env file written. *)
Definition applied (name value : string) (w : World) : World :=
  set_envFiles (<[name := value]> (envFiles w))
    (set_trace (trace w ++ [EvWriteEnvFile name value])
       (set_environ (<[name := value]> (environ w)) w)).

(** Two applications that differ in the bytes of both of their files. *)
Module Collision.
Definition tree (a b : string) : FS :=
  list_to_map [ (["home"], Dir);
                (["home"; "vcap"], Dir);
                (["home"; "vcap"; "app"], Dir);
                (["home"; "vcap"; "app"; "a"], File a);
                (["home"; "vcap"; "app"; "b"], File b) ].

Definition before : FS := tree "" "bb".
Definition after : FS := tree "b" "b".
End Collision.

(** * More of [supply.go] *)

(** A method that, when it returns nil, leaves nothing at [p] or below. *)
Definition ends_clean (p : path) (m : M unit) : Prop :=
  ∀ w w', m w = (Ok tt, w') → ∀ q, under p q → fs w' !! q = None.

(** More of the staging run: a build cache that already holds the bundler
    binstub, so that every step of [InstallGems] goes through. *)
Module Cached.
Definition app_fs : FS :=
  <[["home"; "vcap"; "deps"; "0"; "binstubs"; "bundle"] := File "#!/usr/bin/env ruby"]>
    (<[["home"; "vcap"; "deps"; "0"; "binstubs"] := Dir]> Staging.app_fs).
End Cached.

(** An installer leaves every node outside the directory it unpacks into
    as it is. *)
Definition preserves_outside (IN : Installer) : Prop :=
  ∀ dep dir x q n, ¬ under dir q → x !! q = Some n →
                   (InstallDependency dep dir x).2 !! q = Some n.

(** An installer whose archives hold a [bin] directory and nothing else. *)
Definition bare_installer : Installer :=
  {| InstallDependency := Staging.unpack (λ _, Some [(["bin"], Dir)]);
     InstallOnlyVersion name dir x := (Err (EMsg ("could not install " +:+ name)), x) |}.

(** The answer "yes, without error" of a probe. *)
Definition is_yes (r : Res bool) : bool :=
  match r with Ok true => true | _ => false end.

(** The Gemfile of a rails application with webpacker: ruby 2.6.3, and of
    the gems only webpacker is found. *)
Definition webpacker_versions : Versions :=
  {| Gemfile := Absolute ["home"; "vcap"; "app"; "Gemfile"];
     CheckBundler2Compatibility x := Ok true;
     Engine x := Ok "ruby";
     Version x := Ok "2.6.3";
     JrubyVersion x := Ok "";
     RubyEngineVersion x := Ok "2.6.0";
     HasGemVersion x gem constraints := Ok (bool_decide (gem = "webpacker"));
     HasWindowsGemfileLock x := Ok false |}.

(** A [Versions] that names the Gemfile by a relative path, which the
    system reads from the working directory. *)
Definition relative_versions : Versions :=
  {| Gemfile := Relative "Gemfile" [];
     CheckBundler2Compatibility x := Ok true;
     Engine x := Ok "ruby";
     Version x := Ok "2.6.3";
     JrubyVersion x := Ok "";
     RubyEngineVersion x := Ok "2.6.0";
     HasGemVersion x gem constraints := Ok false;
     HasWindowsGemfileLock x := Ok false |}.

(** The bytes of the regular file at a path, if there is one. *)
Definition file_of (x : FS) (p : path) : option string :=
  match x !! p with Some (File data) => Some data | _ => None end.

(** ** More methods of [Supplier] *)

Module supply.

(** Whether [Stager.WriteProfileD] can write a script. *)
Class ProfileD := {
  WriteProfileD_err : string → string → option error
}.

(** [os.Stat] *)
Definition os_Stat (p : path) : M node :=
  λ w, match fs w !! p with
       | Some n => (Ok n, w)
       | None => (Err (ENOENT ("stat " +:+ path_string p)), w)
       end.

(** [ioutil.WriteFile] *)
Definition ioutil_WriteFile (p : path) (data : string) : M unit := onFS (create p data).

(** [filepath.Glob(dir/pre* )] for a directory whose name holds no
    pattern character: the entries of the directory whose names start
    with [pre], in the order of their names; nothing, and no error, when
    the directory is not there. *)
Definition Glob (dir : path) (pre : string) (x : FS) : list path :=
  if is_dir dir x
  then (λ name, dir ++ [name]) <$> List.filter (λ name, HasPrefix name pre) (children dir x)
  else [].

Definition filepath_Glob (dir : path) (pre : string) : M (list path) :=
  gets (λ w, Glob dir pre (fs w)).

(** The first line of a text, and the text from the end of that line on. *)
Fixpoint first_line (s : string) : string * string :=
  match s with
  | EmptyString => (EmptyString, EmptyString)
  | String c s' =>
      if decide (c = "010"%char) then (EmptyString, s)
      else let '(line, rest) := first_line s' in (String c line, rest)
  end.

Fixpoint skip (n : nat) (s : string) : string :=
  match n, s with
  | S n', String _ s' => skip n' s'
  | _, _ => s
  end.

(** Whether [^#!/.*/ruby.*] matches a text.  The pattern is tied to the
    start of the text and [.] stops at a line feed: it matches when the
    first line starts with "#!/" and has "/ruby" after these three
    characters, and the match is then the whole first line. *)
Definition shebang_match (contents : string) : bool :=
  let line := (first_line contents).1 in
  HasPrefix line "#!/" && Contains (skip 3 line) "/ruby".

(** [shebangRegex.ReplaceAll(contents, "#!/usr/bin/env ruby")] *)
Definition ReplaceAll (contents : string) : string :=
  if shebang_match contents
  then "#!/usr/bin/env ruby" +:+ (first_line contents).2
  else contents.

(** What [RewriteShebangs] makes of a node. *)
Definition rewritten (n : node) : node :=
  match n with
  | File data => File (ReplaceAll data)
  | Dir => Dir
  end.

Section Methods.
Context {MF : Manifest} {RS : Resolver} {IN : Installer} {VS : Versions}
        {ST : Stager} {CM : Command} {PD : ProfileD}.

(** [Stager.WriteProfileD] is libbuildpack's, whose code is not in this
    repository.  Modelled from the spec: it writes one named start-up
    fragment, and writing a name again replaces the bytes of that
    fragment only (§4.4).  The fragments are kept as libbuildpack keeps
    them, as the files of [profile.d] in the dependency directory. *)
Definition Stager_WriteProfileD (scriptName scriptContents : string) : M unit :=
  record (EvStep ("WriteProfileD " +:+ scriptName)) >>
  match WriteProfileD_err scriptName scriptContents with
  | Some e => fail e
  | None =>
      os_MkdirAll (Join DepDir ["profile.d"]) >>
      ioutil_WriteFile (Join DepDir ["profile.d"; scriptName]) scriptContents
  end.

(** The files [RewriteShebangs] looks at: [bin/*] and
    [vendor_bundle/ruby/*/bin/*] in the dependency directory. *)
Definition shebang_files (x : FS) : list path :=
  Glob (Join DepDir ["bin"]) "" x ++
  flat_map (λ d, Glob (d ++ ["bin"]) "" x) (Glob (Join DepDir ["vendor_bundle"; "ruby"]) "" x).

(** The body of the loop of [RewriteShebangs]. *)
Definition rewrite_shebang (file : path) : M unit :=
  let* fileInfo := os_Stat file in
  match fileInfo with
  | Dir => ret tt                                   (* continue *)
  | File _ =>
      let* fileContents := ioutil_ReadFile file in
      let fileContents := ReplaceAll fileContents in
      ioutil_WriteFile file fileContents
  end.

Definition RewriteShebangs : M unit :=
  let* files1 := filepath_Glob (Join DepDir ["bin"]) "" in
  let* dirs := filepath_Glob (Join DepDir ["vendor_bundle"; "ruby"]) "" in
  let* files2 := gets (λ w, flat_map (λ d, Glob (d ++ ["bin"]) "" (fs w)) dirs) in
  forEach (files1 ++ files2) rewrite_shebang.

Definition app_lib_path_sh : string :=
  "export LD_LIBRARY_PATH=" +:+ dq +:+ "$HOME/ld_library_path$([[ ! -z " +:+ dq +:+
  "${LD_LIBRARY_PATH:-}" +:+ dq +:+ " ]] && echo " +:+ dq +:+ ":$LD_LIBRARY_PATH" +:+ dq +:+
  ")" +:+ dq.

Definition EnableLDLibraryPathEnv : M unit :=
  let* found := FileExists (Absolute (Join BuildDir ["ld_library_path"])) in
  if negb found then ret tt
  else
    let envVar := path_string (Join BuildDir ["ld_library_path"]) in
    let* env := os_Getenv "LD_LIBRARY_PATH" in
    let envVar := if decide (env = "") then envVar else envVar +:+ ":" +:+ env in
    os_Setenv "LD_LIBRARY_PATH" envVar >>
    Stager_WriteEnvFile "LD_LIBRARY_PATH" envVar >>
    Stager_WriteProfileD "app_lib_path.sh" app_lib_path_sh.

End Methods.

(** A stager whose scripts can always be written. *)
Definition profile_d : ProfileD := {| WriteProfileD_err name contents := None |}.

(** An application that brings its own libraries. *)
Definition lib_fs : FS := <[["home"; "vcap"; "app"; "ld_library_path"] := Dir]> Staging.app_fs.

End supply.
(** * Properties *)

(** Unfolding the monad and the calls through the interfaces. *)
Ltac go :=
  cbv beta match delta
    [orLog wrap defer ignore try when bind ret fail gets modify query act record onFS Log
     Manifest_DefaultVersion libbuildpack_FindMatchingVersion
     Installer_InstallDependency Stager_LinkDirectoryInDepDir Stager_WriteEnvFile
     Versions_SetBundlerVersion Versions_GetBundlerVersion
     Versions_CheckBundler2Compatibility Versions_Engine Versions_Version
     Versions_JrubyVersion Versions_RubyEngineVersion Versions_HasGemVersion
     Versions_HasWindowsGemfileLock Command_Output Command_Run TempDir_CopyDirToTemp
     os_RemoveAll os_Remove os_MkdirAll os_Rename ioutil_ReadDir ioutil_ReadFile
     FileExists libbuildpack_CopyFile libbuildpack_CopyDirectory os_Getenv os_Setenv
     os_Environ] in *.

(** Reading a field of an updated world. *)
Ltac fields :=
  cbn [fs environ cwd envFiles bundlerVersion log trace cachedNeedsNode needsNode
       appHasGemfile appHasGemfileLock set_fs set_environ set_envFiles
       set_bundlerVersion set_log set_trace set_cachedNeedsNode set_needsNode
       set_appHasGemfile set_appHasGemfileLock fst snd] in *.

Section NoGemfile.
Context {MF : Manifest} {RS : Resolver} {IN : Installer} {VS : Versions}
        {ST : Stager} {CM : Command} {TD : TempDir}.

Lemma DetermineRuby_no_Gemfile (w0 : World) dep :
  appHasGemfile w0 = false →
  DefaultVersion "ruby" = Ok dep →
  DetermineRuby w0 =
    (Ok ("ruby", libbuildpack.Version dep),
     set_trace (trace w0 ++ [EvDefaultVersion "ruby"]) w0).
Proof.
  intros Hg Hd. unfold DetermineRuby. go; simpl. rewrite Hg. simpl. rewrite Hd. reflexivity.
Qed.

Lemma InstallGems_no_Gemfile (w0 : World) :
  appHasGemfile w0 = false → InstallGems w0 = (Ok tt, w0).
Proof. intros Hg. unfold InstallGems. go; simpl. rewrite Hg. reflexivity. Qed.

(** What [installBundlerOne] leaves alone, and what it calls. *)
Lemma installBundlerOne_frame (w0 w1 : World) r :
  installBundlerOne w0 = (r, w1) →
  appHasGemfile w1 = appHasGemfile w0 ∧
  bundlerVersion w1 = bundlerVersion w0 ∧
  log w1 = log w0 ∧
  ∃ evs, trace w1 = trace w0 ++ evs ∧ Forall (λ ev, ¬ secondary_attempt ev) evs.
Proof.
  unfold installBundlerOne. go. intros Hr.
  repeat (case_match; simplify_eq/=); repeat split;
    try reflexivity; rewrite <- ?app_assoc; eexists; (split; [reflexivity|]);
    repeat constructor; simpl; try tauto; try discriminate;
    unfold Join; intros Heq; apply app_inv_head in Heq; discriminate.
Qed.

Lemma InstallBundler_no_Gemfile (w0 : World) :
  appHasGemfile w0 = false →
  InstallBundler w0 =
    (let* bundlerOneVersion := installBundlerOne in
     Versions_SetBundlerVersion bundlerOneVersion) w0.
Proof.
  intros Hg. unfold InstallBundler.
  cbv beta delta [bind].
  destruct (installBundlerOne w0) as [[v|e] w1] eqn:Hone; [|reflexivity].
  apply installBundlerOne_frame in Hone as (Hg1 & _).
  go; simpl. rewrite Hg1, Hg. reflexivity.
Qed.

(** When the resolver, the installer and the linker do their work,
    [installBundlerOne] is exactly these three calls. *)
Lemma installBundlerOne_installs (w0 : World) (v : string) (x1 x2 : FS) :
  FindMatchingVersion "1.X.X" (AllDependencyVersions "bundler") = Ok v →
  InstallDependency {| libbuildpack.Name := "bundler"; libbuildpack.Version := v |}
                    (Join DepDir ["bundler"]) (fs w0) = (Ok tt, x1) →
  LinkDirectoryInDepDir (Join DepDir ["bundler"; "bin"]) "bin" x1 = (Ok tt, x2) →
  installBundlerOne w0 =
    (Ok v,
     set_fs x2
       (set_trace
          (trace w0 ++
           [EvFindMatchingVersion "1.X.X";
            EvInstallDependency {| libbuildpack.Name := "bundler"; libbuildpack.Version := v |}
                                (Join DepDir ["bundler"]);
            EvLinkDirectoryInDepDir (Join DepDir ["bundler"; "bin"]) "bin"]) w0)).
Proof.
  intros Hv Hinstall Hlink. unfold installBundlerOne. go; fields.
  rewrite Hv. fields. rewrite Hinstall. fields. rewrite Hlink. fields.
  rewrite <- !app_assoc. destruct w0; reflexivity.
Qed.

(** C7.  Without a Gemfile: the runtime is the catalogue's default ruby
    with engine "ruby"; [InstallBundler] is the installation of the
    primary bundler and nothing that belongs to the secondary one is
    called (no resolution of 2.X.X, no unpacking into bundler2, no
    compatibility test); [InstallGems] returns success at once and leaves
    the world as it found it, so no program is run.  The primary bundler
    is installed: when the resolver finds a version for 1.X.X and the
    installer and the linker succeed, [InstallBundler] returns nil after
    exactly four calls - the resolution of 1.X.X, the unpacking of that
    version of bundler into [bundler] in the dependency directory, the
    linking of its [bin], and the setting of that version as the active
    one - and the file system is the one the installer and the linker
    made. *)
Theorem no_Gemfile_scenario (w0 : World) (dep : Dependency) :
  appHasGemfile w0 = false →
  DefaultVersion "ruby" = Ok dep →
  (∃ w1, DetermineRuby w0 = (Ok ("ruby", libbuildpack.Version dep), w1)) ∧
  (InstallBundler w0 =
     (let* bundlerOneVersion := installBundlerOne in
      Versions_SetBundlerVersion bundlerOneVersion) w0 ∧
   (∃ evs, trace (InstallBundler w0).2 = trace w0 ++ evs ∧
           Forall (λ ev, ¬ secondary_attempt ev) evs) ∧
   (∀ v x1 x2,
      FindMatchingVersion "1.X.X" (AllDependencyVersions "bundler") = Ok v →
      InstallDependency {| libbuildpack.Name := "bundler"; libbuildpack.Version := v |}
                        (Join DepDir ["bundler"]) (fs w0) = (Ok tt, x1) →
      LinkDirectoryInDepDir (Join DepDir ["bundler"; "bin"]) "bin" x1 = (Ok tt, x2) →
      InstallBundler w0 =
        (Ok tt,
         set_bundlerVersion v
           (set_fs x2
              (set_trace
                 (trace w0 ++
                  [EvFindMatchingVersion "1.X.X";
                   EvInstallDependency
                     {| libbuildpack.Name := "bundler"; libbuildpack.Version := v |}
                     (Join DepDir ["bundler"]);
                   EvLinkDirectoryInDepDir (Join DepDir ["bundler"; "bin"]) "bin";
                   EvSetBundlerVersion v]) w0))))) ∧
  InstallGems w0 = (Ok tt, w0).
Proof.
  intros Hg Hd. split; [|split; [split; [|split]|]].
  - eexists. by apply DetermineRuby_no_Gemfile.
  - by apply InstallBundler_no_Gemfile.
  - rewrite InstallBundler_no_Gemfile by done.
    unfold bind. destruct (installBundlerOne w0) as [[v|e] w1] eqn:Hone;
      apply installBundlerOne_frame in Hone as (_ & _ & _ & evs & Ht & Hev); simpl.
    + exists (evs ++ [EvSetBundlerVersion v]). go; simpl. rewrite Ht, <- app_assoc.
      split; [done|]. apply Forall_app. split; [done|]. repeat constructor. simpl. tauto.
    + by exists evs.
  - intros v x1 x2 Hv Hinstall Hlink.
    rewrite InstallBundler_no_Gemfile by done.
    unfold bind. rewrite (installBundlerOne_installs w0 v x1 x2 Hv Hinstall Hlink).
    go; fields. rewrite <- !app_assoc. destruct w0; reflexivity.
  - by apply InstallGems_no_Gemfile.
Qed.
End NoGemfile.

(** The scenario on the staging run of [Staging]: the default ruby is
    2.6.3; [InstallBundler] returns nil, bundler 1.17.3 is the active
    version, its [bundle] program is in the dependency directory, and the
    installer has been called once, for bundler 1.17.3; [InstallGems]
    does nothing. *)
Lemma no_Gemfile_scenario_witness :
  let w0 := Staging.world Staging.app_fs false in
  let dir := ["home"; "vcap"; "deps"; "0"; "bundler"] in
  let bundler := {| libbuildpack.Name := "bundler"; libbuildpack.Version := "1.17.3" |} in
  let installed :=
    InstallBundler (MF := Staging.manifest_yml) (RS := Staging.resolver)
                   (IN := Staging.installer) (VS := Staging.broken_versions)
                   (ST := Staging.stager) w0 in
  appHasGemfile w0 = false ∧
  (∃ w1, DetermineRuby (MF := Staging.manifest_yml) (VS := Staging.broken_versions) w0
         = (Ok ("ruby", "2.6.3"), w1)) ∧
  installed.1 = Ok tt ∧
  bundlerVersion installed.2 = "1.17.3" ∧
  fs installed.2 !! (dir ++ ["bin"; "bundle"]) = Some (File "#!/usr/bin/env ruby") ∧
  trace installed.2 =
    [EvFindMatchingVersion "1.X.X"; EvInstallDependency bundler dir;
     EvLinkDirectoryInDepDir (dir ++ ["bin"]) "bin"; EvSetBundlerVersion "1.17.3"] ∧
  InstallGems (VS := Staging.broken_versions) (ST := Staging.stager)
              (CM := Staging.command (Ok tt)) (TD := LinuxTempDir "1" "") w0 = (Ok tt, w0).
Proof.
  intros w0 dir bundler installed.
  pose proof (no_Gemfile_scenario (MF := Staging.manifest_yml) (RS := Staging.resolver)
                (IN := Staging.installer) (VS := Staging.broken_versions)
                (ST := Staging.stager) (CM := Staging.command (Ok tt))
                (TD := LinuxTempDir "1" "") w0
                {| libbuildpack.Name := "ruby"; libbuildpack.Version := "2.6.3" |}
                eq_refl eq_refl) as (H1 & (_ & _ & H2) & H3).
  pose (x1 := (InstallDependency (Installer := Staging.installer) bundler dir (fs w0)).2).
  assert (InstallDependency (Installer := Staging.installer) bundler dir (fs w0) = (Ok tt, x1))
    as Hinstall.
  { assert ((InstallDependency (Installer := Staging.installer) bundler dir (fs w0)).1 = Ok tt)
      as Hfst by (vm_compute; reflexivity).
    rewrite <- Hfst. apply surjective_pairing. }
  specialize (H2 "1.17.3" x1 x1 eq_refl Hinstall eq_refl).
  subst installed. rewrite H2. cbn [fst snd]. fields.
  split; [reflexivity|]. split; [exact H1|]. split; [reflexivity|]. split; [reflexivity|].
  split; [|split; [reflexivity | exact H3]].
  subst x1. vm_compute. reflexivity.
Defined.

Section Ruby.
Context {MF : Manifest} {VS : Versions}.

Lemma DetermineRuby_default (w0 : World) (dep : Dependency) :
  appHasGemfile w0 = true →
  Engine (fs w0) = Ok "ruby" →
  Version (fs w0) = Ok "" →
  DefaultVersion "ruby" = Ok dep →
  ∃ w1, DetermineRuby w0 = (Ok ("ruby", libbuildpack.Version dep), w1) ∧
        log w1 = log w0 ++ [no_version_warning (libbuildpack.Version dep)].
Proof.
  intros Hg He Hv Hd. unfold DetermineRuby. go; simpl.
  rewrite Hg; simpl. rewrite He; simpl. rewrite Hv; simpl. rewrite Hd; simpl.
  eexists. split; reflexivity.
Qed.

Lemma DetermineRuby_unsupported (w0 : World) (engine : string) :
  appHasGemfile w0 = true →
  Engine (fs w0) = Ok engine →
  engine ≠ "ruby" → engine ≠ "jruby" →
  ∃ w1, DetermineRuby w0 =
          (Err (EMsg ("Sorry, we do not support engine: " +:+ engine)), w1).
Proof.
  intros Hg He H1 H2. unfold DetermineRuby. go; simpl.
  rewrite Hg; simpl. rewrite He; simpl.
  destruct (decide (engine = "ruby")); [done|].
  destruct (decide (engine = "jruby")); [done|].
  eexists. reflexivity.
Qed.

(** C8.  With a Gemfile that names the engine "ruby" and no version,
    [DetermineRuby] returns the catalogue's default ruby version and the
    logger has received one more warning; with a Gemfile that names any
    engine other than "ruby" and "jruby", it fails with an error. *)
Theorem DetermineRuby_with_Gemfile (w0 : World) :
  appHasGemfile w0 = true →
  (∀ dep, Engine (fs w0) = Ok "ruby" → Version (fs w0) = Ok "" →
          DefaultVersion "ruby" = Ok dep →
          ∃ w1, DetermineRuby w0 = (Ok ("ruby", libbuildpack.Version dep), w1) ∧
                log w1 = log w0 ++ [no_version_warning (libbuildpack.Version dep)]) ∧
  (∀ engine, Engine (fs w0) = Ok engine → engine ≠ "ruby" → engine ≠ "jruby" →
             ∃ e w1, DetermineRuby w0 = (Err e, w1)).
Proof.
  intros Hg. split.
  - intros dep. by apply DetermineRuby_default.
  - intros engine He H1 H2.
    destruct (DetermineRuby_unsupported w0 engine Hg He H1 H2) as [w1 Hr]. eauto.
Qed.
End Ruby.

(** Two Gemfiles on the staging run: one with engine "ruby" and no
    version, one with the engine "rbx". *)
Lemma DetermineRuby_with_Gemfile_witness :
  let w0 := Staging.world Staging.app_fs true in
  appHasGemfile w0 = true ∧
  (∃ w1, DetermineRuby (MF := Staging.manifest_yml)
                       (VS := Staging.versions "ruby" "" (Ok true)) w0
         = (Ok ("ruby", "2.6.3"), w1) ∧
         log w1 = [no_version_warning "2.6.3"]) ∧
  (∃ e w1, DetermineRuby (MF := Staging.manifest_yml)
                         (VS := Staging.versions "rbx" "" (Ok true)) w0 = (Err e, w1)).
Proof.
  intros w0. split; [reflexivity|]. split.
  - exact (proj1 (DetermineRuby_with_Gemfile (MF := Staging.manifest_yml)
                    (VS := Staging.versions "ruby" "" (Ok true)) w0 eq_refl)
                 {| libbuildpack.Name := "ruby"; libbuildpack.Version := "2.6.3" |}
                 eq_refl eq_refl eq_refl).
  - apply (proj2 (DetermineRuby_with_Gemfile (MF := Staging.manifest_yml)
                    (VS := Staging.versions "rbx" "" (Ok true)) w0 eq_refl) "rbx" eq_refl);
      discriminate.
Defined.

Section Node.
Context {VS : Versions} {ST : Stager} {CM : Command}.

(** The probing loop cannot fail: an error of a probe is the answer
    "not there". *)
Lemma probeGems_ok (names : list string) (w0 : World) :
  ∃ w1, probeGems names w0 = (Ok tt, w1) ∧
        cachedNeedsNode w1 = cachedNeedsNode w0 ∧
        (needsNode w1 = needsNode w0 ∨ needsNode w1 = true).
Proof.
  revert w0. induction names as [|name rest IH]; intros w0; simpl.
  - eexists. split; [reflexivity|]. auto.
  - go; simpl.
    destruct (HasGemVersion (fs w0) name [">=0.0.0"]) as [[|]|e].
    + eexists. split; [reflexivity|]. auto.
    + edestruct IH as (w1 & -> & Hc & Hn). eexists. split; [reflexivity|]. eauto.
    + edestruct IH as (w1 & -> & Hc & Hn). eexists. split; [reflexivity|]. eauto.
Qed.

Lemma probeGems_all_errors (names : list string) (w0 : World) :
  (∀ x gem constraints, is_ok (HasGemVersion x gem constraints) = false) →
  ∃ w1, probeGems names w0 = (Ok tt, w1) ∧ needsNode w1 = needsNode w0.
Proof.
  intros Herr. revert w0. induction names as [|name rest IH]; intros w0; simpl.
  - eexists. split; reflexivity.
  - go; simpl. specialize (Herr (fs w0) name [">=0.0.0"]).
    destruct (HasGemVersion (fs w0) name [">=0.0.0"]) as [b|e]; [discriminate|].
    edestruct IH as (w1 & -> & Hn). eexists. split; [reflexivity|]. exact Hn.
Qed.

Lemma NeedsNode_total (w0 : World) :
  ∃ b w1, NeedsNode w0 = (Ok b, w1) ∧ cachedNeedsNode w1 = true ∧ needsNode w1 = b.
Proof.
  unfold NeedsNode, isNodeInstalled. go; fields.
  destruct (cachedNeedsNode w0) eqn:Hc.
  - exists (needsNode w0), w0. auto.
  - destruct (Output BuildDir "node" ["--version"] (fs w0)); cbn [is_ok].
    + do 2 eexists. split; [reflexivity|]. auto.
    + match goal with |- context [probeGems ?l ?w] =>
        destruct (probeGems_ok l w) as (w1 & -> & Hc1 & _) end.
      do 2 eexists. split; [reflexivity|]. auto.
Qed.

Lemma NeedsNode_cached (w0 : World) :
  cachedNeedsNode w0 = true → NeedsNode w0 = (Ok (needsNode w0), w0).
Proof. intros Hc. unfold NeedsNode. go; simpl. rewrite Hc. reflexivity. Qed.

Lemma NeedsNode_all_errors (w0 : World) :
  cachedNeedsNode w0 = false →
  (∀ x gem constraints, is_ok (HasGemVersion x gem constraints) = false) →
  ∃ w1, NeedsNode w0 = (Ok false, w1).
Proof.
  intros Hc Herr. unfold NeedsNode, isNodeInstalled. go; fields. rewrite Hc.
  destruct (Output BuildDir "node" ["--version"] (fs w0)); cbn [is_ok].
  - eexists. reflexivity.
  - match goal with |- context [probeGems ?l ?w] =>
      destruct (probeGems_all_errors l w Herr) as (w1 & -> & Hn) end.
    simpl in Hn. rewrite Hn. eexists. reflexivity.
Qed.

(** C10.  [NeedsNode] always comes back with a boolean, never with an
    error.  On a first call, if every gem probe fails, the answer is
    [false].  Whatever a call answers is kept: in any later world of the
    run in which the two private fields are as that call left them, a
    call gives the same boolean and leaves the world exactly as it is,
    trace included, so nothing is probed again. *)
Theorem NeedsNode_memoized (w0 : World) :
  (∃ b w1, NeedsNode w0 = (Ok b, w1)) ∧
  (cachedNeedsNode w0 = false →
   (∀ x gem constraints, is_ok (HasGemVersion x gem constraints) = false) →
   ∃ w1, NeedsNode w0 = (Ok false, w1)) ∧
  (∀ r w1 w2, NeedsNode w0 = (r, w1) →
              cachedNeedsNode w2 = cachedNeedsNode w1 →
              needsNode w2 = needsNode w1 →
              NeedsNode w2 = (r, w2)).
Proof.
  split; [|split].
  - destruct (NeedsNode_total w0) as (b & w1 & Hr & _). eauto.
  - apply NeedsNode_all_errors.
  - intros r w1 w2 Hr Hc Hn.
    destruct (NeedsNode_total w0) as (b & w1' & Hr' & Hc1 & Hn1).
    rewrite Hr in Hr'. injection Hr' as -> ->.
    rewrite NeedsNode_cached by congruence. by rewrite Hn, Hn1.
Qed.
End Node.

(** A first call when every look into the Gemfile fails, and a second call
    after it. *)
Lemma NeedsNode_memoized_witness :
  let w0 := Staging.world Staging.app_fs true in
  let call := NeedsNode (VS := Staging.broken_versions) (ST := Staging.stager)
                        (CM := Staging.command (Ok tt)) in
  (∃ w1, call w0 = (Ok false, w1)) ∧ call (call w0).2 = (Ok false, (call w0).2).
Proof.
  intros w0 call.
  pose proof (NeedsNode_memoized (VS := Staging.broken_versions) (ST := Staging.stager)
                (CM := Staging.command (Ok tt)) w0) as (_ & Hfirst & Hmemo).
  split.
  - apply Hfirst; [reflexivity | intros; reflexivity].
  - apply (Hmemo (Ok false) (call w0).2 (call w0).2); reflexivity.
Defined.

Section Gems.
Context {VS : Versions} {ST : Stager} {CM : Command} {TD : TempDir}.

(** The two warnings before the scratch copy cannot fail. *)
Lemma warnings_ok (w0 : World) :
  ∃ w1, (warnBundleConfig >> warnWindowsGemfile) w0 = (Ok tt, w1) ∧
        fs w1 = fs w0 ∧ trace w1 = trace w0 ∧ appHasGemfile w1 = appHasGemfile w0.
Proof.
  unfold warnBundleConfig, warnWindowsGemfile. go; cbv zeta; fields.
  destruct (blocked _ (fs w0)); fields; [|destruct (Exists _ (fs w0)); fields];
    destruct (ReadFile _ (fs w0)); fields;
    try destruct (Contains _ _); fields; eexists; split; try reflexivity; auto.
Qed.

(** When the scratch copy cannot be made, [InstallGems] stops there and
    reports success. *)
Lemma InstallGems_copy_error (w0 w1 w2 : World) (e : error) :
  appHasGemfile w0 = true →
  (warnBundleConfig >> warnWindowsGemfile) w0 = (Ok tt, w1) →
  TempDir_CopyDirToTemp BuildDir w1 = (Err e, w2) →
  InstallGems w0 = (Ok tt, w2).
Proof.
  intros Hg Hwarn Hcopy. unfold InstallGems.
  cbv beta delta [bind gets try] in *. rewrite Hg. cbn [negb].
  destruct (warnBundleConfig w0) as [[[]|?] wa]; [|discriminate].
  destruct (warnWindowsGemfile wa) as [[[]|?] wb]; [|discriminate].
  injection Hwarn as ->. rewrite Hcopy. reflexivity.
Qed.
End Gems.

(** C2.  The staging run on a machine without [/tmp]: the scratch copy
    cannot be made and [CopyDirToTemp] returns an error, yet [InstallGems]
    returns nil, having run no program. *)
Theorem InstallGems_hides_copy_failure :
  let w0 := Staging.world (delete ["tmp"] Staging.app_fs) true in
  let VS := Staging.versions "ruby" "2.6.3" (Ok true) in
  let CM := Staging.command (Ok tt) in
  let TD := LinuxTempDir "1" "" in
  (CopyDirToTemp (BuildDir (Stager := Staging.stager)) w0).1 = Err (ENOENT "stat /tmp") ∧
  (InstallGems (ST := Staging.stager) w0).1 = Ok tt ∧
  Forall (λ ev, ¬ program_run ev) (trace (InstallGems (ST := Staging.stager) w0).2).
Proof.
  intros w0 VS CM TD. split; [|split].
  - vm_compute. reflexivity.
  - vm_compute. reflexivity.
  - assert (trace (InstallGems (ST := Staging.stager) w0).2
            = [EvCopyDirToTemp ["home"; "vcap"; "app"]]) as -> by (vm_compute; reflexivity).
    repeat constructor. simpl. tauto.
Qed.

(** C1.  The staging run when [bundle install] fails: the scratch copy has
    been made at [/tmp/app1/app], [InstallGems] returns the error of the
    program, and the scratch copy is still there. *)
Theorem InstallGems_leaves_scratch_copy :
  let w0 := Staging.world Staging.app_fs true in
  let VS := Staging.versions "ruby" "2.6.3" (Ok true) in
  let CM := Staging.command (Err (EMsg "exit status 5")) in
  let TD := LinuxTempDir "1" "" in
  (CopyDirToTemp (BuildDir (Stager := Staging.stager)) w0).1 = Ok ["tmp"; "app1"; "app"] ∧
  (InstallGems (ST := Staging.stager) w0).1 = Err (EMsg "exit status 5") ∧
  Exists ["tmp"; "app1"; "app"] (fs (InstallGems (ST := Staging.stager) w0).2) = true.
Proof.
  intros w0 VS CM TD. split; [|split]; vm_compute; reflexivity.
Qed.

(** C9.  [IndentedWriter.Write] has no result at any depth of calls: the
    call it ends in is a call of itself, one level down, on the padded
    input and the same writer. *)
Theorem Write_never_returns (depth : nat) (iw : IndentedWriter) (p : string) :
  Write depth iw p = None ∧
  Write (S depth) iw p = Write depth iw (padded iw p).
Proof.
  split; [|reflexivity].
  revert p. induction depth as [|depth IH]; intros p; simpl; [reflexivity | apply IH].
Qed.

(** ** The file system operations *)

Section FileSystem.
Implicit Types (x : FS) (p q : path) (n : node).

Lemma RemoveAll_under p q x : under p q → RemoveAll p x !! q = None.
Proof.
  intros Hu. unfold RemoveAll. apply map_lookup_filter_None. right.
  intros n _ Hn. by apply Hn.
Qed.

Lemma RemoveAll_other p q x : ¬ under p q → RemoveAll p x !! q = x !! q.
Proof.
  intros Hu. unfold RemoveAll. destruct (x !! q) as [n|] eqn:Hq.
  - by apply map_lookup_filter_Some.
  - apply map_lookup_filter_None. by left.
Qed.

Lemma RemoveAll_None p q x : x !! q = None → RemoveAll p x !! q = None.
Proof. intros Hq. unfold RemoveAll. apply map_lookup_filter_None. by left. Qed.

Lemma mkdirs_keeps done todo x x' q n :
  mkdirs done todo x = Ok x' → x !! q = Some n → x' !! q = Some n.
Proof.
  revert done x. induction todo as [|c todo IH]; intros done x Hm Hq; simpl in Hm.
  - by injection Hm as <-.
  - destruct (x !! (done ++ [c])) as [[d|]|] eqn:Hd; [done| |].
    + eapply IH; eauto.
    + eapply IH; [exact Hm|]. rewrite lookup_insert_ne; [done|]. congruence.
Qed.

Lemma MkdirAll_keeps p x x' q n :
  MkdirAll p x = Ok x' → x !! q = Some n → x' !! q = Some n.
Proof. apply mkdirs_keeps. Qed.

Lemma graft_is_Some dst entries x q :
  is_Some (x !! q) → is_Some (graft dst entries x !! q).
Proof.
  intros Hq. induction entries as [|[r n] entries IH]; simpl; [done|].
  destruct (decide (dst ++ r = q)) as [->|Hne].
  - rewrite lookup_insert_eq. eauto.
  - by rewrite lookup_insert_ne.
Qed.

Lemma graft_other dst entries x q :
  ¬ under dst q → graft dst entries x !! q = x !! q.
Proof.
  intros Hu. induction entries as [|[r n] entries IH]; simpl; [done|].
  rewrite lookup_insert_ne; [done|]. intros <-. apply Hu. by exists r.
Qed.

Lemma create_is_Some p data x x' q :
  create p data x = Ok x' → is_Some (x !! q) → is_Some (x' !! q).
Proof.
  unfold create. intros Hc Hq.
  assert (x' = <[p := File data]> x) as -> by (repeat case_match; congruence).
  destruct (decide (p = q)) as [->|Hne].
  - rewrite lookup_insert_eq. eauto.
  - by rewrite lookup_insert_ne.
Qed.

Lemma CopyFile_is_Some src dst x x' q :
  CopyFile src dst x = Ok x' → is_Some (x !! q) → is_Some (x' !! q).
Proof.
  unfold CopyFile. intros Hc [n Hq].
  destruct (x !! src) as [[data|]|]; try discriminate.
  destruct (MkdirAll (Parent dst) x) as [x1|] eqn:Hm; [|discriminate].
  eapply create_is_Some; [exact Hc|]. exists n. eapply MkdirAll_keeps; eauto.
Qed.

Lemma CopyDirectory_is_Some src dst x x' q :
  CopyDirectory src dst x = Ok x' → is_Some (x !! q) → is_Some (x' !! q).
Proof.
  unfold CopyDirectory. intros Hc Hq.
  destruct (negb (Exists dst x)); [discriminate|].
  destruct (x !! src) as [[data|]|]; try discriminate.
  injection Hc as <-. by apply graft_is_Some.
Qed.

(** Two different names in one directory: neither is below the other. *)
Lemma not_under_sibling (d : path) (a b : string) (rest q : path) :
  a ≠ b → under (d ++ a :: rest) q → ¬ under (d ++ [b]) q.
Proof.
  intros Hne [k1 ->] [k2 Hk]. rewrite <- !app_assoc in Hk.
  apply app_inv_head in Hk. simpl in Hk. congruence.
Qed.
End FileSystem.

(** ** The compatibility negotiator *)

Section Bundler.
Context {MF : Manifest} {RS : Resolver} {IN : Installer} {VS : Versions} {ST : Stager}.

Lemma installBundlerTwo_ok (w1 w2 : World) (v2 : string) :
  installBundlerTwo w1 = (Ok v2, w2) →
  FindMatchingVersion "2.X.X" (AllDependencyVersions "bundler") = Ok v2 ∧
  appHasGemfile w2 = appHasGemfile w1 ∧
  bundlerVersion w2 = bundlerVersion w1 ∧
  log w2 = log w1 ∧
  (∀ q, under bundler2_dir q → fs w2 !! q = None) ∧
  (keeps_outside IN →
   ∀ q, ¬ under bundler2_dir q → is_Some (fs w1 !! q) → is_Some (fs w2 !! q)).
Proof.
  unfold installBundlerTwo, bundler2_dir. go. intros Htwo.
  destruct (FindMatchingVersion "2.X.X" _) as [v|] eqn:Hv; [|discriminate].
  fields.
  destruct (InstallDependency _ _ (fs w1)) as [[[]|] x1] eqn:Hin; [|discriminate].
  fields.
  destruct (MkdirAll _ x1) as [x2|] eqn:Hmk; fields; [|discriminate].
  destruct (CopyDirectory _ _ x2) as [x3|] eqn:Hcd; fields; [|discriminate].
  destruct (CopyFile _ _ x3) as [x4|] eqn:Hcf; fields; [|discriminate].
  injection Htwo as <- <-. fields. repeat split; try reflexivity.
  - intros q Hq. by apply RemoveAll_under.
  - intros Hkeep q Hq Hsome. rewrite RemoveAll_other by done.
    eapply CopyFile_is_Some; [exact Hcf|].
    eapply CopyDirectory_is_Some; [exact Hcd|].
    assert (is_Some (x1 !! q)) as [n Hn].
    { match type of Hin with
      | InstallDependency ?dep ?dir _ = _ => specialize (Hkeep dep dir (fs w1) q Hq Hsome)
      end.
      by rewrite Hin in Hkeep. }
    exists n. eapply MkdirAll_keeps; eauto.
Qed.

Lemma uninstallBundlerTwo_ok (w : World) (v2 : string) :
  FindMatchingVersion "2.X.X" (AllDependencyVersions "bundler") = Ok v2 →
  ∃ w', uninstallBundlerTwo w = (Ok tt, w') ∧
        bundlerVersion w' = bundlerVersion w ∧
        log w' = log w ∧
        fs w' = RemoveAll (bundler2_gemspec v2) (RemoveAll (bundler2_gem v2) (fs w)).
Proof.
  intros Hv. unfold uninstallBundlerTwo. go. rewrite Hv. fields.
  eexists. split; [reflexivity|]. by fields.
Qed.

(** [InstallBundler] once both bundlers are in place: what the
    compatibility test answers decides the rest. *)
Lemma InstallBundler_after_two (w0 w1 w2 : World) (v1 v2 : string) :
  appHasGemfile w0 = true →
  installBundlerOne w0 = (Ok v1, w1) →
  installBundlerTwo (Versions_SetBundlerVersion v1 w1).2 = (Ok v2, w2) →
  InstallBundler w0 =
    (let* ok := Versions_CheckBundler2Compatibility in
     if ok then ret tt
     else Log Warning "Ruby version not compatible with Bundler 2" >>
          Versions_SetBundlerVersion v1 >>
          uninstallBundlerTwo) (Versions_SetBundlerVersion v2 w2).2.
Proof.
  intros Hg Hone Htwo. unfold InstallBundler.
  destruct (installBundlerOne_frame _ _ _ Hone) as (Hg1 & _).
  destruct (installBundlerTwo_ok _ _ _ Htwo) as (_ & Hg2 & _).
  cbv beta delta [bind]. rewrite Hone.
  go. fields. rewrite Hg1, Hg. cbn [negb]. rewrite Htwo. reflexivity.
Qed.
End Bundler.

Section Negotiation.
Context {MF : Manifest} {RS : Resolver} {IN : Installer} {VS : Versions} {ST : Stager}.

Lemma InstallBundler_check_error (w0 w1 w2 : World) (v1 v2 : string) (e : error) :
  appHasGemfile w0 = true →
  installBundlerOne w0 = (Ok v1, w1) →
  installBundlerTwo (Versions_SetBundlerVersion v1 w1).2 = (Ok v2, w2) →
  CheckBundler2Compatibility (fs w2) = Err e →
  ∃ w3, InstallBundler w0 = (Err e, w3).
Proof.
  intros Hg Hone Htwo Hc. rewrite (InstallBundler_after_two w0 w1 w2 v1 v2) by done.
  go. fields. rewrite Hc. eauto.
Qed.

Lemma InstallBundler_compatible (w0 w1 w2 : World) (v1 v2 : string) :
  appHasGemfile w0 = true →
  installBundlerOne w0 = (Ok v1, w1) →
  installBundlerTwo (Versions_SetBundlerVersion v1 w1).2 = (Ok v2, w2) →
  CheckBundler2Compatibility (fs w2) = Ok true →
  ∃ w3, InstallBundler w0 = (Ok tt, w3) ∧ bundlerVersion w3 = v2 ∧ fs w3 = fs w2.
Proof.
  intros Hg Hone Htwo Hc. rewrite (InstallBundler_after_two w0 w1 w2 v1 v2) by done.
  go. fields. rewrite Hc. eexists. split; [reflexivity|]. by fields.
Qed.

Lemma InstallBundler_incompatible (w0 w1 w2 : World) (v1 v2 : string) :
  appHasGemfile w0 = true →
  installBundlerOne w0 = (Ok v1, w1) →
  installBundlerTwo (Versions_SetBundlerVersion v1 w1).2 = (Ok v2, w2) →
  CheckBundler2Compatibility (fs w2) = Ok false →
  ∃ w3, InstallBundler w0 = (Ok tt, w3) ∧
        bundlerVersion w3 = v1 ∧
        log w3 = log w2 ++ [(Warning, "Ruby version not compatible with Bundler 2")] ∧
        fs w3 = RemoveAll (bundler2_gemspec v2) (RemoveAll (bundler2_gem v2) (fs w2)).
Proof.
  intros Hg Hone Htwo Hc. rewrite (InstallBundler_after_two w0 w1 w2 v1 v2) by done.
  destruct (installBundlerTwo_ok _ _ _ Htwo) as (Hv & _).
  go. fields. rewrite Hc.
  match goal with |- context [uninstallBundlerTwo ?w] =>
    destruct (uninstallBundlerTwo_ok w v2 Hv) as (w3 & -> & Hb & Hl & Hf) end.
  exists w3. fields. by rewrite Hb, Hl, Hf.
Qed.

(** C3.  With a Gemfile, once both bundlers are in place: if the
    compatibility test answers no, [InstallBundler] returns with the
    primary version as the active one and with nothing left of the
    secondary bundler, neither in its own directory nor of its gem
    directory and gemspec inside the primary one; if the test answers
    yes, the secondary version is the active one and whatever
    [installBundlerOne] had put below the primary's directory is still
    there.  The installer is one that keeps what lies outside the
    directory it unpacks into. *)
Theorem InstallBundler_negotiation (w0 w1 w2 : World) (v1 v2 : string) :
  appHasGemfile w0 = true →
  installBundlerOne w0 = (Ok v1, w1) →
  installBundlerTwo (Versions_SetBundlerVersion v1 w1).2 = (Ok v2, w2) →
  keeps_outside IN →
  (CheckBundler2Compatibility (fs w2) = Ok false →
   ∃ w3, InstallBundler w0 = (Ok tt, w3) ∧
         bundlerVersion w3 = v1 ∧
         ∀ q, under bundler2_dir q ∨ under (bundler2_gem v2) q ∨
              under (bundler2_gemspec v2) q →
              fs w3 !! q = None) ∧
  (CheckBundler2Compatibility (fs w2) = Ok true →
   ∃ w3, InstallBundler w0 = (Ok tt, w3) ∧
         bundlerVersion w3 = v2 ∧
         ∀ q, under (Join DepDir ["bundler"]) q →
              is_Some (fs w1 !! q) → is_Some (fs w3 !! q)).
Proof.
  intros Hg Hone Htwo Hkeep.
  destruct (installBundlerTwo_ok _ _ _ Htwo) as (_ & _ & _ & _ & Hgone & Hkept).
  split; intros Hc.
  - destruct (InstallBundler_incompatible w0 w1 w2 v1 v2) as (w3 & Hr & Hb & _ & Hf);
      try done.
    exists w3. split; [done|]. split; [done|]. intros q Hq. rewrite Hf.
    destruct Hq as [Hq|[Hq|Hq]].
    + do 2 apply RemoveAll_None. by apply Hgone.
    + apply RemoveAll_None. by apply RemoveAll_under.
    + by apply RemoveAll_under.
  - destruct (InstallBundler_compatible w0 w1 w2 v1 v2) as (w3 & Hr & Hb & Hf); try done.
    exists w3. split; [done|]. split; [done|]. intros q Hq Hsome. rewrite Hf.
    apply Hkept; [done| |done].
    unfold bundler2_dir, Join in *. destruct Hq as [k ->].
    intros [k' Hk]. rewrite <- !app_assoc in Hk. apply app_inv_head in Hk. discriminate.
Qed.
End Negotiation.

(** The installer of the staging run keeps what lies outside its target. *)
Lemma unpack_keeps_outside contents :
  keeps_outside {| InstallDependency := Staging.unpack contents;
                   InstallOnlyVersion name dir x := (Err (EMsg name), x) |}.
Proof.
  intros dep dir x q Hq [n Hn]. simpl. unfold Staging.unpack.
  destruct (contents dep) as [entries|]; [|by eexists].
  destruct (MkdirAll dir x) as [x'|] eqn:Hm; [|by eexists]. simpl.
  rewrite graft_other by done. exists n. eapply MkdirAll_keeps; eauto.
Qed.

Lemma Staging_installer_keeps_outside : keeps_outside Staging.installer.
Proof.
  intros dep dir x q Hq Hn.
  exact (unpack_keeps_outside Staging.archive dep dir x q Hq Hn).
Qed.

(** The two installations of the staging run, as the theorems want them. *)
Lemma Staging_bundlers :
  let w0 := Staging.world Staging.app_fs true in
  let w1 := (installBundlerOne (MF := Staging.manifest_yml) (RS := Staging.resolver)
               (IN := Staging.installer) (ST := Staging.stager) w0).2 in
  let w2 := (installBundlerTwo (MF := Staging.manifest_yml) (RS := Staging.resolver)
               (IN := Staging.installer) (ST := Staging.stager)
               (Versions_SetBundlerVersion "1.17.3" w1).2).2 in
  installBundlerOne (MF := Staging.manifest_yml) (RS := Staging.resolver)
    (IN := Staging.installer) (ST := Staging.stager) w0 = (Ok "1.17.3", w1) ∧
  installBundlerTwo (MF := Staging.manifest_yml) (RS := Staging.resolver)
    (IN := Staging.installer) (ST := Staging.stager)
    (Versions_SetBundlerVersion "1.17.3" w1).2 = (Ok "2.0.1", w2).
Proof.
  intros w0 w1 w2. split.
  - assert ((installBundlerOne (MF := Staging.manifest_yml) (RS := Staging.resolver)
               (IN := Staging.installer) (ST := Staging.stager) w0).1 = Ok "1.17.3") as <-
      by (vm_compute; reflexivity).
    apply surjective_pairing.
  - assert ((installBundlerTwo (MF := Staging.manifest_yml) (RS := Staging.resolver)
               (IN := Staging.installer) (ST := Staging.stager)
               (Versions_SetBundlerVersion "1.17.3" w1).2).1 = Ok "2.0.1") as <-
      by (vm_compute; reflexivity).
    apply surjective_pairing.
Defined.

(** The staging run with a ruby that bundler 2 does not suit, and with one
    that it suits. *)
Lemma InstallBundler_negotiation_witness :
  let w0 := Staging.world Staging.app_fs true in
  let run compatible :=
    InstallBundler (MF := Staging.manifest_yml) (RS := Staging.resolver)
      (IN := Staging.installer) (VS := Staging.versions "ruby" "2.6.3" (Ok compatible))
      (ST := Staging.stager) w0 in
  (∃ w3, run false = (Ok tt, w3) ∧ bundlerVersion w3 = "1.17.3" ∧
         fs w3 !! ["home"; "vcap"; "deps"; "0"; "bundler"; "gems"; "bundler-2.0.1"] = None) ∧
  (∃ w3, run true = (Ok tt, w3) ∧ bundlerVersion w3 = "2.0.1" ∧
         is_Some (fs w3 !! ["home"; "vcap"; "deps"; "0"; "bundler"; "bin"; "bundle"])).
Proof.
  intros w0 run. subst run. cbv beta.
  pose proof Staging_bundlers as Hboth. cbv zeta in Hboth. fold w0 in Hboth.
  destruct Hboth as [Hone Htwo].
  split.
  - destruct (proj1 (InstallBundler_negotiation (MF := Staging.manifest_yml)
                       (RS := Staging.resolver) (IN := Staging.installer)
                       (VS := Staging.versions "ruby" "2.6.3" (Ok false))
                       (ST := Staging.stager) w0 _ _ "1.17.3" "2.0.1"
                       eq_refl Hone Htwo Staging_installer_keeps_outside) eq_refl)
      as (w3 & Hr & Hb & Hgone).
    exists w3. split; [exact Hr|]. split; [exact Hb|].
    apply Hgone. right. left. exists []. reflexivity.
  - destruct (proj2 (InstallBundler_negotiation (MF := Staging.manifest_yml)
                       (RS := Staging.resolver) (IN := Staging.installer)
                       (VS := Staging.versions "ruby" "2.6.3" (Ok true))
                       (ST := Staging.stager) w0 _ _ "1.17.3" "2.0.1"
                       eq_refl Hone Htwo Staging_installer_keeps_outside) eq_refl)
      as (w3 & Hr & Hb & Hkept).
    exists w3. split; [exact Hr|]. split; [exact Hb|].
    apply Hkept.
    + exists ["bin"; "bundle"]. reflexivity.
    + vm_compute. eauto.
Defined.

(** ** The run as a whole *)

Section WholeRun.
Context {MF : Manifest} {RS : Resolver} {IN : Installer} {VS : Versions}
        {ST : Stager} {CM : Command} {TD : TempDir} {CA : Cache} {SS : Steps}.

(** An error of [InstallBundler] ends [Run]: the error is logged and
    returned, and the world is the one [InstallBundler] left. *)
Lemma Run_stops_at_bundler_error (w w0 w3 : World) (e : error) :
  prepare w = (Ok tt, w0) →
  InstallBundler w0 = (Err e, w3) →
  Run w = (Err e, set_log (log w3 ++ [(ErrorLevel, "Unable to install bundler: " +:+ Error e)]) w3).
Proof.
  intros Hp Hb. unfold Run. cbv beta delta [bind orLog try]. rewrite Hp, Hb.
  reflexivity.
Qed.

(** C4.  With a Gemfile, once both bundlers are in place: an error of
    the compatibility test is the error [InstallBundler] returns, and
    [Run] ends there with that error; the answer no makes
    [InstallBundler] log the warning, take the primary version back as
    the active one and return nil. *)
Theorem InstallBundler_compatibility_test (w0 w1 w2 : World) (v1 v2 : string) :
  appHasGemfile w0 = true →
  installBundlerOne w0 = (Ok v1, w1) →
  installBundlerTwo (Versions_SetBundlerVersion v1 w1).2 = (Ok v2, w2) →
  (∀ e, CheckBundler2Compatibility (fs w2) = Err e →
        (∃ w3, InstallBundler w0 = (Err e, w3)) ∧
        (∀ w, prepare w = (Ok tt, w0) → (Run w).1 = Err e)) ∧
  (CheckBundler2Compatibility (fs w2) = Ok false →
   ∃ w3, InstallBundler w0 = (Ok tt, w3) ∧
         bundlerVersion w3 = v1 ∧
         log w3 = log w2 ++ [(Warning, "Ruby version not compatible with Bundler 2")]).
Proof.
  intros Hg Hone Htwo. split.
  - intros e Hc.
    destruct (InstallBundler_check_error w0 w1 w2 v1 v2 e) as [w3 Hr]; try done.
    split; [by exists w3|].
    intros w Hp. by rewrite (Run_stops_at_bundler_error w w0 w3 e).
  - intros Hc.
    destruct (InstallBundler_incompatible w0 w1 w2 v1 v2) as (w3 & Hr & Hb & Hl & _);
      try done.
    by exists w3.
Qed.
End WholeRun.

(** The staging run when the compatibility test cannot be made, and when
    it answers no. *)
Lemma InstallBundler_compatibility_test_witness :
  let w0 := Staging.world Staging.app_fs true in
  let run answer :=
    InstallBundler (MF := Staging.manifest_yml) (RS := Staging.resolver)
      (IN := Staging.installer) (VS := Staging.versions "ruby" "2.6.3" answer)
      (ST := Staging.stager) w0 in
  (∃ w3, run (Err (EMsg "exit status 1")) = (Err (EMsg "exit status 1"), w3)) ∧
  (∃ w3, run (Ok false) = (Ok tt, w3) ∧ bundlerVersion w3 = "1.17.3" ∧
         log w3 = [(Warning, "Ruby version not compatible with Bundler 2")]).
Proof.
  intros w0 run. subst run. cbv beta.
  pose proof Staging_bundlers as Hboth. cbv zeta in Hboth. fold w0 in Hboth.
  destruct Hboth as [Hone Htwo].
  pose (CA := {| Restore := ret tt; Save := ret tt |}).
  pose (SS := {| Stager_WriteProfileD _ _ := ret tt; Stager_SetStagingEnvironment := ret tt;
                 Command_Execute _ _ _ := ret tt; EnableLDLibraryPathEnv := ret tt;
                 InstallJVM := ret tt; InstallRuby _ _ := ret tt; UpdateRubygems := ret tt;
                 InstallNode := ret tt; InstallYarn := ret tt; RewriteShebangs := ret tt;
                 SymlinkBundlerIntoRubygems := ret tt; WriteProfileD _ := ret tt |}).
  split.
  - exact (proj1 (proj1 (InstallBundler_compatibility_test (MF := Staging.manifest_yml)
                    (RS := Staging.resolver) (IN := Staging.installer)
                    (VS := Staging.versions "ruby" "2.6.3" (Err (EMsg "exit status 1")))
                    (ST := Staging.stager) (CM := Staging.command (Ok tt))
                    (TD := LinuxTempDir "1" "") (CA := CA) (SS := SS)
                    w0 _ _ "1.17.3" "2.0.1" eq_refl Hone Htwo)
                  (EMsg "exit status 1") eq_refl)).
  - destruct (proj2 (InstallBundler_compatibility_test (MF := Staging.manifest_yml)
                    (RS := Staging.resolver) (IN := Staging.installer)
                    (VS := Staging.versions "ruby" "2.6.3" (Ok false))
                    (ST := Staging.stager) (CM := Staging.command (Ok tt))
                    (TD := LinuxTempDir "1" "") (CA := CA) (SS := SS)
                    w0 _ _ "1.17.3" "2.0.1" eq_refl Hone Htwo) eq_refl)
      as (w3 & Hr & Hb & Hl).
    exists w3. split; [exact Hr|]. split; [exact Hb|]. rewrite Hl.
    match goal with |- log ?w ++ _ = _ => assert (log w = []) as -> by (vm_compute; reflexivity) end.
    reflexivity.
Defined.

(** ** The environment materializer *)

Section Environment.
Context {ST : Stager}.
Implicit Types (environment : list (string * string)) (w : World).

Lemma writeEnvFiles_nil clobber w : writeEnvFiles [] clobber w = (Ok tt, w).
Proof. reflexivity. Qed.

(** One turn of the loop. *)
Lemma writeEnvFiles_cons name value environment clobber w :
  writeEnvFiles ((name, value) :: environment) clobber w =
    if bool_decide (Getenv name w = "") || clobber then
      match WriteEnvFile_err name value with
      | None => writeEnvFiles environment clobber (applied name value w)
      | Some e =>
          (Err e, set_trace (trace w ++ [EvWriteEnvFile name value])
                    (set_environ (<[name := value]> (environ w)) w))
      end
    else writeEnvFiles environment clobber w.
Proof.
  unfold writeEnvFiles at 1. cbn [forEach]. fold (writeEnvFiles environment clobber).
  go. fields. cbn [fst snd].
  destruct (bool_decide (Getenv name w = "") || clobber); [|reflexivity].
  fields. destruct (WriteEnvFile_err name value); reflexivity.
Qed.

(** What a successful application has done to each variable. *)
Lemma writeEnvFiles_ok environment clobber w0 w1 :
  NoDup environment.*1 →
  writeEnvFiles environment clobber w0 = (Ok tt, w1) →
  ∀ name,
    (name ∉ environment.*1 →
     environ w1 !! name = environ w0 !! name ∧ envFiles w1 !! name = envFiles w0 !! name) ∧
    (∀ value, (name, value) ∈ environment →
       if bool_decide (Getenv name w0 = "") || clobber
       then environ w1 !! name = Some value ∧ envFiles w1 !! name = Some value ∧
            WriteEnvFile_err name value = None
       else environ w1 !! name = environ w0 !! name ∧
            envFiles w1 !! name = envFiles w0 !! name).
Proof.
  revert w0. induction environment as [|[n v] environment IH]; intros w0 Hnd Hrun name.
  - rewrite writeEnvFiles_nil in Hrun. injection Hrun as <-.
    split; [done|]. intros value Hin. by apply elem_of_nil in Hin.
  - rewrite writeEnvFiles_cons in Hrun. cbn [fmap list_fmap fst] in Hnd.
    apply NoDup_cons in Hnd as [Hn Hnd].
    assert (∀ w, writeEnvFiles environment clobber w = (Ok tt, w1) →
                 environ w1 !! n = environ w !! n ∧ envFiles w1 !! n = envFiles w !! n)
      as Hlater.
    { intros w Hw. by apply (IH w Hnd Hw n). }
    destruct (bool_decide (Getenv n w0 = "") || clobber) eqn:Hset.
    + destruct (WriteEnvFile_err n v) eqn:Herr; [discriminate|].
      specialize (IH _ Hnd Hrun name) as [IHout IHin]. split.
      * intros Hout. cbn [fmap list_fmap fst] in Hout.
        apply not_elem_of_cons in Hout as [Hne Hout].
        destruct (IHout Hout) as [-> ->]. unfold applied. fields.
        by rewrite !lookup_insert_ne.
      * intros value Hin. apply elem_of_cons in Hin as [Heq|Hin].
        -- injection Heq as -> ->. rewrite Hset.
           destruct (Hlater _ Hrun) as [-> ->]. unfold applied. fields.
           by rewrite !lookup_insert_eq.
        -- assert (name ≠ n) as Hne.
           { intros ->. apply Hn. apply list_elem_of_fmap. by exists (n, value). }
           specialize (IHin value Hin). unfold Getenv, applied in IHin. fields.
           rewrite !lookup_insert_ne in IHin by done. exact IHin.
    + specialize (IH _ Hnd Hrun name) as [IHout IHin]. split.
      * intros Hout. cbn [fmap list_fmap fst] in Hout.
        apply not_elem_of_cons in Hout as [Hne Hout]. by apply IHout.
      * intros value Hin. apply elem_of_cons in Hin as [Heq|Hin].
        -- injection Heq as -> ->. rewrite Hset. by apply Hlater.
        -- by apply IHin.
Qed.

(** An application that has nothing to change: every variable either
    has a value already, or is set to the empty string it is to get and
    the env file holding it can be written again. *)
Lemma writeEnvFiles_settled environment w0 :
  (∀ name value, (name, value) ∈ environment →
     Getenv name w0 ≠ "" ∨
     (value = "" ∧ environ w0 !! name = Some "" ∧ envFiles w0 !! name = Some "" ∧
      WriteEnvFile_err name "" = None)) →
  ∃ w1, writeEnvFiles environment false w0 = (Ok tt, w1) ∧
        environ w1 = environ w0 ∧ envFiles w1 = envFiles w0.
Proof.
  revert w0. induction environment as [|[n v] environment IH]; intros w0 Hall.
  - exists w0. by rewrite writeEnvFiles_nil.
  - rewrite writeEnvFiles_cons.
    destruct (Hall n v) as [Hset|(-> & Henv & Hfile & Herr)]; [by left|..].
    + rewrite bool_decide_eq_false_2 by done. cbn [orb].
      apply IH. intros name value Hin. apply Hall. by right.
    + assert (Getenv n w0 = "") as Hget by (unfold Getenv; by rewrite Henv).
      rewrite bool_decide_eq_true_2 by done. cbn [orb]. rewrite Herr.
      assert (environ (applied n "" w0) = environ w0) as Henv'.
      { unfold applied. fields. by apply insert_id. }
      assert (envFiles (applied n "" w0) = envFiles w0) as Hfile'.
      { unfold applied. fields. by apply insert_id. }
      destruct (IH (applied n "" w0)) as (w1 & Hrun & He & Hf).
      { intros name value Hin. unfold Getenv. rewrite Henv', Hfile'.
        apply Hall. by right. }
      exists w1. split; [done|]. by rewrite He, Hf.
Qed.
End Environment.

Section Materializer.
Context {ST : Stager}.

(** C6, as the code has it.  For a defaults mapping whose application
    returns nil: applying it once more without overwriting, in whatever
    order the entries are visited, returns nil again and leaves the
    process environment and the env files as the first application left
    them.  Without overwriting a variable is set, and its env file
    written, exactly when [os.Getenv] has the empty string for it, that
    is when it is not set or set to the empty string; otherwise the
    variable and its env file stay as they are.  With overwriting every
    variable is set and its env file written, whatever was there. *)
Theorem writeEnvFiles_precedence
  (environment environment' : list (string * string)) (w0 w1 : World) :
  NoDup environment.*1 →
  environment' ≡ₚ environment →
  (writeEnvFiles environment false w0 = (Ok tt, w1) →
   (∃ w2, writeEnvFiles environment' false w1 = (Ok tt, w2) ∧
          environ w2 = environ w1 ∧ envFiles w2 = envFiles w1) ∧
   (∀ name value, (name, value) ∈ environment →
      if bool_decide (Getenv name w0 = "")
      then environ w1 !! name = Some value ∧ envFiles w1 !! name = Some value
      else environ w1 !! name = environ w0 !! name ∧
           envFiles w1 !! name = envFiles w0 !! name)) ∧
  (writeEnvFiles environment true w0 = (Ok tt, w1) →
   ∀ name value, (name, value) ∈ environment →
     environ w1 !! name = Some value ∧ envFiles w1 !! name = Some value).
Proof.
  intros Hnd Hperm. split; intros Hrun.
  - pose proof (writeEnvFiles_ok environment false w0 w1 Hnd Hrun) as Hok. split.
    + apply writeEnvFiles_settled. intros name value Hin. rewrite Hperm in Hin.
      destruct (Hok name) as [_ Hin']. specialize (Hin' value Hin).
      rewrite orb_false_r in Hin'.
      destruct (bool_decide (Getenv name w0 = "")) eqn:Hget.
      * destruct Hin' as (Henv & Hfile & Herr).
        destruct (decide (value = "")) as [->|Hne]; [by right|].
        left. unfold Getenv. by rewrite Henv.
      * destruct Hin' as [Henv _]. apply bool_decide_eq_false in Hget.
        left. unfold Getenv in *. by rewrite Henv.
    + intros name value Hin. destruct (Hok name) as [_ Hin'].
      specialize (Hin' value Hin). rewrite orb_false_r in Hin'.
      destruct (bool_decide (Getenv name w0 = "")); [|done]. by destruct Hin' as (? & ? & _).
  - intros name value Hin.
    destruct (writeEnvFiles_ok environment true w0 w1 Hnd Hrun name) as [_ Hin'].
    specialize (Hin' value Hin). rewrite orb_true_r in Hin'. by destruct Hin' as (? & ? & _).
Qed.
End Materializer.

(** Defaults applied to a process that has [RACK_ENV] from outside: once
    without overwriting, then once more in the other order, and once with
    overwriting. *)
Lemma writeEnvFiles_precedence_witness :
  let defaults := [("RAILS_ENV", "production"); ("RACK_ENV", "production")] in
  let w0 := set_environ {["RACK_ENV" := "test"]} (Staging.world Staging.app_fs true) in
  let w1 := (writeEnvFiles (ST := Staging.stager) defaults false w0).2 in
  let w1' := (writeEnvFiles (ST := Staging.stager) defaults true w0).2 in
  (∃ w2, writeEnvFiles (ST := Staging.stager) (reverse defaults) false w1 = (Ok tt, w2) ∧
         environ w2 = environ w1 ∧ envFiles w2 = envFiles w1) ∧
  environ w1 !! "RACK_ENV" = Some "test" ∧
  environ w1' !! "RACK_ENV" = Some "production".
Proof.
  intros defaults w0 w1 w1'.
  assert (NoDup defaults.*1) as Hnd.
  { apply (bool_decide_unpack (NoDup defaults.*1)). vm_compute. exact I. }
  assert (reverse defaults ≡ₚ defaults) as Hperm by apply reverse_Permutation.
  destruct (writeEnvFiles_precedence (ST := Staging.stager) defaults (reverse defaults)
              w0 w1 Hnd Hperm) as [Hfalse _].
  destruct (writeEnvFiles_precedence (ST := Staging.stager) defaults (reverse defaults)
              w0 w1' Hnd Hperm) as [_ Htrue].
  destruct (Hfalse eq_refl) as [Hagain Hset]. split; [exact Hagain|]. split.
  - specialize (Hset "RACK_ENV" "production"). cbv beta in Hset.
    assert (environ w0 !! "RACK_ENV" = Some "test") as <- by reflexivity.
    apply Hset. apply list_elem_of_In. right. left. reflexivity.
  - apply (Htrue eq_refl "RACK_ENV" "production"). apply list_elem_of_In. right. left.
    reflexivity.
Defined.

(** C6 as the spec words it does not hold: a variable that is present in
    the process environment with the empty string as its value is set
    although nothing is to be overwritten. *)
Lemma writeEnvFiles_sets_present_variable :
  ¬ (∀ (w0 : World) (name value : string),
       is_Some (environ w0 !! name) →
       environ (writeEnvFiles (ST := Staging.stager) [(name, value)] false w0).2 !! name
       = environ w0 !! name).
Proof.
  intros Hclaim.
  specialize (Hclaim (set_environ {["RAILS_ENV" := ""]} (Staging.world Staging.app_fs true))
                     "RAILS_ENV" "production").
  assert (Some "production" = Some "") as Habs; [|discriminate].
  apply Hclaim. eexists. reflexivity.
Qed.

(** ** The order of the walk *)

Section Lex.
Context {A : Type} `{EqDecision A} (R : relation A).
Context `{!Transitive R, !AntiSymm (=) R, !Total R}.

Lemma lex_refl (l : list A) : lex R l l.
Proof. induction l; simpl; auto. Qed.

Global Instance lex_trans : Transitive (lex R).
Proof.
  intros l1. induction l1 as [|x l1 IH]; intros [|y l2] [|z l3]; simpl; try tauto.
  intros [[Hxy Hne]|[-> H12]] [[Hyz Hne']|[-> H23]].
  - left. split; [by transitivity y|]. intros ->. apply Hne. by apply (anti_symm R).
  - by left.
  - by left.
  - right. split; [done|]. by apply (IH l2).
Qed.

Global Instance lex_antisym : AntiSymm (=) (lex R).
Proof.
  intros l1. induction l1 as [|x l1 IH]; intros [|y l2]; simpl; try tauto.
  intros [[Hxy Hne]|[-> H12]] [[Hyx Hne']|[Heq H21]]; try congruence.
  - destruct Hne. by apply (anti_symm R).
  - f_equal. by apply IH.
Qed.

Global Instance lex_total : Total (lex R).
Proof.
  intros l1. induction l1 as [|x l1 IH]; intros [|y l2]; simpl; try tauto.
  destruct (decide (x = y)) as [->|Hne].
  - destruct (IH l2); [left|right]; right; auto.
  - destruct (total R x y); [left|right]; left; auto.
Qed.
End Lex.

Global Instance N_le_trans : Transitive N.le.
Proof. intros x y z. lia. Qed.
Global Instance N_le_antisym : AntiSymm (=) N.le.
Proof. intros x y. lia. Qed.
Global Instance N_le_total : Total N.le.
Proof. intros x y. lia. Qed.

Lemma bytes_inj (a b : string) : bytes a = bytes b → a = b.
Proof.
  unfold bytes. intros Heq.
  rewrite <- (string_of_list_ascii_of_string a), <- (string_of_list_ascii_of_string b).
  f_equal. revert Heq. generalize (list_ascii_of_string a) (list_ascii_of_string b).
  intros l1. induction l1 as [|c l1 IH]; intros [|d l2] Heq; try done.
  simpl in Heq. injection Heq as Hc Hl. f_equal; [|by apply IH].
  rewrite <- (ascii_N_embedding c), <- (ascii_N_embedding d). by rewrite Hc.
Qed.

Global Instance name_le_trans : Transitive name_le.
Proof. intros a b c. unfold name_le. apply lex_trans; apply _. Qed.
Global Instance name_le_antisym : AntiSymm (=) name_le.
Proof.
  intros a b Hab Hba. apply bytes_inj. by apply (anti_symm (lex N.le)).
Qed.
Global Instance name_le_total : Total name_le.
Proof. intros a b. unfold name_le. apply lex_total; apply _. Qed.

Global Instance path_le_trans : Transitive path_le.
Proof. exact (lex_trans name_le). Qed.
Global Instance path_le_antisym : AntiSymm (=) path_le.
Proof. exact (lex_antisym name_le). Qed.
Global Instance path_le_total : Total path_le.
Proof. exact (lex_total name_le). Qed.

(** The walk is the one sorted list of the paths below the root. *)
Lemma Walk_Sorted (root : path) (x : FS) : Sorted path_le (Walk root x).
Proof. unfold Walk. apply (Sorted_merge_sort path_le). Qed.

Lemma Walk_elem_of (root : path) (x : FS) (p : path) :
  p ∈ Walk root x ↔ under root p ∧ is_Some (x !! p).
Proof.
  unfold Walk. rewrite merge_sort_Permutation, list_elem_of_filter.
  rewrite list_elem_of_fmap. split.
  - intros [Hu [[q n] [-> Hin]]]. split; [done|]. apply elem_of_map_to_list in Hin. eauto.
  - intros [Hu [n Hn]]. split; [done|]. exists (p, n). split; [done|].
    by apply elem_of_map_to_list.
Qed.

Lemma Walk_NoDup (root : path) (x : FS) : NoDup (Walk root x).
Proof.
  unfold Walk. rewrite merge_sort_Permutation. apply NoDup_filter, NoDup_fst_map_to_list.
Qed.

(** A sorted list without repetition is fixed by its elements. *)
Lemma sorted_paths_unique (l1 l2 : list path) :
  Sorted path_le l1 → Sorted path_le l2 → NoDup l1 → NoDup l2 →
  (∀ p, p ∈ l1 ↔ p ∈ l2) → l1 = l2.
Proof.
  intros Hs1 Hs2 Hn1 Hn2 Hel. apply (Sorted_unique path_le); [done..|].
  by apply NoDup_Permutation.
Qed.

Lemma Sorted_filter_paths (P : path → Prop) `{∀ p, Decision (P p)} (l : list path) :
  Sorted path_le l → Sorted path_le (filter P l).
Proof.
  intros Hs. apply StronglySorted_Sorted. apply Sorted_StronglySorted in Hs; [|apply _].
  induction Hs as [|p l Hs IH Hall]; [constructor|].
  rewrite filter_cons. destruct (decide (P p)); [|done].
  constructor; [done|]. apply Forall_forall. intros q Hq.
  apply list_elem_of_filter in Hq as [_ Hq]. rewrite Forall_forall in Hall. by apply Hall.
Qed.

(** ** Byte strings *)

Lemma append_nil_r (s : string) : s +:+ "" = s.
Proof. induction s as [|c s IH]; [done|]. cbv [String.append]. fold String.append. by rewrite IH. Qed.

Lemma append_assoc (a b c : string) : (a +:+ b) +:+ c = a +:+ b +:+ c.
Proof.
  induction a as [|x a IH]; [done|].
  change ((String x a +:+ b) +:+ c) with (String x ((a +:+ b) +:+ c)).
  change (String x a +:+ b +:+ c) with (String x (a +:+ b +:+ c)). by rewrite IH.
Qed.

Lemma length_append (a b : string) :
  String.length (a +:+ b) = String.length a + String.length b.
Proof.
  induction a as [|x a IH]; [done|].
  change (String x a +:+ b) with (String x (a +:+ b)). simpl. by rewrite IH.
Qed.

Lemma length_zero (s : string) : String.length s = 0 → s = "".
Proof. by destruct s. Qed.

Lemma append_inv_tail (a b s : string) : a +:+ s = b +:+ s → a = b.
Proof.
  revert b. induction a as [|x a IH]; intros [|y b] Heq; [done| | |].
  - apply (f_equal String.length) in Heq.
    change (String y b +:+ s) with (String y (b +:+ s)) in Heq.
    change ("" +:+ s) with s in Heq. simpl in Heq. rewrite length_append in Heq. lia.
  - apply (f_equal String.length) in Heq.
    change (String x a +:+ s) with (String x (a +:+ s)) in Heq.
    change ("" +:+ s) with s in Heq. simpl in Heq. rewrite length_append in Heq. lia.
  - change (String x (a +:+ s) = String y (b +:+ s)) in Heq.
    injection Heq as -> Heq. f_equal. by apply IH.
Qed.

Lemma concat_empty_cons (a : string) (l : list string) :
  String.concat "" (a :: l) = a +:+ String.concat "" l.
Proof. destruct l; simpl; [by rewrite append_nil_r | done]. Qed.

Lemma concat_empty_app (l1 l2 : list string) :
  String.concat "" (l1 ++ l2) = String.concat "" l1 +:+ String.concat "" l2.
Proof.
  induction l1 as [|a l1 IH]; [done|].
  rewrite <- app_comm_cons, !concat_empty_cons, IH. by rewrite append_assoc.
Qed.

(** A relative path that is not the single empty name is not the empty
    string. *)
Lemma rel_string_nonempty (rel : list string) : rel ≠ [""] → rel_string rel ≠ "".
Proof.
  destruct rel as [|a [|b rel]]; simpl; [done| |].
  - intros Hne ->. done.
  - intros _ Heq. apply (f_equal String.length) in Heq.
    rewrite !length_append in Heq. simpl in Heq. lia.
Qed.

(** ** The fingerprint *)

Lemma strip_common_app (base rest : path) : strip_common base (base ++ rest) = ([], rest).
Proof.
  induction base as [|b base IH]; simpl; [by destruct rest|].
  by rewrite decide_True.
Qed.

Lemma Rel_under (base rest : path) : Rel base (Absolute (base ++ rest)) = Ok rest.
Proof. unfold Rel, relative_to. by rewrite strip_common_app. Qed.

Section Fingerprint.
Context {ST : Stager}.

(** The walk function adds the contribution of the file it is at. *)
Lemma walkFn_contribution (x : FS) (h : string) (p : path) :
  walkFn BuildDir x h p = Ok (h +:+ contribution x p).
Proof.
  unfold walkFn, contribution. destruct (x !! p) as [[data|]|]; try by rewrite append_nil_r.
  destruct (Rel BuildDir (Absolute p)) as [rel|e] eqn:Hrel.
  - destruct (HasPrefix (rel_string rel) ".cloudfoundry/"); [by rewrite append_nil_r|done].
  - discriminate Hrel.
Qed.

Lemma walkAll_contributions (x : FS) (h : string) (paths : list path) :
  walkAll (walkFn BuildDir x) h paths
  = Ok (h +:+ String.concat "" (contribution x <$> paths)).
Proof.
  revert h. induction paths as [|p paths IH]; intros h.
  - simpl. by rewrite append_nil_r.
  - cbn [walkAll]. rewrite walkFn_contribution, IH, fmap_cons, concat_empty_cons.
    by rewrite append_assoc.
Qed.

(** The digest is MD5 of the hashed bytes, and the world is not touched. *)
Lemma CalcChecksum_hashed (w0 : World) :
  Exists BuildDir (fs w0) = true →
  CalcChecksum w0 = (Ok (md5.hex (md5.Sum (hashed (fs w0)))), w0).
Proof.
  intros Hex. unfold CalcChecksum. rewrite Hex. cbn [negb].
  by rewrite walkAll_contributions.
Qed.
End Fingerprint.

Lemma filter_all {A} (P : A → Prop) `{∀ a, Decision (P a)} (l : list A) :
  (∀ a, a ∈ l → P a) → filter P l = l.
Proof.
  induction l as [|a l IH]; intros Hall; [done|].
  rewrite filter_cons, decide_True by (apply Hall; left).
  f_equal. apply IH. intros b Hb. apply Hall. by right.
Qed.

Lemma split_unique {A} (l1 l2 k1 k2 : list A) (a : A) :
  a ∉ l1 → a ∉ k1 → l1 ++ a :: l2 = k1 ++ a :: k2 → l1 = k1 ∧ l2 = k2.
Proof.
  revert k1. induction l1 as [|b l1 IH]; intros [|c k1] Hl Hk Heq; simpl in Heq.
  - by injection Heq as <-.
  - injection Heq as <- _. destruct Hk. left.
  - injection Heq as -> _. destruct Hl. left.
  - injection Heq as <- Heq. destruct (IH k1) as [<- <-]; [| |done|done].
    + intros Hin. apply Hl. by right.
    + intros Hin. apply Hk. by right.
Qed.

Lemma fmap_agree {A B} (f g : A → B) (l : list A) :
  (∀ a, a ∈ l → f a = g a) → f <$> l = g <$> l.
Proof.
  induction l as [|a l IH]; intros Hall; [done|].
  rewrite !fmap_cons, Hall by left. f_equal. apply IH. intros b Hb. apply Hall. by right.
Qed.

Lemma concat_skip (f : path → string) (P : path → Prop) `{∀ p, Decision (P p)}
  (l : list path) :
  (∀ p, p ∈ l → ¬ P p → f p = "") →
  String.concat "" (f <$> l) = String.concat "" (f <$> filter P l).
Proof.
  induction l as [|p l IH]; intros Hskip; [done|].
  rewrite fmap_cons, concat_empty_cons, filter_cons.
  rewrite IH by (intros q Hq; apply Hskip; by right).
  destruct (decide (P p)) as [Hp|Hp].
  - by rewrite fmap_cons, concat_empty_cons.
  - by rewrite (Hskip p) by (done || left).
Qed.

Section Sensitivity.
Context {ST : Stager}.
Implicit Types (x : FS) (p q : path).

Lemma contribution_skipped x p : skipped p = true → contribution x p = "".
Proof.
  unfold skipped, contribution. intros Hs. destruct (x !! p) as [[data|]|]; try done.
  destruct (Rel BuildDir (Absolute p)); [by rewrite Hs|done].
Qed.

Lemma contribution_counted x p rest data :
  p = BuildDir ++ rest → skipped p = false → x !! p = Some (File data) →
  contribution x p = rel_string rest +:+ data.
Proof.
  intros -> Hs Hp. unfold skipped, contribution in *. rewrite Hp.
  rewrite Rel_under in *. by rewrite Hs.
Qed.

Lemma contribution_agree x x' p : x' !! p = x !! p → contribution x' p = contribution x p.
Proof. unfold contribution. by intros ->. Qed.

Lemma hidden_skipped p : hidden p → skipped p = true.
Proof.
  intros (name & rest & ->). unfold skipped. rewrite Rel_under.
  unfold rel_string, HasPrefix. destruct rest, name; vm_compute; reflexivity.
Qed.

Lemma hidden_under p : hidden p → under BuildDir p.
Proof. intros (name & rest & ->). by eexists. Qed.

(** What is hashed depends on the files that count only. *)
Lemma hashed_agree x x' :
  (∀ q, under BuildDir q → skipped q = false → x' !! q = x !! q) →
  hashed x' = hashed x.
Proof.
  intros Hag. unfold hashed.
  rewrite (concat_skip (contribution x') (λ p, skipped p = false));
    [|intros p _ Hp; apply contribution_skipped; by destruct (skipped p)].
  rewrite (concat_skip (contribution x) (λ p, skipped p = false));
    [|intros p _ Hp; apply contribution_skipped; by destruct (skipped p)].
  assert (filter (λ p, skipped p = false) (Walk BuildDir x')
          = filter (λ p, skipped p = false) (Walk BuildDir x)) as ->.
  { apply sorted_paths_unique.
    - apply Sorted_filter_paths, Walk_Sorted.
    - apply Sorted_filter_paths, Walk_Sorted.
    - apply NoDup_filter, Walk_NoDup.
    - apply NoDup_filter, Walk_NoDup.
    - intros p. rewrite !list_elem_of_filter, !Walk_elem_of.
      split; intros (Hs & Hu & Hsome); (split; [done|]); (split; [done|]).
      + by rewrite <- Hag.
      + by rewrite Hag. }
  f_equal. apply fmap_agree. intros p Hp.
  apply list_elem_of_filter in Hp as [Hs Hp]. apply Walk_elem_of in Hp as [Hu _].
  apply contribution_agree. by apply Hag.
Qed.

(** The hashed bytes around one path of the walk. *)
Lemma hashed_split x p :
  under BuildDir p → is_Some (x !! p) →
  ∃ l1 l2, Walk BuildDir x = l1 ++ p :: l2 ∧ p ∉ l1 ∧ p ∉ l2 ∧
           hashed x = (String.concat "" (contribution x <$> l1))
                      +:+ (contribution x p)
                      +:+ (String.concat "" (contribution x <$> l2)).
Proof.
  intros Hu Hsome.
  assert (p ∈ Walk BuildDir x) as Hin by by apply Walk_elem_of.
  apply list_elem_of_split in Hin as (l1 & l2 & Hw). exists l1, l2.
  pose proof (Walk_NoDup BuildDir x) as Hnd. rewrite Hw in Hnd.
  apply NoDup_app in Hnd as (_ & Hl1 & Hnd). apply NoDup_cons in Hnd as [Hl2 _].
  split; [done|]. split; [|split; [done|]].
  - intros Hp. apply (Hl1 p Hp). left.
  - unfold hashed. rewrite Hw, fmap_app, fmap_cons, concat_empty_app, concat_empty_cons.
    reflexivity.
Qed.

(** Changing the bytes of one file that counts changes what is hashed. *)
Lemma hashed_change x p data data' :
  under BuildDir p → skipped p = false →
  x !! p = Some (File data) → data' ≠ data →
  hashed (<[p := File data']> x) ≠ hashed x.
Proof.
  intros Hu Hs Hp Hne Heq. set (x' := <[p := File data']> x) in *.
  assert (Walk BuildDir x' = Walk BuildDir x) as Hwalk.
  { apply sorted_paths_unique; try apply Walk_Sorted; try apply Walk_NoDup.
    intros q. rewrite !Walk_elem_of. unfold x'.
    destruct (decide (p = q)) as [<-|Hq].
    - rewrite lookup_insert_eq, Hp. by split; intros [? _]; eauto.
    - by rewrite lookup_insert_ne. }
  destruct (hashed_split x p) as (l1 & l2 & Hw & Hl1 & Hl2 & Hh); [done|by eexists|].
  destruct (hashed_split x' p) as (l1' & l2' & Hw' & Hl1' & _ & Hh');
    [done|unfold x'; rewrite lookup_insert_eq; by eexists|].
  rewrite Hwalk, Hw in Hw'.
  destruct (split_unique l1 l2 l1' l2' p Hl1 Hl1' Hw') as [<- <-].
  destruct Hu as [rest ->].
  rewrite (contribution_counted x _ rest data) in Hh by done.
  rewrite (contribution_counted x' _ rest data') in Hh'
    by (done || unfold x'; by rewrite lookup_insert_eq).
  rewrite Hh, Hh' in Heq.
  rewrite (fmap_agree (contribution x') (contribution x) l1) in Heq.
  2:{ intros q Hq. apply contribution_agree. unfold x'. rewrite lookup_insert_ne; [done|].
      by intros <-. }
  rewrite (fmap_agree (contribution x') (contribution x) l2) in Heq.
  2:{ intros q Hq. apply contribution_agree. unfold x'. rewrite lookup_insert_ne; [done|].
      by intros <-. }
  apply (inj (String.app _)) in Heq. apply append_inv_tail in Heq.
  apply (inj (String.app _)) in Heq. done.
Qed.

(** A file that counts and is new changes what is hashed. *)
Lemma hashed_add x p data :
  under BuildDir p → skipped p = false → p ≠ BuildDir ++ [""] →
  x !! p = None →
  hashed (<[p := File data]> x) ≠ hashed x.
Proof.
  intros Hu Hs Hname Hp Heq. set (x' := <[p := File data]> x) in *.
  destruct (hashed_split x' p) as (l1 & l2 & Hw' & Hl1 & Hl2 & Hh');
    [done|unfold x'; rewrite lookup_insert_eq; by eexists|].
  assert (Walk BuildDir x = l1 ++ l2) as Hw.
  { assert (l1 ++ l2 = filter (λ q, q ≠ p) (Walk BuildDir x')) as ->.
    { rewrite Hw', filter_app, filter_cons, decide_False by (by intros ?).
      rewrite !filter_all; [done|..]; intros q Hq ->; done. }
    apply sorted_paths_unique.
    - apply Walk_Sorted.
    - apply Sorted_filter_paths, Walk_Sorted.
    - apply Walk_NoDup.
    - apply NoDup_filter, Walk_NoDup.
    - intros q. rewrite list_elem_of_filter, !Walk_elem_of. unfold x'.
      destruct (decide (p = q)) as [<-|Hq].
      + rewrite Hp. split; [by intros [_ [? ?]]|by intros [? _]].
      + rewrite lookup_insert_ne by done. naive_solver. }
  assert (hashed x = String.concat "" (contribution x <$> l1)
                     +:+ String.concat "" (contribution x <$> l2)) as Hh.
  { unfold hashed. by rewrite Hw, fmap_app, concat_empty_app. }
  rewrite Hh, Hh' in Heq.
  rewrite (fmap_agree (contribution x') (contribution x) l1) in Heq.
  2:{ intros q Hq. apply contribution_agree. unfold x'. rewrite lookup_insert_ne; [done|].
      by intros <-. }
  rewrite (fmap_agree (contribution x') (contribution x) l2) in Heq.
  2:{ intros q Hq. apply contribution_agree. unfold x'. rewrite lookup_insert_ne; [done|].
      by intros <-. }
  apply (inj (String.app _)) in Heq.
  apply (f_equal String.length) in Heq. rewrite length_append in Heq.
  assert (contribution x' p = "") as Hempty by (apply length_zero; lia).
  destruct Hu as [rest ->].
  rewrite (contribution_counted x' _ rest data) in Hempty
    by (done || unfold x'; by rewrite lookup_insert_eq).
  apply (f_equal String.length) in Hempty. rewrite length_append in Hempty.
  apply (rel_string_nonempty rest); [by intros ->|]. apply length_zero. simpl in Hempty. lia.
Qed.

(** A file that counts and is taken away changes what is hashed. *)
Lemma hashed_remove x p data :
  under BuildDir p → skipped p = false → p ≠ BuildDir ++ [""] →
  x !! p = Some (File data) →
  hashed (delete p x) ≠ hashed x.
Proof.
  intros Hu Hs Hname Hp Heq.
  apply (hashed_add (delete p x) p data); [done..|by rewrite lookup_delete_eq|].
  by rewrite insert_delete_eq, insert_id.
Qed.
End Sensitivity.

Section FingerprintClaim.
Context {ST : Stager}.

(** C5, as the code has it.  The fingerprint is the MD5 digest, in hex,
    of the hashed bytes: the relative path and the bytes of every regular
    file of the build directory that is not skipped, in the order of the
    walk.  It leaves the world as it is and depends on the file system
    only, so a second computation over the same tree gives the same
    digest.  Trees that agree outside [.cloudfoundry/] have the same
    digest.  Changing the bytes of one file that counts, adding one such
    file or removing one, the rest of the tree staying as it is, changes
    the hashed bytes. *)
Theorem CalcChecksum_fingerprint (w0 : World) :
  Exists BuildDir (fs w0) = true →
  CalcChecksum w0 = (Ok (md5.hex (md5.Sum (hashed (fs w0)))), w0) ∧
  (∀ w1, fs w1 = fs w0 → (CalcChecksum w1).1 = (CalcChecksum w0).1) ∧
  (∀ w1, (∀ q, ¬ hidden q → fs w1 !! q = fs w0 !! q) →
         (CalcChecksum w1).1 = (CalcChecksum w0).1) ∧
  (∀ p data data',
     under BuildDir p → skipped p = false →
     fs w0 !! p = Some (File data) → data' ≠ data →
     hashed (<[p := File data']> (fs w0)) ≠ hashed (fs w0)) ∧
  (∀ p data,
     under BuildDir p → skipped p = false → p ≠ BuildDir ++ [""] →
     fs w0 !! p = None →
     hashed (<[p := File data]> (fs w0)) ≠ hashed (fs w0)) ∧
  (∀ p data,
     under BuildDir p → skipped p = false → p ≠ BuildDir ++ [""] →
     fs w0 !! p = Some (File data) →
     hashed (delete p (fs w0)) ≠ hashed (fs w0)).
Proof.
  intros Hex. split; [by apply CalcChecksum_hashed|]. split; [|split].
  - intros w1 Hfs. rewrite !CalcChecksum_hashed by (done || by rewrite Hfs).
    cbn [fst]. by rewrite Hfs.
  - intros w1 Hag.
    assert (Exists BuildDir (fs w1) = true) as Hex1.
    { unfold Exists in *. rewrite Hag; [done|].
      intros (name & rest & Hb). apply (f_equal length) in Hb.
      rewrite length_app in Hb. simpl in Hb. lia. }
    rewrite !CalcChecksum_hashed by done. cbn [fst]. do 3 f_equal.
    apply hashed_agree. intros q Hu Hs. apply Hag. intros Hh.
    apply hidden_skipped in Hh. congruence.
  - split; [|split].
    + intros p data data'. apply hashed_change.
    + intros p data. apply hashed_add.
    + intros p data. apply hashed_remove.
Qed.
End FingerprintClaim.

(** The staging run: its fingerprint, and what an edit of the Gemfile
    does to the hashed bytes. *)
Lemma CalcChecksum_fingerprint_witness :
  let w0 := Staging.world Staging.app_fs true in
  CalcChecksum (ST := Staging.stager) w0 = (Ok "c4706efba56e1b1a3baffb6ecffc0505", w0) ∧
  hashed (ST := Staging.stager)
         (<[["home"; "vcap"; "app"; "Gemfile"] := File "gem 'rails'"]> (fs w0))
  ≠ hashed (ST := Staging.stager) (fs w0).
Proof.
  intros w0.
  destruct (CalcChecksum_fingerprint (ST := Staging.stager) w0 eq_refl)
    as (Hsum & _ & _ & Hchange & _).
  split.
  - rewrite Hsum. vm_compute. reflexivity.
  - apply (Hchange ["home"; "vcap"; "app"; "Gemfile"] "source 'https://rubygems.org'").
    + exists ["Gemfile"]. reflexivity.
    + reflexivity.
    + reflexivity.
    + discriminate.
Defined.

(** C5 as the spec words it does not hold: two trees can differ in the
    bytes of files that count and have the same fingerprint.  Paths and
    bytes are hashed one after the other with nothing in between, so the
    files a = "", b = "bb" and the files a = "b", b = "b" are the same
    hashed bytes, "abbb". *)
Lemma CalcChecksum_same_digest_different_bytes :
  ¬ (∀ (x x' : FS) (p : path) (data data' : string),
       under (BuildDir (Stager := Staging.stager)) p →
       skipped (ST := Staging.stager) p = false →
       x !! p = Some (File data) → x' !! p = Some (File data') → data' ≠ data →
       (CalcChecksum (ST := Staging.stager) (Staging.world x' true)).1
       ≠ (CalcChecksum (ST := Staging.stager) (Staging.world x true)).1).
Proof.
  intros Hclaim.
  apply (Hclaim Collision.before Collision.after ["home"; "vcap"; "app"; "a"] "" "b").
  - exists ["a"]. reflexivity.
  - reflexivity.
  - reflexivity.
  - reflexivity.
  - discriminate.
  - vm_compute. reflexivity.
Qed.

(** * More properties of [supply.go] *)

(** ** Steps of the monad *)

Lemma bind_gets {A B} (f : World → A) (k : A → M B) (w0 : World) :
  bind (gets f) k w0 = k (f w0) w0.
Proof. reflexivity. Qed.

Lemma bind_ok {A B} (m : M A) (k : A → M B) (w0 w1 : World) (a : A) :
  m w0 = (Ok a, w1) → bind m k w0 = k a w1.
Proof. intros Hm. unfold bind. by rewrite Hm. Qed.

Lemma bind_err {A B} (m : M A) (k : A → M B) (w0 w1 : World) (e : error) :
  m w0 = (Err e, w1) → bind m k w0 = (Err e, w1).
Proof. intros Hm. unfold bind. by rewrite Hm. Qed.

Lemma bind_try {A B} (m : M A) (k : Res A → M B) (w0 w1 : World) (r : Res A) :
  m w0 = (r, w1) → bind (try m) k w0 = k r w1.
Proof. intros Hm. unfold bind, try. by rewrite Hm. Qed.

Lemma bind_assoc {A B C} (m : M A) (k : A → M B) (h : B → M C) (w0 : World) :
  bind (bind m k) h w0 = bind m (λ a, bind (k a) h) w0.
Proof. unfold bind. destruct (m w0) as [[a|e] w1]; reflexivity. Qed.

(** ** The scratch copy on the way that succeeds *)

Lemma ends_clean_bind {A} (p : path) (m : M A) (k : A → M unit) :
  (∀ a, ends_clean p (k a)) → ends_clean p (bind m k).
Proof.
  intros Hk w0 w' Hrun. unfold bind in Hrun.
  destruct (m w0) as [[a|e] w1]; [|discriminate]. by apply (Hk a w1).
Qed.

Lemma ends_clean_RemoveAll (p : path) : ends_clean p (os_RemoveAll p).
Proof.
  intros w0 w' Hrun q Hq. unfold os_RemoveAll, onFS in Hrun. injection Hrun as <-.
  fields. by apply RemoveAll_under.
Qed.

Section ScratchCopy.
Context {VS : Versions} {ST : Stager} {CM : Command} {TD : TempDir}.

(** X1.  When the scratch copy has been made, there are two ways for
    [InstallGems] to return nil.  If the Gemfile can be made relative to
    the build directory (an absolute Gemfile path always can) and
    [InstallGems] returns nil, nothing of the scratch copy is left.  If it
    cannot (a relative Gemfile path), [InstallGems] returns nil right
    after the copy and leaves the world as [CopyDirToTemp] left it: the
    scratch copy stays. *)
Theorem InstallGems_success_cleans (w0 w1 w2 : World) (tempDir : path) :
  appHasGemfile w0 = true →
  (warnBundleConfig >> warnWindowsGemfile) w0 = (Ok tt, w1) →
  TempDir_CopyDirToTemp BuildDir w1 = (Ok tempDir, w2) →
  (is_ok (Rel BuildDir Gemfile) = true →
   ∀ w', InstallGems w0 = (Ok tt, w') → ∀ q, under tempDir q → fs w' !! q = None) ∧
  (is_ok (Rel BuildDir Gemfile) = false → InstallGems w0 = (Ok tt, w2)).
Proof.
  intros Hg Hwarn Hcopy. unfold InstallGems.
  rewrite bind_gets, Hg. cbn [negb].
  rewrite <- bind_assoc, (bind_ok _ _ _ _ _ Hwarn), (bind_try _ _ _ _ _ Hcopy).
  destruct (Rel BuildDir Gemfile) as [gemfileRel|e]; cbn [is_ok];
    (split; [|intros; done || discriminate]); [|discriminate].
  intros _. cbv zeta. revert w2 Hcopy.
  match goal with |- ∀ w2, _ → ∀ w', ?m w2 = _ → _ =>
    assert (ends_clean tempDir m) as Hclean end.
  { repeat (apply ends_clean_bind; intros ?). apply ends_clean_RemoveAll. }
  intros w2 _ w' Hrun. by apply (Hclean w2).
Qed.
End ScratchCopy.

(** A run on concrete worlds: the result by evaluation, the world as the
    run leaves it. *)
Ltac pairing :=
  lazymatch goal with
  | |- ?lhs = (?r, _) =>
      let H := fresh in
      assert (lhs.1 = r) as H by (vm_compute; reflexivity);
      exact (eq_trans (surjective_pairing lhs) (f_equal (λ a, (a, lhs.2)) H))
  end.

(** The staging run with the binstub in the cache and a [bundle] that
    succeeds: the scratch copy is gone.  The same run with a Gemfile that
    is named by a relative path: nil again, and the scratch copy is
    there. *)
Lemma InstallGems_success_cleans_witness :
  let w0 := Staging.world Cached.app_fs true in
  let run := InstallGems (VS := Staging.versions "ruby" "2.6.3" (Ok true))
               (ST := Staging.stager) (CM := Staging.command (Ok tt))
               (TD := LinuxTempDir "1" "") w0 in
  let run' := InstallGems (VS := relative_versions)
               (ST := Staging.stager) (CM := Staging.command (Ok tt))
               (TD := LinuxTempDir "1" "") w0 in
  (run.1 = Ok tt ∧
   fs run.2 !! ["tmp"; "app1"; "app"] = None ∧
   fs run.2 !! ["tmp"; "app1"; "app"; "Gemfile"] = None) ∧
  (run'.1 = Ok tt ∧
   fs run'.2 !! ["tmp"; "app1"; "app"; "Gemfile"]
   = Some (File "source 'https://rubygems.org'")).
Proof.
  intros w0 run run'.
  pose (CM := Staging.command (Ok tt)).
  pose (TD := LinuxTempDir "1" "").
  split.
  - pose (VS := Staging.versions "ruby" "2.6.3" (Ok true)).
    pose (w1 := ((warnBundleConfig (ST := Staging.stager)
                  >> warnWindowsGemfile (VS := VS)) w0).2).
    pose (w2 := (TempDir_CopyDirToTemp (BuildDir (Stager := Staging.stager)) w1).2).
    assert ((warnBundleConfig (ST := Staging.stager) >> warnWindowsGemfile (VS := VS)) w0
            = (Ok tt, w1)) as Hwarn by pairing.
    assert (TempDir_CopyDirToTemp (BuildDir (Stager := Staging.stager)) w1
            = (Ok ["tmp"; "app1"; "app"], w2)) as Hcopy by pairing.
    assert (InstallGems (ST := Staging.stager) w0 = (Ok tt, run.2)) as Hrun by pairing.
    destruct (InstallGems_success_cleans (ST := Staging.stager) w0 w1 w2
                ["tmp"; "app1"; "app"] eq_refl Hwarn Hcopy) as [Hclean _].
    specialize (Hclean eq_refl run.2 Hrun).
    split; [|split].
    + exact (f_equal fst Hrun).
    + apply Hclean. exists []. reflexivity.
    + apply Hclean. exists ["Gemfile"]. reflexivity.
  - pose (VS := relative_versions).
    pose (w1 := ((warnBundleConfig (ST := Staging.stager)
                  >> warnWindowsGemfile (VS := VS)) w0).2).
    pose (w2 := (TempDir_CopyDirToTemp (BuildDir (Stager := Staging.stager)) w1).2).
    assert ((warnBundleConfig (ST := Staging.stager) >> warnWindowsGemfile (VS := VS)) w0
            = (Ok tt, w1)) as Hwarn by pairing.
    assert (TempDir_CopyDirToTemp (BuildDir (Stager := Staging.stager)) w1
            = (Ok ["tmp"; "app1"; "app"], w2)) as Hcopy by pairing.
    destruct (InstallGems_success_cleans (VS := VS) (ST := Staging.stager) w0 w1 w2
                ["tmp"; "app1"; "app"] eq_refl Hwarn Hcopy) as [_ Hstays].
    specialize (Hstays eq_refl).
    assert (run' = (Ok tt, w2)) as -> by exact Hstays. cbn [fst snd].
    split; [reflexivity|]. subst w2. vm_compute. reflexivity.
Defined.

(** ** The secondary bundler: release and rollback *)

Lemma create_other (p q : path) (data : string) (x x' : FS) :
  create p data x = Ok x' → p ≠ q → x' !! q = x !! q.
Proof.
  unfold create. intros Hc Hne.
  assert (x' = <[p := File data]> x) as -> by (repeat case_match; congruence).
  by rewrite lookup_insert_ne.
Qed.

Lemma CopyFile_keeps (src dst q : path) (x x' : FS) (n : node) :
  CopyFile src dst x = Ok x' → dst ≠ q → x !! q = Some n → x' !! q = Some n.
Proof.
  unfold CopyFile. intros Hc Hne Hq.
  destruct (x !! src) as [[data|]|]; try discriminate.
  destruct (MkdirAll (Parent dst) x) as [x1|] eqn:Hm; [|discriminate].
  rewrite (create_other dst q data x1 x') by done. eapply MkdirAll_keeps; eauto.
Qed.

Lemma CopyDirectory_keeps (src dst q : path) (x x' : FS) (n : node) :
  CopyDirectory src dst x = Ok x' → ¬ under dst q → x !! q = Some n → x' !! q = Some n.
Proof.
  unfold CopyDirectory. intros Hc Hu Hq.
  destruct (negb (Exists dst x)); [discriminate|].
  destruct (x !! src) as [[data|]|]; try discriminate.
  injection Hc as <-. by rewrite graft_other.
Qed.

Section Release.
Context {MF : Manifest} {RS : Resolver} {IN : Installer} {VS : Versions} {ST : Stager}.

(** X2.  [installBundlerTwo] releases its directory however it ends, once
    the archive has been unpacked: nothing is left at [bundler2] or below,
    also when the copying into the primary bundler fails.  When the
    installer itself fails the directory is not touched again: the file
    system is the one the installer left. *)
Theorem installBundlerTwo_releases (w0 w1 : World) (r : Res string) (v : string) :
  FindMatchingVersion "2.X.X" (AllDependencyVersions "bundler") = Ok v →
  installBundlerTwo w0 = (r, w1) →
  let unpacked :=
    InstallDependency {| libbuildpack.Name := "bundler"; libbuildpack.Version := v |}
                      bundler2_dir (fs w0) in
  (unpacked.1 = Ok tt → ∀ q, under bundler2_dir q → fs w1 !! q = None) ∧
  (∀ e, unpacked.1 = Err e → r = Err e ∧ fs w1 = unpacked.2).
Proof.
  intros Hv Htwo unpacked. subst unpacked. revert Htwo.
  unfold installBundlerTwo, bundler2_dir. go. rewrite Hv. fields.
  destruct (InstallDependency _ _ (fs w0)) as [[[]|e'] x1] eqn:Hin; fields.
  - intros Htwo. split; [|discriminate]. intros _ q Hq.
    destruct (MkdirAll _ x1) as [x2|]; fields;
      [destruct (CopyDirectory _ _ x2) as [x3|]; fields;
       [destruct (CopyFile _ _ x3) as [x4|]; fields|]|];
      injection Htwo as <- <-; fields; by apply RemoveAll_under.
  - intros Htwo. injection Htwo as <- <-. split; [discriminate|].
    intros e [= ->]. by fields.
Qed.

(** X3.  The rollback is a targeted deletion: when the compatibility test
    answers no, every node that was there when [installBundlerOne]
    returned, and that lies neither in the gem directory nor at the
    gemspec of the secondary bundler nor in its unpacking directory, is
    still there, unchanged, when [InstallBundler] returns. *)
Theorem InstallBundler_rollback_keeps (w0 w1 w2 : World) (v1 v2 : string) :
  appHasGemfile w0 = true →
  installBundlerOne w0 = (Ok v1, w1) →
  installBundlerTwo (Versions_SetBundlerVersion v1 w1).2 = (Ok v2, w2) →
  CheckBundler2Compatibility (fs w2) = Ok false →
  preserves_outside IN →
  ∃ w3, InstallBundler w0 = (Ok tt, w3) ∧
        ∀ q n, fs w1 !! q = Some n →
               ¬ under bundler2_dir q → ¬ under (bundler2_gem v2) q →
               ¬ under (bundler2_gemspec v2) q →
               fs w3 !! q = Some n.
Proof.
  intros Hg Hone Htwo Hc Hkeep.
  destruct (InstallBundler_incompatible w0 w1 w2 v1 v2) as (w3 & Hr & _ & _ & Hf); try done.
  exists w3. split; [done|]. intros q n Hq Hdir Hgem Hspec. rewrite Hf.
  rewrite !RemoveAll_other by done.
  revert Htwo. unfold installBundlerTwo. go. fields.
  destruct (FindMatchingVersion "2.X.X" _) as [v|] eqn:Hv; [|discriminate]. fields.
  destruct (InstallDependency _ _ (fs w1)) as [[[]|] x1] eqn:Hin; [|discriminate]. fields.
  destruct (MkdirAll _ x1) as [x2|] eqn:Hmk; fields; [|discriminate].
  destruct (CopyDirectory _ _ x2) as [x3|] eqn:Hcd; fields; [|discriminate].
  destruct (CopyFile _ _ x3) as [x4|] eqn:Hcf; fields; [|discriminate].
  intros Htwo. injection Htwo as <- <-. fields.
  rewrite RemoveAll_other by done.
  eapply CopyFile_keeps; [exact Hcf| |].
  { intros <-. apply Hspec. exists []. by rewrite app_nil_r. }
  eapply CopyDirectory_keeps; [exact Hcd|exact Hgem|].
  eapply MkdirAll_keeps; [exact Hmk|].
  match type of Hin with
  | InstallDependency ?dep ?dir _ = _ => specialize (Hkeep dep dir (fs w1) q n Hdir Hq)
  end.
  by rewrite Hin in Hkeep.
Qed.
End Release.

(** The staging run with an archive of bundler 2 that lacks its gem
    directory: the copying fails and the unpacking directory is gone. *)
Lemma installBundlerTwo_releases_witness :
  let w0 := Staging.world Staging.app_fs true in
  let run := installBundlerTwo (MF := Staging.manifest_yml) (RS := Staging.resolver)
               (IN := bare_installer) (ST := Staging.stager) w0 in
  is_ok run.1 = false ∧
  fs run.2 !! ["home"; "vcap"; "deps"; "0"; "bundler2"] = None ∧
  fs run.2 !! ["home"; "vcap"; "deps"; "0"; "bundler2"; "bin"] = None.
Proof.
  intros w0 run.
  pose proof (installBundlerTwo_releases (MF := Staging.manifest_yml)
                (RS := Staging.resolver) (IN := bare_installer) (ST := Staging.stager)
                w0 run.2 run.1 "2.0.1" eq_refl (surjective_pairing _)) as [Hgone _].
  cbv zeta in Hgone.
  assert ((InstallDependency (Installer := bare_installer)
             {| libbuildpack.Name := "bundler"; libbuildpack.Version := "2.0.1" |}
             (bundler2_dir (ST := Staging.stager)) (fs w0)).1 = Ok tt) as Hin
    by (vm_compute; reflexivity).
  split; [vm_compute; reflexivity|]. split.
  - apply (Hgone Hin). exists []. reflexivity.
  - apply (Hgone Hin). exists ["bin"]. reflexivity.
Defined.

Lemma unpack_preserves_outside contents :
  preserves_outside {| InstallDependency := Staging.unpack contents;
                       InstallOnlyVersion name dir x := (Err (EMsg name), x) |}.
Proof.
  intros dep dir x q n Hq Hn. simpl. unfold Staging.unpack.
  destruct (contents dep) as [entries|]; [|done].
  destruct (MkdirAll dir x) as [x'|] eqn:Hm; [|done]. simpl.
  rewrite graft_other by done. eapply MkdirAll_keeps; eauto.
Qed.

Lemma Staging_installer_preserves_outside : preserves_outside Staging.installer.
Proof.
  intros dep dir x q n Hq Hn.
  exact (unpack_preserves_outside Staging.archive dep dir x q n Hq Hn).
Qed.

(** The staging run with a ruby that bundler 2 does not suit: the
    executable of the primary bundler is as it was unpacked. *)
Lemma InstallBundler_rollback_keeps_witness :
  let w0 := Staging.world Staging.app_fs true in
  ∃ w3, InstallBundler (MF := Staging.manifest_yml) (RS := Staging.resolver)
          (IN := Staging.installer) (VS := Staging.versions "ruby" "2.6.3" (Ok false))
          (ST := Staging.stager) w0 = (Ok tt, w3) ∧
        fs w3 !! ["home"; "vcap"; "deps"; "0"; "bundler"; "bin"; "bundle"]
        = Some (File "#!/usr/bin/env ruby").
Proof.
  intros w0.
  pose proof Staging_bundlers as Hboth. cbv zeta in Hboth. fold w0 in Hboth.
  destruct Hboth as [Hone Htwo].
  destruct (InstallBundler_rollback_keeps (MF := Staging.manifest_yml)
              (RS := Staging.resolver) (IN := Staging.installer)
              (VS := Staging.versions "ruby" "2.6.3" (Ok false))
              (ST := Staging.stager) w0 _ _ "1.17.3" "2.0.1"
              eq_refl Hone Htwo eq_refl Staging_installer_preserves_outside)
    as (w3 & Hr & Hkept).
  exists w3. split; [exact Hr|]. apply Hkept.
  - vm_compute. reflexivity.
  - intros [k Hk]. discriminate Hk.
  - intros [k Hk]. discriminate Hk.
  - intros [k Hk]. discriminate Hk.
Defined.

(** ** The runtime selection *)

Section Selection.
Context {MF : Manifest} {VS : Versions}.

(** X4.  A selection that [DetermineRuby] returns has one of the two
    engines, and making it touches neither the file system nor the
    environment nor any field of the supplier. *)
Theorem DetermineRuby_closed_set (w0 w1 : World) (engine version : string) :
  DetermineRuby w0 = (Ok (engine, version), w1) →
  (engine = "ruby" ∨ engine = "jruby") ∧
  fs w1 = fs w0 ∧ environ w1 = environ w0 ∧ envFiles w1 = envFiles w0 ∧
  bundlerVersion w1 = bundlerVersion w0 ∧
  appHasGemfile w1 = appHasGemfile w0 ∧ appHasGemfileLock w1 = appHasGemfileLock w0.
Proof.
  unfold DetermineRuby. go. fields. intros Hrun.
  repeat (case_match; simplify_eq/=; fields); auto 10.
Qed.

(** X5.  A ruby version that the Gemfile declares is the version
    selected: nothing is logged and the catalogue is not asked for its
    default.  For the engine "jruby" the version is the one
    [JrubyVersion] gives, again without a warning. *)
Theorem DetermineRuby_declared (w0 : World) (version : string) :
  appHasGemfile w0 = true →
  (Engine (fs w0) = Ok "ruby" → Version (fs w0) = Ok version → version ≠ "" →
   DetermineRuby w0
   = (Ok ("ruby", version), set_trace (trace w0 ++ [EvEngine; EvVersion]) w0)) ∧
  (Engine (fs w0) = Ok "jruby" → JrubyVersion (fs w0) = Ok version →
   DetermineRuby w0
   = (Ok ("jruby", version), set_trace (trace w0 ++ [EvEngine; EvJrubyVersion]) w0)).
Proof.
  intros Hg. split.
  - intros He Hv Hne. unfold DetermineRuby. go; simpl.
    rewrite Hg; simpl. rewrite He; simpl. rewrite Hv; simpl.
    destruct (decide (version = "")); [done|]. by rewrite <- app_assoc.
  - intros He Hv. unfold DetermineRuby. go; simpl.
    rewrite Hg; simpl. rewrite He; simpl. rewrite Hv; simpl. by rewrite <- app_assoc.
Qed.
End Selection.

(** A Gemfile that asks for jruby, and one that declares ruby 2.5.5. *)
Lemma DetermineRuby_closed_set_witness :
  let w0 := Staging.world Staging.app_fs true in
  let run := DetermineRuby (MF := Staging.manifest_yml)
               (VS := Staging.versions "jruby" "" (Ok true)) w0 in
  run.1 = Ok ("jruby", "9.2.0.0") ∧ fs run.2 = fs w0.
Proof.
  intros w0 run.
  assert (run = (Ok ("jruby", "9.2.0.0"), run.2)) as Hrun by pairing.
  destruct (DetermineRuby_closed_set (MF := Staging.manifest_yml)
              (VS := Staging.versions "jruby" "" (Ok true)) w0 run.2 "jruby" "9.2.0.0" Hrun)
    as (_ & Hfs & _).
  split; [exact (f_equal fst Hrun) | exact Hfs].
Defined.

Lemma DetermineRuby_declared_witness :
  let w0 := Staging.world Staging.app_fs true in
  (DetermineRuby (MF := Staging.manifest_yml)
     (VS := Staging.versions "ruby" "2.5.5" (Ok true)) w0).1 = Ok ("ruby", "2.5.5") ∧
  log (DetermineRuby (MF := Staging.manifest_yml)
         (VS := Staging.versions "ruby" "2.5.5" (Ok true)) w0).2 = [].
Proof.
  intros w0.
  rewrite (proj1 (DetermineRuby_declared (MF := Staging.manifest_yml)
                    (VS := Staging.versions "ruby" "2.5.5" (Ok true)) w0 "2.5.5" eq_refl)
                 eq_refl eq_refl) by discriminate.
  split; reflexivity.
Defined.

(** ** The need for node *)

Section NodeDecision.
Context {VS : Versions} {ST : Stager} {CM : Command}.

Lemma probeGems_two (w0 : World) :
  needsNode w0 = false →
  ∃ w1, probeGems ["webpacker"; "execjs"] w0 = (Ok tt, w1) ∧
        fs w1 = fs w0 ∧ cachedNeedsNode w1 = cachedNeedsNode w0 ∧
        needsNode w1 = is_yes (HasGemVersion (fs w0) "webpacker" [">=0.0.0"])
                       || is_yes (HasGemVersion (fs w0) "execjs" [">=0.0.0"]) ∧
        trace w1 = trace w0 ++
          EvHasGemVersion "webpacker" [">=0.0.0"] ::
          (if is_yes (HasGemVersion (fs w0) "webpacker" [">=0.0.0"]) then []
           else [EvHasGemVersion "execjs" [">=0.0.0"]]).
Proof.
  intros Hn. cbn [probeGems]. go. fields.
  destruct (HasGemVersion (fs w0) "webpacker" [">=0.0.0"]) as [[|]|e]; cbn [is_yes orb];
    fields.
  - eexists. split; [reflexivity|]. by fields.
  - destruct (HasGemVersion (fs w0) "execjs" [">=0.0.0"]) as [[|]|e]; cbn [is_yes];
      fields; (eexists; split; [reflexivity|]); fields; rewrite <- ?app_assoc; auto.
  - destruct (HasGemVersion (fs w0) "execjs" [">=0.0.0"]) as [[|]|e']; cbn [is_yes];
      fields; (eexists; split; [reflexivity|]); fields; rewrite <- ?app_assoc; auto.
Qed.

(** X6.  What a first call of [NeedsNode] answers: node is needed exactly
    when no [node] answers on the path and the probe for webpacker or the
    probe for execjs says yes without error.  When [node] answers no gem
    is probed, and when webpacker is found execjs is not probed. *)
Theorem NeedsNode_decision (w0 : World) :
  cachedNeedsNode w0 = false →
  let onPath := is_ok (Output BuildDir "node" ["--version"] (fs w0)) in
  let webpacker := is_yes (HasGemVersion (fs w0) "webpacker" [">=0.0.0"]) in
  let execjs := is_yes (HasGemVersion (fs w0) "execjs" [">=0.0.0"]) in
  ∃ w1, NeedsNode w0 = (Ok (negb onPath && (webpacker || execjs)), w1) ∧
        trace w1 = trace w0 ++
          EvOutput BuildDir "node" ["--version"] ::
          (if onPath then []
           else EvHasGemVersion "webpacker" [">=0.0.0"] ::
                (if webpacker then [] else [EvHasGemVersion "execjs" [">=0.0.0"]])).
Proof.
  intros Hc onPath webpacker execjs. subst onPath webpacker execjs.
  unfold NeedsNode, isNodeInstalled. go. fields. rewrite Hc.
  destruct (Output BuildDir "node" ["--version"] (fs w0)); cbn [is_ok negb andb].
  - eexists. split; [reflexivity|]. by fields.
  - match goal with |- context [probeGems _ ?w] =>
      destruct (probeGems_two w eq_refl) as (w1 & -> & Hfs & _ & Hn & Ht) end.
    fields. exists w1. rewrite Hn, Ht. by rewrite <- app_assoc.
Qed.
End NodeDecision.

(** An application with webpacker on a machine without node: node is
    needed, and execjs has not been looked for. *)
Lemma NeedsNode_decision_witness :
  let w0 := Staging.world Staging.app_fs true in
  ∃ w1, NeedsNode (VS := webpacker_versions) (ST := Staging.stager)
          (CM := Staging.command (Ok tt)) w0 = (Ok true, w1) ∧
        trace w1 = [EvOutput ["home"; "vcap"; "app"] "node" ["--version"];
                    EvHasGemVersion "webpacker" [">=0.0.0"]].
Proof.
  intros w0.
  exact (NeedsNode_decision (VS := webpacker_versions) (ST := Staging.stager)
           (CM := Staging.command (Ok tt)) w0 eq_refl).
Defined.

(** ** Writing the environment: failure and overriding *)

Section EnvFailure.
Context {ST : Stager}.

(** X7.  When [writeEnvFiles] fails, it fails at an entry that was due
    (the variable was unset or empty, or the call overwrites), whose env
    file could not be written, and with the error of that write
    unchanged; by then the variable is already set to the new value in the
    process environment. *)
Theorem writeEnvFiles_failure (environment : list (string * string)) (clobber : bool)
  (w0 w1 : World) (e : error) :
  NoDup environment.*1 →
  writeEnvFiles environment clobber w0 = (Err e, w1) →
  ∃ name value,
    (name, value) ∈ environment ∧
    WriteEnvFile_err name value = Some e ∧
    (Getenv name w0 = "" ∨ clobber = true) ∧
    environ w1 !! name = Some value.
Proof.
  revert w0. induction environment as [|[n v] environment IH]; intros w0 Hnd Hrun.
  - rewrite writeEnvFiles_nil in Hrun. discriminate.
  - rewrite writeEnvFiles_cons in Hrun. cbn [fmap list_fmap fst] in Hnd.
    apply NoDup_cons in Hnd as [Hn Hnd].
    destruct (bool_decide (Getenv n w0 = "") || clobber) eqn:Hset.
    + destruct (WriteEnvFile_err n v) as [e'|] eqn:Herr.
      * injection Hrun as <- <-. exists n, v. fields.
        split; [left|]. split; [done|]. split.
        { apply orb_true_iff in Hset as [Hset|Hset]; [left|by right].
          by apply bool_decide_eq_true in Hset. }
        by rewrite lookup_insert_eq.
      * destruct (IH _ Hnd Hrun) as (name & value & Hin & Hw & Hguard & Henv).
        assert (name ≠ n) as Hne.
        { intros ->. apply Hn. apply list_elem_of_fmap. by exists (n, value). }
        exists name, value. split; [by right|]. split; [done|].
        unfold Getenv, applied in *. fields.
        rewrite !lookup_insert_ne in * by done. auto.
    + destruct (IH _ Hnd Hrun) as (name & value & Hin & Hrest).
      exists name, value. split; [by right|done].
Qed.
End EnvFailure.

(** On a stager that cannot write env files the first default fails; the
    process has the variable all the same. *)
Lemma writeEnvFiles_failure_witness :
  let w0 := Staging.world Staging.app_fs true in
  let run := writeEnvFiles (ST := Staging.read_only_stager)
               [("RAILS_ENV", "production"); ("RACK_ENV", "production")] false w0 in
  run.1 = Err (EMsg "read-only file system") ∧
  ∃ name value, (name, value) ∈ [("RAILS_ENV", "production"); ("RACK_ENV", "production")] ∧
                environ run.2 !! name = Some value.
Proof.
  intros w0 run.
  assert (NoDup [("RAILS_ENV", "production"); ("RACK_ENV", "production")].*1) as Hnd.
  { apply (bool_decide_unpack _). vm_compute. exact I. }
  assert (run = (Err (EMsg "read-only file system"), run.2)) as Hrun by pairing.
  destruct (writeEnvFiles_failure (ST := Staging.read_only_stager) _ false w0 run.2 _
              Hnd Hrun) as (name & value & Hin & _ & _ & Henv).
  split; [exact (f_equal fst Hrun)|]. exists name, value. split; [exact Hin | exact Henv].
Defined.

Section PostInstall.
Context {VS : Versions} {ST : Stager}.

(** X8.  [AddPostRubyInstallDefaultEnv] overrides: when it returns nil,
    [BUNDLE_PATH] and [GEM_PATH] hold the paths of the engine and its
    version, in the process and in their env files, whatever they were
    before, and no other variable has changed.  When the engine version
    cannot be determined the error is logged and returned and no variable
    is touched. *)
Theorem AddPostRubyInstallDefaultEnv_overrides (engine : string) (w0 : World) :
  (∀ rev w1,
     RubyEngineVersion (fs w0) = Ok rev →
     AddPostRubyInstallDefaultEnv engine w0 = (Ok tt, w1) →
     let bundlePath := path_string (Join DepDir ["vendor_bundle"; engine; rev]) in
     let gemPath := strings_Join [path_string (Join DepDir ["bundler"]); bundlePath;
                                  path_string (Join DepDir ["gem_home"])] ":" in
     environ w1 !! "BUNDLE_PATH" = Some bundlePath ∧
     envFiles w1 !! "BUNDLE_PATH" = Some bundlePath ∧
     environ w1 !! "GEM_PATH" = Some gemPath ∧
     envFiles w1 !! "GEM_PATH" = Some gemPath ∧
     ∀ name, name ≠ "BUNDLE_PATH" → name ≠ "GEM_PATH" →
             environ w1 !! name = environ w0 !! name ∧
             envFiles w1 !! name = envFiles w0 !! name) ∧
  (∀ e, RubyEngineVersion (fs w0) = Err e →
        ∃ w1, AddPostRubyInstallDefaultEnv engine w0 = (Err e, w1) ∧
              environ w1 = environ w0 ∧ envFiles w1 = envFiles w0 ∧
              log w1 = log w0 ++ [(ErrorLevel, "Unable to determine ruby engine: " +:+ Error e)]).
Proof.
  split.
  - intros rev w1 Hrev. unfold AddPostRubyInstallDefaultEnv.
    go. fields. rewrite Hrev. fields. intros Hrun.
    match type of Hrun with writeEnvFiles ?l true ?w = _ =>
      assert (NoDup l.*1) as Hnd
        by (cbn [fmap list_fmap fst]; apply (bool_decide_unpack _); vm_compute; exact I);
      pose proof (writeEnvFiles_ok l true w w1 Hnd Hrun) as Hok
    end.
    cbn [fmap list_fmap fst] in Hok.
    destruct (Hok "BUNDLE_PATH") as [_ Hb].
    specialize (Hb _ ltac:(left)). rewrite orb_true_r in Hb.
    destruct (Hok "GEM_PATH") as [_ Hgp].
    specialize (Hgp _ ltac:(right; left)). rewrite orb_true_r in Hgp.
    destruct Hb as (? & ? & _), Hgp as (? & ? & _). repeat (split; [done|]).
    intros name Hn1 Hn2. destruct (Hok name) as [Hout _]. fields. apply Hout.
    intros Hin. apply elem_of_cons in Hin as [?|Hin]; [done|].
    apply elem_of_cons in Hin as [?|Hin]; [done|]. by apply elem_of_nil in Hin.
  - intros e Hrev. unfold AddPostRubyInstallDefaultEnv.
    go. fields. rewrite Hrev. fields. eexists. split; [reflexivity|]. by fields.
Qed.
End PostInstall.

(** A process that brings its own [GEM_PATH]. *)
Lemma AddPostRubyInstallDefaultEnv_overrides_witness :
  let w0 := set_environ {["GEM_PATH" := "/my/gems"]} (Staging.world Staging.app_fs true) in
  let run := AddPostRubyInstallDefaultEnv (VS := Staging.versions "ruby" "2.6.3" (Ok true))
               (ST := Staging.stager) "ruby" w0 in
  run.1 = Ok tt ∧
  environ run.2 !! "GEM_PATH"
  = Some "/home/vcap/deps/0/bundler:/home/vcap/deps/0/vendor_bundle/ruby/2.6.0:/home/vcap/deps/0/gem_home".
Proof.
  intros w0 run.
  assert (run = (Ok tt, run.2)) as Hrun by pairing.
  destruct (proj1 (AddPostRubyInstallDefaultEnv_overrides
                     (VS := Staging.versions "ruby" "2.6.3" (Ok true))
                     (ST := Staging.stager) "ruby" w0) "2.6.0" run.2 eq_refl Hrun)
    as (_ & _ & Hgem & _).
  split; [exact (f_equal fst Hrun) | exact Hgem].
Defined.

(** ** The fingerprint sees regular files only *)

Lemma mkdirs_file_of (done todo : list string) (x x' : FS) (q : path) :
  mkdirs done todo x = Ok x' → file_of x' q = file_of x q.
Proof.
  revert done x. induction todo as [|c todo IH]; intros done x Hm; simpl in Hm.
  - by injection Hm as <-.
  - destruct (x !! (done ++ [c])) as [[d|]|] eqn:Hd; [done| |].
    + by apply (IH (done ++ [c])).
    + rewrite (IH _ _ Hm). unfold file_of.
      destruct (decide (done ++ [c] = q)) as [<-|Hne].
      * by rewrite lookup_insert_eq, Hd.
      * by rewrite lookup_insert_ne.
  Qed.

Section RegularFiles.
Context {ST : Stager}.
Implicit Types (x : FS) (p q : path).

Lemma contribution_file_of x p :
  contribution x p =
    match file_of x p with
    | Some data =>
        match Rel BuildDir (Absolute p) with
        | Ok rel => if HasPrefix (rel_string rel) ".cloudfoundry/" then ""
                    else rel_string rel +:+ data
        | Err _ => ""
        end
    | None => ""
    end.
Proof. unfold contribution, file_of. by destruct (x !! p) as [[data|]|]. Qed.

(** X9.  What is hashed, and so the fingerprint, depends on the regular
    files of the build directory that are not skipped, and on nothing
    else: two trees with the same such files have the same hashed bytes,
    whatever directories they hold.  Making directories in particular
    ([os.MkdirAll]) changes nothing. *)
Theorem hashed_regular_files x x' :
  (∀ q, under BuildDir q → skipped q = false → file_of x' q = file_of x q) →
  hashed x' = hashed x ∧
  ∀ p x'', MkdirAll p x' = Ok x'' → hashed x'' = hashed x.
Proof.
  assert (∀ y y', (∀ q, under BuildDir q → skipped q = false → file_of y' q = file_of y q) →
                  hashed y' = hashed y) as Hmain.
  { intros y y' Hag. unfold hashed.
    set (keep y := λ p, skipped p = false ∧ is_Some (file_of y p)).
    assert (∀ y, String.concat "" (contribution y <$> Walk BuildDir y)
                 = String.concat "" (contribution y <$> filter (keep y) (Walk BuildDir y)))
      as Hskip.
    { intros z. apply concat_skip. intros p _ Hp. rewrite contribution_file_of.
      destruct (file_of z p) as [data|] eqn:Hf; [|done].
      destruct (skipped p) eqn:Hs.
      - unfold skipped in Hs. destruct (Rel BuildDir (Absolute p)); [by rewrite Hs|done].
      - destruct Hp. split; [done|]. by eexists. }
    rewrite (Hskip y), (Hskip y').
    assert (filter (keep y') (Walk BuildDir y') = filter (keep y) (Walk BuildDir y)) as ->.
    { apply sorted_paths_unique.
      - apply Sorted_filter_paths, Walk_Sorted.
      - apply Sorted_filter_paths, Walk_Sorted.
      - apply NoDup_filter, Walk_NoDup.
      - apply NoDup_filter, Walk_NoDup.
      - intros p. rewrite !list_elem_of_filter, !Walk_elem_of. unfold keep.
        assert (∀ z, is_Some (file_of z p) → is_Some (z !! p)) as Hsome.
        { intros z [d Hd]. unfold file_of in Hd. destruct (z !! p); [by eexists|done]. }
        split; intros ([Hs Hf] & Hu & _).
        + rewrite (Hag p Hu Hs) in Hf. auto.
        + rewrite <- (Hag p Hu Hs) in Hf. auto. }
    f_equal. apply fmap_agree. intros p Hp.
    apply list_elem_of_filter in Hp as [[Hs _] Hp]. apply Walk_elem_of in Hp as [Hu _].
    rewrite !contribution_file_of. by rewrite (Hag p Hu Hs). }
  intros Hag. split; [by apply Hmain|].
  intros p x'' Hmk. apply Hmain. intros q Hu Hs.
  rewrite (mkdirs_file_of [] p x' x'' q Hmk). by apply Hag.
Qed.
End RegularFiles.

(** The staging tree, and the same tree with a directory [log] in the
    application. *)
Lemma hashed_regular_files_witness :
  hashed (ST := Staging.stager) (<[["home"; "vcap"; "app"; "log"] := Dir]> Staging.app_fs)
  = hashed (ST := Staging.stager) Staging.app_fs.
Proof.
  apply (hashed_regular_files (ST := Staging.stager)).
  intros q _ _. unfold file_of.
  destruct (decide (["home"; "vcap"; "app"; "log"] = q)) as [<-|Hne].
  - rewrite lookup_insert_eq. reflexivity.
  - by rewrite lookup_insert_ne.
Defined.

(** ** Finding the Gemfile *)

Section Detection.
Context {MF : Manifest} {VS : Versions} {ST : Stager} {CM : Command} {TD : TempDir}.

End Detection.


(** ** The scratch copy of [LinuxTempDir] *)








(** ** Shebang lines *)

Lemma first_line_rest (s : string) :
  (supply.first_line s).2 = "" ∨ ∃ r, (supply.first_line s).2 = String "010" r.
Proof.
  induction s as [|c s IH]; simpl; [by left|].
  case_decide; simpl; [subst; right; eauto|].
  destruct (supply.first_line s); simpl in *. exact IH.
Qed.

Lemma ReplaceAll_first_line (s : string) :
  supply.shebang_match s = true →
  supply.first_line (supply.ReplaceAll s) = ("#!/usr/bin/env ruby", (supply.first_line s).2).
Proof.
  intros Hm. unfold supply.ReplaceAll. rewrite Hm.
  destruct (first_line_rest s) as [-> | [r ->]]; vm_compute; reflexivity.
Qed.

Lemma ReplaceAll_settled (s : string) : supply.shebang_match (supply.ReplaceAll s) = false.
Proof.
  destruct (supply.shebang_match s) eqn:Hm.
  - unfold supply.shebang_match. rewrite (ReplaceAll_first_line s Hm). vm_compute. reflexivity.
  - unfold supply.ReplaceAll. rewrite Hm. exact Hm.
Qed.

Lemma ReplaceAll_twice (s : string) :
  supply.ReplaceAll (supply.ReplaceAll s) = supply.ReplaceAll s.
Proof. unfold supply.ReplaceAll at 1. by rewrite ReplaceAll_settled. Qed.

(** X13.  Rewriting a shebang line settles: what [ReplaceAll] returns no
    longer matches the pattern, a second rewriting returns it unchanged,
    and whatever followed the first line of the text still follows it. *)
Theorem ReplaceAll_idempotent (contents : string) :
  supply.shebang_match (supply.ReplaceAll contents) = false ∧
  supply.ReplaceAll (supply.ReplaceAll contents) = supply.ReplaceAll contents ∧
  (supply.first_line (supply.ReplaceAll contents)).2 = (supply.first_line contents).2.
Proof.
  split; [apply ReplaceAll_settled|]. split; [apply ReplaceAll_twice|].
  destruct (supply.shebang_match contents) eqn:Hm.
  - by rewrite (ReplaceAll_first_line contents Hm).
  - unfold supply.ReplaceAll. by rewrite Hm.
Qed.

Lemma rewritten_twice (n : node) : supply.rewritten (supply.rewritten n) = supply.rewritten n.
Proof. destruct n; simpl; [|done]. by rewrite ReplaceAll_twice. Qed.

Lemma child_name_Some (dir q : path) (name : string) :
  child_name dir q = Some name → q = dir ++ [name].
Proof.
  unfold child_name. intros H.
  destruct (drop (length dir) q) as [|a [|? ?]] eqn:Hd; try discriminate.
  case_decide as Ht; [|discriminate]. simplify_eq.
  rewrite <- (take_drop (length dir) q) at 1. by rewrite Ht, Hd.
Qed.

Lemma children_exist (dir : path) (x : FS) (name : string) :
  name ∈ children dir x → is_Some (x !! (dir ++ [name])).
Proof.
  unfold children. rewrite merge_sort_Permutation.
  intros ([q n] & Hin & Hname)%list_elem_of_omap. simpl in Hname.
  apply child_name_Some in Hname. subst q.
  apply elem_of_map_to_list in Hin. eauto.
Qed.

Lemma Glob_exists (dir : path) (pre : string) (x : FS) (f : path) :
  f ∈ supply.Glob dir pre x → is_Some (x !! f).
Proof.
  unfold supply.Glob. destruct (is_dir dir x); [|by intros ?%elem_of_nil].
  intros (name & -> & Hin)%list_elem_of_fmap.
  apply list_elem_of_In, List.filter_In in Hin as [Hin _].
  apply list_elem_of_In in Hin. by apply children_exist.
Qed.

Lemma set_fs_id (w : World) : set_fs (fs w) w = w.
Proof. by destruct w. Qed.

Lemma set_fs_twice (x x' : FS) (w : World) : set_fs x' (set_fs x w) = set_fs x' w.
Proof. by destruct w. Qed.

Section Shebangs.
Context {ST : Stager}.

Lemma shebang_files_exist (x : FS) (f : path) :
  f ∈ supply.shebang_files x → is_Some (x !! f).
Proof.
  unfold supply.shebang_files. rewrite elem_of_app. intros [H|H].
  - by apply Glob_exists in H.
  - apply list_elem_of_In, List.in_flat_map in H as (d & _ & H).
    apply list_elem_of_In in H. by apply Glob_exists in H.
Qed.

Lemma rewrite_shebang_run (file : path) (w : World) (n : node) :
  fs w !! file = Some n →
  supply.rewrite_shebang file w = (Ok tt, set_fs (<[file := supply.rewritten n]> (fs w)) w).
Proof.
  intros Hn. unfold supply.rewrite_shebang, supply.os_Stat, bind. rewrite Hn.
  destruct n as [data|]; simpl.
  - unfold ioutil_ReadFile, ReadFile, supply.ioutil_WriteFile, onFS, create. by rewrite Hn.
  - unfold ret. by rewrite insert_id, set_fs_id.
Qed.

Lemma rewrite_shebang_all (files : list path) (w : World) :
  (∀ f, f ∈ files → is_Some (fs w !! f)) →
  ∃ x', forEach files supply.rewrite_shebang w = (Ok tt, set_fs x' w) ∧
        ∀ q, x' !! q = if decide (q ∈ files) then supply.rewritten <$> fs w !! q
                       else fs w !! q.
Proof.
  revert w. induction files as [|f files IH]; intros w Hall.
  - exists (fs w). cbn [forEach]. unfold ret. rewrite set_fs_id. split; [done|].
    intros q. destruct (decide (q ∈ [])) as [Hin|_]; [|done]. by apply elem_of_nil in Hin.
  - destruct (Hall f) as [n Hn]; [left|].
    destruct (IH (set_fs (<[f := supply.rewritten n]> (fs w)) w)) as (x' & Hrun & Hx').
    { intros g Hg. fields. apply lookup_insert_is_Some'. right. apply Hall. by right. }
    exists x'. split.
    + cbn [forEach]. unfold bind at 1. rewrite (rewrite_shebang_run f w n Hn).
      by rewrite Hrun, set_fs_twice.
    + intros q. rewrite Hx'. fields.
      destruct (decide (q = f)) as [->|Hne].
      * rewrite lookup_insert_eq, Hn.
        destruct (decide (f ∈ f :: files)) as [_|Hout]; [|destruct Hout; left].
        case_decide; simpl; [by rewrite rewritten_twice|done].
      * rewrite lookup_insert_ne by done.
        destruct (decide (q ∈ files)) as [Hin|Hin];
          destruct (decide (q ∈ f :: files)) as [Hin'|Hin']; try done.
        -- destruct Hin'. by right.
        -- apply elem_of_cons in Hin' as [?|?]; done.
Qed.

(** X14.  [RewriteShebangs] always succeeds and changes only the file
    system: every regular file among [bin/*] and
    [vendor_bundle/ruby/*/bin/*] of the dependency directory gets its
    shebang line rewritten, directories there are passed over, and every
    other path is as it was - no path appears or disappears. *)
Theorem RewriteShebangs_rewrites (w0 : World) :
  ∃ x', supply.RewriteShebangs w0 = (Ok tt, set_fs x' w0) ∧
        ∀ q, x' !! q = if decide (q ∈ supply.shebang_files (fs w0))
                       then supply.rewritten <$> fs w0 !! q
                       else fs w0 !! q.
Proof.
  destruct (rewrite_shebang_all (supply.shebang_files (fs w0)) w0) as (x' & Hrun & Hx').
  { intros f. apply shebang_files_exist. }
  exists x'. split; [|exact Hx']. exact Hrun.
Qed.
End Shebangs.

Lemma NoDup_omap {A B} (f : A → option B) (l : list A) :
  (∀ a b y, a ∈ l → b ∈ l → f a = Some y → f b = Some y → a = b) →
  NoDup l → NoDup (omap f l).
Proof.
  intros Hinj Hnd. induction Hnd as [|a l Hnot Hnd IH]; [constructor|].
  cbn [omap list_omap]. 
  assert (NoDup (omap f l)) as IH'.
  { apply IH. intros b c y Hb Hc. apply Hinj; by right. }
  destruct (f a) as [y|] eqn:Hfa; [|exact IH'].
  constructor; [|exact IH'].
  intros (b & Hb & Hfb)%list_elem_of_omap.
  rewrite (Hinj a b y) in Hnot; [done|left|by right|done|done].
Qed.

Lemma children_elem_of (dir : path) (x : FS) (name : string) :
  name ∈ children dir x ↔ is_Some (x !! (dir ++ [name])).
Proof.
  split; [apply children_exist|]. intros [n Hn].
  unfold children. rewrite merge_sort_Permutation.
  apply list_elem_of_omap. exists (dir ++ [name], n). split.
  - by apply elem_of_map_to_list.
  - simpl. unfold child_name. rewrite drop_app_length, take_app_length.
    by rewrite decide_True.
Qed.

Lemma children_NoDup (dir : path) (x : FS) : NoDup (children dir x).
Proof.
  unfold children. rewrite merge_sort_Permutation.
  apply NoDup_omap; [|apply NoDup_map_to_list].
  intros [q n] [q' n'] name Hin Hin' Hq Hq'. simpl in *.
  apply child_name_Some in Hq, Hq'. subst q q'.
  apply elem_of_map_to_list in Hin, Hin'. congruence.
Qed.

Lemma children_Sorted (dir : path) (x : FS) : Sorted name_le (children dir x).
Proof. apply (Sorted_merge_sort name_le). Qed.

(** The entries of a directory depend on which paths exist only. *)
Lemma children_agree (dir : path) (x x' : FS) :
  (∀ q, is_Some (x' !! q) ↔ is_Some (x !! q)) → children dir x' = children dir x.
Proof.
  intros Hdom. apply (Sorted_unique name_le); try apply children_Sorted.
  apply NoDup_Permutation; try apply children_NoDup.
  intros name. by rewrite !children_elem_of, Hdom.
Qed.

Lemma Glob_agree (dir : path) (pre : string) (x x' : FS) :
  (∀ q, x' !! q = x !! q ∨ x' !! q = supply.rewritten <$> x !! q) →
  supply.Glob dir pre x' = supply.Glob dir pre x.
Proof.
  intros Hx. unfold supply.Glob.
  assert (is_dir dir x' = is_dir dir x) as ->.
  { unfold is_dir. destruct (Hx dir) as [->| ->]; [done|]. by destruct (x !! dir) as [[]|]. }
  rewrite (children_agree dir x x'); [done|].
  intros q. destruct (Hx q) as [->| ->]; [done|]. by rewrite fmap_is_Some.
Qed.

Section ShebangsAgain.
Context {ST : Stager}.

Lemma shebang_files_agree (x x' : FS) :
  (∀ q, x' !! q = x !! q ∨ x' !! q = supply.rewritten <$> x !! q) →
  supply.shebang_files x' = supply.shebang_files x.
Proof.
  intros Hx. unfold supply.shebang_files. rewrite !(Glob_agree _ _ x x' Hx). f_equal.
  induction (supply.Glob (Join DepDir ["vendor_bundle"; "ruby"]) "" x) as [|d l IH]; [done|].
  simpl. by rewrite IH, (Glob_agree _ _ x x' Hx).
Qed.

(** X15.  [RewriteShebangs] can be run again: after one run, a second run
    succeeds and leaves the world exactly as the first run left it.  (The
    program runs it after the interpreter is installed and once more
    after the gems are.) *)
Theorem RewriteShebangs_again (w0 : World) :
  supply.RewriteShebangs (supply.RewriteShebangs w0).2 = (Ok tt, (supply.RewriteShebangs w0).2).
Proof.
  destruct (rewrite_shebang_all (supply.shebang_files (fs w0)) w0) as (x1 & Hrun1 & Hx1).
  { intros f. apply shebang_files_exist. }
  assert (supply.RewriteShebangs w0 = (Ok tt, set_fs x1 w0)) as -> by exact Hrun1.
  cbn [snd].
  destruct (rewrite_shebang_all (supply.shebang_files x1) (set_fs x1 w0)) as (x2 & Hrun2 & Hx2).
  { intros f. fields. apply shebang_files_exist. }
  assert (supply.RewriteShebangs (set_fs x1 w0) = (Ok tt, set_fs x2 (set_fs x1 w0))) as ->
    by exact Hrun2.
  assert (supply.shebang_files x1 = supply.shebang_files (fs w0)) as Hfiles.
  { apply shebang_files_agree. intros q. rewrite Hx1. case_decide; auto. }
  assert (x2 = x1) as ->.
  { apply map_eq. intros q. rewrite Hx2, Hfiles. fields. rewrite Hx1.
    case_decide; [|done]. rewrite <- option_fmap_compose.
    apply option_fmap_ext. intros n. apply rewritten_twice. }
  by rewrite set_fs_twice.
Qed.
End ShebangsAgain.

(** ** The library path *)

Section LibraryPath.
Context {ST : Stager} {PD : supply.ProfileD}.

(** X16.  [EnableLDLibraryPathEnv] returns nil and does nothing at all
    for an application without an [ld_library_path] entry, and returns the
    error of the stat, again without any effect, when the system cannot
    tell.  For an application with the entry, a call that returns nil has
    put the entry's path in front of [LD_LIBRARY_PATH], keeping an earlier
    value after a colon; the env file has the same value as the process;
    no other variable has changed; and the start-up script
    [app_lib_path.sh] is written with a text that depends on neither the
    build directory nor the earlier value. *)
Theorem EnableLDLibraryPathEnv_prepends (w0 : World) :
  let dir := Join BuildDir ["ld_library_path"] in
  let old := Getenv "LD_LIBRARY_PATH" w0 in
  (blocked dir (fs w0) = true →
   supply.EnableLDLibraryPathEnv w0
   = (Err (EMsg ("stat " +:+ path_string dir +:+ ": not a directory")), w0)) ∧
  (blocked dir (fs w0) = false → Exists dir (fs w0) = false →
   supply.EnableLDLibraryPathEnv w0 = (Ok tt, w0)) ∧
  (blocked dir (fs w0) = false → Exists dir (fs w0) = true →
   ∀ w1, supply.EnableLDLibraryPathEnv w0 = (Ok tt, w1) →
     environ w1 !! "LD_LIBRARY_PATH" =
       Some (if decide (old = "") then path_string dir else path_string dir +:+ ":" +:+ old) ∧
     envFiles w1 !! "LD_LIBRARY_PATH" = environ w1 !! "LD_LIBRARY_PATH" ∧
     (∀ name, name ≠ "LD_LIBRARY_PATH" → environ w1 !! name = environ w0 !! name) ∧
     file_of (fs w1) (Join DepDir ["profile.d"; "app_lib_path.sh"])
     = Some supply.app_lib_path_sh).
Proof.
  intros dir old.
  unfold supply.EnableLDLibraryPathEnv, FileExists, os_Getenv, bind, gets, ret.
  cbv zeta. cbn [resolve]. fold dir.
  split; [|split].
  - intros ->. reflexivity.
  - intros -> ->. reflexivity.
  - intros -> -> w1. cbn [negb]. fold old.
    unfold os_Setenv, Stager_WriteEnvFile, supply.Stager_WriteProfileD, record, modify, bind,
      fail.
    fields.
    destruct (WriteEnvFile_err _ _); [discriminate|]. fields.
    destruct (supply.WriteProfileD_err _ _); [discriminate|].
    unfold os_MkdirAll, supply.ioutil_WriteFile, onFS. fields.
    destruct (MkdirAll _ _) as [x1|]; [|discriminate]. fields.
    unfold create. destruct (x1 !! _) as [[|]|] eqn:Hx1; try discriminate;
      intros [= <-]; fields; unfold file_of;
      rewrite !lookup_insert_eq; (split; [done|]); (split; [done|]);
      (split; [|done]); intros name Hname; by rewrite lookup_insert_ne.
Qed.
End LibraryPath.

(** The staging application with its own libraries, and without. *)
Lemma EnableLDLibraryPathEnv_prepends_witness :
  let w0 := Staging.world supply.lib_fs true in
  let w1 := (supply.EnableLDLibraryPathEnv (ST := Staging.stager) (PD := supply.profile_d) w0).2 in
  let w0' := Staging.world Staging.app_fs true in
  (environ w1 !! "LD_LIBRARY_PATH" = Some "/home/vcap/app/ld_library_path" ∧
   envFiles w1 !! "LD_LIBRARY_PATH" = Some "/home/vcap/app/ld_library_path") ∧
  supply.EnableLDLibraryPathEnv (ST := Staging.stager) (PD := supply.profile_d) w0'
  = (Ok tt, w0').
Proof.
  intros w0 w1 w0'. split.
  - assert (supply.EnableLDLibraryPathEnv (ST := Staging.stager) (PD := supply.profile_d) w0
            = (Ok tt, w1)) as Hrun by pairing.
    destruct (EnableLDLibraryPathEnv_prepends (ST := Staging.stager) (PD := supply.profile_d)
                w0) as (_ & _ & H).
    destruct (H eq_refl eq_refl w1 Hrun) as (Henv & Hfile & _).
    assert (Getenv "LD_LIBRARY_PATH" w0 = "") as Hold by (vm_compute; reflexivity).
    rewrite Hold in Henv. split; [exact Henv|]. rewrite Hfile. exact Henv.
  - destruct (EnableLDLibraryPathEnv_prepends (ST := Staging.stager) (PD := supply.profile_d)
                w0') as (_ & H & _).
    exact (H eq_refl eq_refl).
Defined.
